(** * Sender-recovery stage of turbo-geth: a shallow embedding

    The development follows [eth/stagedsync/stage_senders.go]:

    - [AddressBuffer]: the fixed-width spill buffer over an
      [io.ReadWriteCloser] ([NewAddressBuffer], [Write], [Read], [Add],
      [Reset], [Next]);
    - [writeOnDiskBatch]: the reorder-and-spill writer;
    - [recoverFrom]: sender recovery for one block body;
    - [getBlockBody], the producer loop and [writeBatchFromDisk];
    - [unwindSendersStage];
    - the package initialiser, the start of the recoverer goroutines and
      [recoverSenders], the body of one of them;
    - [recoverSendersFromDisk] and [spawnRecoverSendersStage] as it runs.

    Go values are modelled as the code has them: [uint64] as [Z] reduced
    modulo [2^64], [int] as [Z] wrapped to 64 signed bits, byte slices as
    [list byte], a nil-able [error] as [option error], a result pair
    [(v, err)] as a Rocq pair. *)

From Stdlib Require Import ZArith Lia List Bool String Ascii Sorted.
From Stdlib Require Import Init.Byte.
From stdpp Require Import base option list gmap sorting.

Import ListNotations.
Local Open Scope Z_scope.

(** ** Machine integers *)

(** [uint64] arithmetic wraps modulo [2^64]. *)
Definition u64 (z : Z) : Z := z mod 2 ^ 64.

(** [int] is 64 bits wide on the platforms the stage runs on. *)
Definition int64 (z : Z) : Z := (z + 2 ^ 63) mod 2 ^ 64 - 2 ^ 63.

Definition max_int : Z := 2 ^ 63 - 1.

(** ** Errors *)

(** The error values the stage builds or passes on: [io.EOF],
    [common.ErrStopped], the results of [errors.New], [errors.Wrap] and
    [fmt.Errorf]. [ext_error] stands for an error produced by a collaborator
    (file system, database, signature library), identified by a code. *)
Inductive error : Type :=
| io_EOF
| ErrStopped
| errors_New (msg : string)
| errors_Wrap (cause : error) (msg : string)
| fmt_Errorf (prefix : string) (cause : error)
| ext_error (code : nat).

(** ** Addresses and byte slices *)

Definition AddressLength : Z := 20.

(** Modelled from the spec: [common.Address], a fixed-width 20-byte
    identifier (the package [common] is not among the sources); its slice
    [addr[:]] is the list of its bytes. *)
Definition Address := list byte.

Definition is_address (a : Address) : Prop := length a = 20%nat.

(** [common.Address{}] *)
Definition zeroAddress : Address := repeat x00 20.

(** [s[lo:hi]] for [0 <= lo <= hi <= len(s)]; outside these bounds Go panics,
    and [Next] stays within them (see [Next_stays_in_the_window]). *)
Definition slice (lo hi : Z) (s : list byte) : list byte :=
  take (Z.to_nat (hi - lo)) (drop (Z.to_nat lo) s).

(** [len(s)] as an [int]. *)
Definition len {A} (s : list A) : Z := Z.of_nat (length s).

(** ** The backing stream: [io.ReadWriteCloser] *)

(** [rwc_Read f k] is [Read(p)] for a slice [p] of length [k]: it returns the
    bytes stored at the front of [p] (their number is Go's [n]) and the
    error. [rwc_Write f p] returns Go's [(n, err)]. *)
Class ReadWriteCloser (F : Type) := {
  rwc_Read : F -> nat -> F * (list byte * option error);
  rwc_Write : F -> list byte -> F * (Z * option error);
  rwc_Close : F -> F * option error
}.

(** A regular file held in memory: [Write] appends (the spill file is
    opened with [O_APPEND]), [Read] continues at the read offset, returns
    as many bytes as fit and are left, and reports [io.EOF] with no byte at
    the end of the file. *)
Record MemFile := mkMemFile { data : list byte; offset : nat }.

Definition MemFile_Read (f : MemFile) (k : nat) : MemFile * (list byte * option error) :=
  match k with
  | O => (f, ([], None))
  | _ =>
      let chunk := take k (drop (offset f) (data f)) in
      match chunk with
      | [] => (f, ([], Some io_EOF))
      | _ => (mkMemFile (data f) (offset f + length chunk), (chunk, None))
      end
  end.

Definition MemFile_Write (f : MemFile) (p : list byte) : MemFile * (Z * option error) :=
  (mkMemFile (data f ++ p) (offset f), (len p, None)).

#[export] Instance MemFile_rwc : ReadWriteCloser MemFile := {
  rwc_Read := MemFile_Read;
  rwc_Write := MemFile_Write;
  rwc_Close := fun f => (f, None)
}.

(** The file opened again from its start. *)
Definition reopen (f : MemFile) : MemFile := mkMemFile (data f) 0.

(** A stream that records how many [Write] calls reached it. *)
Record Counted (F : Type) := mkCounted { inner : F; write_calls : nat }.
Arguments mkCounted {F} _ _.
Arguments inner {F} _.
Arguments write_calls {F} _.

#[export] Instance Counted_rwc {F} `{ReadWriteCloser F} : ReadWriteCloser (Counted F) := {
  rwc_Read := fun c k =>
    let '(f, r) := rwc_Read (inner c) k in (mkCounted f (write_calls c), r);
  rwc_Write := fun c p =>
    let '(f, r) := rwc_Write (inner c) p in (mkCounted f (S (write_calls c)), r);
  rwc_Close := fun c =>
    let '(f, r) := rwc_Close (inner c) in (mkCounted f (write_calls c), r)
}.

(** A stream on which every call fails with the given error. *)
Record Broken := mkBroken { broken_with : error }.

#[export] Instance Broken_rwc : ReadWriteCloser Broken := {
  rwc_Read := fun b _ => (b, ([], Some (broken_with b)));
  rwc_Write := fun b _ => (b, (0, Some (broken_with b)));
  rwc_Close := fun b => (b, Some (broken_with b))
}.

(** ** AddressBuffer *)

Module AddressBuffer.
Section WithStream.
Context {F : Type} `{ReadWriteCloser F}.

Record t := mk { buf : list byte; size : Z; currentIdx : Z; rwc : F }.

Definition set_buf (b : list byte) (a : t) : t := mk b (size a) (currentIdx a) (rwc a).
Definition set_currentIdx (i : Z) (a : t) : t := mk (buf a) (size a) i (rwc a).
Definition set_rwc (f : F) (a : t) : t := mk (buf a) (size a) (currentIdx a) f.

(** [NewAddressBuffer]: [None] is the run-time panic of [make] on a
    negative length. In write mode the slice is empty (and so is its
    capacity after [buf[0:0:len(buf)]]); in read mode it has [length]
    zero bytes. *)
Definition NewAddressBuffer (f : F) (size : Z) (fullLength : bool) : option t :=
  let length := int64 (size * AddressLength) in
  if length <? 0 then None
  else
    let buf := if fullLength then [] else repeat x00 (Z.to_nat length) in
    Some (mk buf size (-1) f).

Definition Reset (a : t) : t := set_buf [] a.

Definition Write (a : t) : t * (Z * option error) :=
  if 0 <? len (buf a) then
    let '(f, (n, err)) := rwc_Write (rwc a) (buf a) in
    let a := set_rwc f a in
    match err with
    | Some e => (a, (0, Some e))
    | None => (Reset a, (n, None))
    end
  else (a, (0, None)).

(** [Read] hands the whole slice [a.buf] to the stream, which overwrites
    its front. *)
Definition Read (a : t) : t * (Z * option error) :=
  let '(f, (bs, err)) := rwc_Read (rwc a) (length (buf a)) in
  let bs := take (length (buf a)) bs in
  (set_rwc f (set_buf (bs ++ drop (length bs) (buf a)) a), (len bs, err)).

Definition Add (b : list byte) (a : t) : t := set_buf (buf a ++ b) a.

Definition Len (a : t) : Z := len (buf a).

Definition Next (a : t) : t * (Address * option error) :=
  let a :=
    if len (buf a) <? int64 (int64 (currentIdx a + 2) * 20)
    then set_currentIdx (-1) a else a in
  let refill :=
    if currentIdx a =? -1 then
      let '(a, (n, err)) := Read a in
      match err with
      | Some e => (a, Some e)
      | None =>
          if negb (Z.rem n AddressLength =? 0)
          then (a, Some (errors_New "got invalid address length"))
          else if n =? 0 then (a, Some io_EOF)
          else (a, None)
      end
    else (a, None) in
  match refill with
  | (a, Some e) => (a, (zeroAddress, Some e))
  | (a, None) =>
      let a := set_currentIdx (int64 (currentIdx a + 1)) a in
      (a, (slice (int64 (currentIdx a * 20)) (int64 (int64 (currentIdx a + 1) * 20)) (buf a), None))
  end.

(** [Next] called [k] times, with what each call returned. *)
Fixpoint Next_n (k : nat) (a : t) : t * list (Address * option error) :=
  match k with
  | O => (a, [])
  | S k =>
      let '(a, r) := Next a in
      let '(a, rs) := Next_n k a in
      (a, r :: rs)
  end.

End WithStream.
Arguments t F : clear implicits.
End AddressBuffer.

(** ** Results of the recoverers and the reorder-and-spill writer *)

Record TxsFroms := mkTxsFroms {
  blockNumber : Z;
  froms : list Address;
  err : option error
}.

(** [sort.SliceStable(buffer, func(i, j) { buffer[i].blockNumber < buffer[j].blockNumber })]:
    an element goes in front of the first one that is not below it, so equal
    block numbers keep the order they had. *)
Fixpoint insert_stable (x : TxsFroms) (l : list TxsFroms) : list TxsFroms :=
  match l with
  | [] => [x]
  | y :: l' =>
      if blockNumber y <? blockNumber x then y :: insert_stable x l' else x :: y :: l'
  end.

Definition SliceStable (l : list TxsFroms) : list TxsFroms :=
  foldr insert_stable [] l.

(** What one iteration of [for j := range out] observes: the received
    result, and whether [quitCh] and [doneCh] are closed when
    [common.Stopped] polls them ([common.Stopped], not among the sources,
    returns [ErrStopped] for a closed channel and nil for an open one). *)
Record Recv := mkRecv { res : TxsFroms; quit_closed : bool; done_closed : bool }.

(** How a call ends: it returns its error value, or it panics. *)
Inductive outcome : Type :=
| Returned (e : option error)
| Panicked (e : error).

Definition toSort : Z := 1000.

(** The inner loop of the row test, from index [i] on. *)
Fixpoint checkRow (currentBlock i : Z) (buffer : list TxsFroms) : bool :=
  match buffer with
  | [] => true
  | b :: rest =>
      if toSort <? i then true
      else if negb (blockNumber b =? u64 (currentBlock + i)) then false
      else checkRow currentBlock (i + 1) rest
  end.

Definition hasRow (buffer : list TxsFroms) (currentBlock : Z) : bool :=
  if len buffer <? toSort then false else checkRow currentBlock 0 buffer.

Section WriteOnDisk.
Context {F : Type} `{ReadWriteCloser F}.

(** The local variables of [writeOnDiskBatch] and the buffer it writes to. *)
Record WriterState := mkWriterState {
  w_n : Z;
  w_buffer : list TxsFroms;
  w_total : Z;
  w_totalFroms : Z;
  w_written : Z;
  w_err : option error;
  w_isFirst : bool;
  w_currentBlock : Z;
  w_buf : AddressBuffer.t F
}.

Definition writer_init (buf : AddressBuffer.t F) : WriterState :=
  mkWriterState 0 [] 0 0 0 None true 0 buf.

(** [for i := range jobToWrite.froms { n++; buf.Add(...); if 20*n >= buf.size {...} }];
    [Some r] in the result means [return r]. *)
Fixpoint addFroms (fs : list Address) (st : WriterState)
  : WriterState * option (option error) :=
  match fs with
  | [] => (st, None)
  | from :: fs =>
      let n := int64 (w_n st + 1) in
      let buf := AddressBuffer.Add from (w_buf st) in
      if AddressBuffer.size buf <=? int64 (20 * n) then
        let '(buf, (written, err)) := AddressBuffer.Write buf in
        match err with
        | Some e =>
            (mkWriterState n (w_buffer st) (w_total st) (w_totalFroms st) written (Some e)
               (w_isFirst st) (w_currentBlock st) buf,
             Some (Some e))
        | None =>
            addFroms fs
              (mkWriterState 0 (w_buffer st) (int64 (w_total st + written)) (w_totalFroms st)
                 written None (w_isFirst st) (w_currentBlock st) buf)
        end
      else
        addFroms fs
          (mkWriterState n (w_buffer st) (w_total st) (w_totalFroms st) (w_written st)
             (w_err st) (w_isFirst st) (w_currentBlock st) buf)
  end.

(** [for _, jobToWrite := range writeFroms { ... }] *)
Fixpoint writeJobs (jobs : list TxsFroms) (st : WriterState)
  : WriterState * option (option error) :=
  match jobs with
  | [] => (st, None)
  | jobToWrite :: jobs =>
      let st :=
        mkWriterState (w_n st) (w_buffer st) (w_total st)
          (int64 (w_totalFroms st + len (froms jobToWrite))) (w_written st) (w_err st)
          (w_isFirst st) (w_currentBlock st) (w_buf st) in
      match addFroms (froms jobToWrite) st with
      | (st, Some r) => (st, Some r)
      | (st, None) => writeJobs jobs st
      end
  end.

(** One iteration of [for j := range out]; [firstBlock] is the value
    [atomic.LoadUint64(firstBlock)] yields. [Some r] means [return r], [None]
    that the loop goes on. *)
Definition writer_step (firstBlock : Z) (st : WriterState) (ev : Recv)
  : WriterState * option (option error) :=
  let j := res ev in
  let st :=
    if w_isFirst st then
      mkWriterState (w_n st) (w_buffer st) (w_total st) (w_totalFroms st) (w_written st)
        (w_err st) false firstBlock (w_buf st)
    else st in
  match err j with
  | Some _ => (st, Some (w_err st))
  | None =>
  if quit_closed ev then (st, Some (Some ErrStopped))
  else if done_closed ev then (st, Some None)
  else
  match err j with
  | Some e => (st, Some (Some (errors_Wrap e "could not extract senders")))
  | None =>
  let buffer := SliceStable (w_buffer st ++ [j]) in
  if negb (hasRow buffer (w_currentBlock st)) then
    (mkWriterState (w_n st) buffer (w_total st) (w_totalFroms st) (w_written st)
       (w_err st) (w_isFirst st) (w_currentBlock st) (w_buf st),
     None)
  else
    let writeFroms := take (Z.to_nat toSort) buffer in
    writeJobs writeFroms
      (mkWriterState (w_n st) (drop (Z.to_nat toSort) buffer) (w_total st) (w_totalFroms st)
         (w_written st) (w_err st) (w_isFirst st) (u64 (w_currentBlock st + toSort)) (w_buf st))
  end
  end.

(** The loop over what [out] delivers before it is closed; at the end of
    the list the channel is closed and the function returns nil. *)
Fixpoint writer_loop (firstBlock : Z) (evs : list Recv) (st : WriterState)
  : WriterState * option error :=
  match evs with
  | [] => (st, None)
  | ev :: evs =>
      match writer_step firstBlock st ev with
      | (st, Some r) => (st, r)
      | (st, None) => writer_loop firstBlock evs st
      end
  end.

(** The second deferred function ("store last blocks"): every job left in
    the buffer is appended and written; a failed write panics. *)
Fixpoint storeLast (jobs : list TxsFroms) (st : WriterState) : WriterState * option error :=
  match jobs with
  | [] => (st, None)
  | job :: jobs =>
      let buf := foldl (fun b from => AddressBuffer.Add from b) (w_buf st) (froms job) in
      let '(buf, (written, err)) := AddressBuffer.Write buf in
      let st :=
        mkWriterState (w_n st) (w_buffer st) (w_total st)
          (int64 (w_totalFroms st + len (froms job))) written err
          (w_isFirst st) (w_currentBlock st) buf in
      match err with
      | Some e => (st, Some e)
      | None =>
          storeLast jobs
            (mkWriterState (w_n st) (w_buffer st) (int64 (w_total st + written))
               (w_totalFroms st) (w_written st) (w_err st) (w_isFirst st)
               (w_currentBlock st) (w_buf st))
      end
  end.

(** The deferred functions run last-in first-out on every way out of the
    function: "store last blocks" first, then the final [buf.Write()], which
    runs also when the first one panicked. *)
Definition writer_deferred (st : WriterState) (r : option error) : WriterState * outcome :=
  let buffer := SliceStable (w_buffer st) in
  let st :=
    mkWriterState (w_n st) buffer (w_total st) (w_totalFroms st) (w_written st) (w_err st)
      (w_isFirst st) (w_currentBlock st) (w_buf st) in
  let '(st, panic) := storeLast buffer st in
  let '(buf, _) := AddressBuffer.Write (w_buf st) in
  let st :=
    mkWriterState (w_n st) (w_buffer st) (w_total st) (w_totalFroms st) (w_written st)
      (w_err st) (w_isFirst st) (w_currentBlock st) buf in
  match panic with
  | Some e => (st, Panicked e)
  | None => (st, Returned r)
  end.

Definition writeOnDiskBatch (buf : AddressBuffer.t F) (firstBlock : Z) (evs : list Recv)
  : WriterState * outcome :=
  let '(st, r) := writer_loop firstBlock evs (writer_init buf) in
  writer_deferred st r.

End WriteOnDisk.
Arguments WriterState F : clear implicits.

(** ** Transactions, signers and sender recovery *)

(** Modelled from the spec: [common.Hash], the 32-byte block and transaction
    hash of the package [common], which is not among the sources. *)
Definition Hash := list byte.

(** [common.Hash{}] *)
Definition zeroHash : Hash := repeat x00 32.

(** Modelled from the spec: [types.Transaction] and [types.Body] (the package
    [core/types] is not among the sources), as far as the stage uses them:
    [tx.Hash()], [tx.Protected()], [tx.ChainID()], and the sender that
    [tx.SetFrom] records. *)
Record Transaction := mkTransaction {
  tx_hash : Hash;
  tx_protected : bool;
  tx_chainID : Z;
  tx_from : option Address
}.

Definition SetFrom (addr : Address) (tx : Transaction) : Transaction :=
  mkTransaction (tx_hash tx) (tx_protected tx) (tx_chainID tx) (Some addr).

Record Body := mkBody { Transactions : list Transaction }.

(** Modelled from the spec: a [secp256k1.Context], the cryptographic context
    of one worker; contexts are told apart by the order of their creation. *)
Definition Context := nat.

(** Modelled from the spec: the [types.Signer] interface, as far as the stage
    calls it: the chain ID of the signer and the recovery of a sender, which
    returns an address and an error. *)
Record Signer := mkSigner {
  signer_ChainID : Z;
  SenderWithContext : Context -> Transaction -> Address * option error
}.

(** [%x] of a byte slice: two lower-case hexadecimal digits per byte. *)
Definition hex_digit (n : N) : ascii :=
  if (n <? 10)%N then ascii_of_N (48 + n) else ascii_of_N (87 + n).

Fixpoint hex_of_bytes (bs : list byte) : string :=
  match bs with
  | [] => EmptyString
  | b :: bs =>
      String (hex_digit (Byte.to_N b / 16))
        (String (hex_digit (Byte.to_N b mod 16)) (hex_of_bytes bs))
  end.

Definition newline : string := String (ascii_of_N 10) EmptyString.

(** [fmt.Sprintf("error recovering sender for tx=%x\n", tx.Hash())] *)
Definition recovering_msg (tx : Transaction) : string :=
  ("error recovering sender for tx=" ++ hex_of_bytes (tx_hash tx) ++ newline)%string.

(** The loop of [recoverFrom] from index [i] on; [froms] is the slice made
    before the loop. A nil slice is [None]. *)
Fixpoint recoverFrom_loop (cryptoContext : Context) (signer : Signer) (i : nat)
    (txs : list Transaction) (froms : list Address) : option (list Address) * option error :=
  match txs with
  | [] => (Some froms, None)
  | tx :: txs =>
      if tx_protected tx && negb (tx_chainID tx =? signer_ChainID signer)
      then (None, Some (errors_New "invalid chainId"))
      else
        match SenderWithContext signer cryptoContext tx with
        | (_, Some e) => (None, Some (errors_Wrap e (recovering_msg tx)))
        | (from, None) => recoverFrom_loop cryptoContext signer (S i) txs (<[i := from]> froms)
        end
  end.

Definition recoverFrom (cryptoContext : Context) (blockBody : Body) (signer : Signer)
  : option (list Address) * option error :=
  recoverFrom_loop cryptoContext signer 0 (Transactions blockBody)
    (repeat zeroAddress (length (Transactions blockBody))).

(** ** The storage collaborators *)

#[export] Instance byte_eq_dec : EqDecision byte := Byte.byte_eq_dec.

#[export] Instance byte_countable : Countable byte :=
  inj_countable Byte.to_N Byte.of_N Byte.of_to_N.

(** Modelled from the spec: [stages.SyncStage], the identifier of a stage in
    the progress ledger; [stages.Senders] is the stage of this file. *)
Definition SyncStage := nat.
Definition Senders : SyncStage := 2%nat.

(** Modelled from the spec: the storage collaborator, the canonical-hash and
    body collaborator and the stage-progress collaborator (section 6), none
    of which is among the sources. What a [Put] stores is one of three kinds
    of entry: a block body under its number and hash, the progress cursor of
    a stage, the unwind marker of a stage. *)
Inductive entry : Type :=
| BodyEntry (number : Z) (hash : Hash) (body : Body)
| ProgressEntry (stage : SyncStage) (blockNum : Z)
| UnwindEntry (stage : SyncStage) (unwindPoint : Z).

(** Modelled from the spec: the database ([ethdb.Database]). [db_fault], when
    set, is the error every [Get], [Put] and [Commit] on the database itself
    returns. *)
Record Store := mkStore {
  canonical : gmap Z Hash;
  bodies : gmap (Z * Hash) Body;
  stageProgress : gmap SyncStage Z;
  stageUnwind : gmap SyncStage Z;
  idealBatchSize : Z;
  db_fault : option error
}.

Definition apply_entry (e : entry) (db : Store) : Store :=
  match e with
  | BodyEntry number hash body =>
      mkStore (canonical db) (<[(number, hash) := body]> (bodies db)) (stageProgress db)
        (stageUnwind db) (idealBatchSize db) (db_fault db)
  | ProgressEntry stage blockNum =>
      mkStore (canonical db) (bodies db) (<[stage := blockNum]> (stageProgress db))
        (stageUnwind db) (idealBatchSize db) (db_fault db)
  | UnwindEntry stage unwindPoint =>
      mkStore (canonical db) (bodies db) (stageProgress db)
        (<[stage := unwindPoint]> (stageUnwind db)) (idealBatchSize db) (db_fault db)
  end.

(** Modelled from the spec: a batch ([ethdb.DbWithPendingMutations]) over a
    database: the puts are held in memory, the latest first, until [Commit]
    writes them to the database. *)
Record Mutation := mkMutation { m_db : Store; m_puts : list entry }.

(** [stateDB.NewBatch()] *)
Definition NewBatch (db : Store) : Mutation := mkMutation db [].

(** Modelled from the spec: [Commit] writes the puts in the order they were
    made and empties the batch; it fails when the database does. *)
Definition Commit (m : Mutation) : Mutation * option error :=
  match db_fault (m_db m) with
  | Some e => (m, Some e)
  | None => (mkMutation (foldr apply_entry (m_db m) (m_puts m)) [], None)
  end.

(** Modelled from the spec: the size of the open batch, counted in puts, and
    the size at which the storage layer wants a batch written. *)
Definition BatchSize (m : Mutation) : Z := len (m_puts m).
Definition IdealBatchSize (m : Mutation) : Z := idealBatchSize (m_db m).

(** [ethdb.Putter]: the database and the batch both take puts. *)
Class Putter (D : Type) := { Put : D -> entry -> D * option error }.

#[export] Instance Store_Putter : Putter Store := {
  Put := fun db e =>
    match db_fault db with
    | Some err => (db, Some err)
    | None => (apply_entry e db, None)
    end
}.

#[export] Instance Mutation_Putter : Putter Mutation := {
  Put := fun m e => (mkMutation (m_db m) (e :: m_puts m), None)
}.

(** Modelled from the spec: [stages.GetStageProgress]; a stage with no entry
    has made no progress. *)
Definition GetStageProgress (db : Store) (stage : SyncStage) : Z * option error :=
  match db_fault db with
  | Some e => (0, Some e)
  | None => (default 0 (stageProgress db !! stage), None)
  end.

(** Modelled from the spec: [stages.SaveStageProgress] and
    [stages.SaveStageUnwind]. *)
Definition SaveStageProgress {D} `{Putter D} (db : D) (stage : SyncStage) (progress : Z)
  : D * option error := Put db (ProgressEntry stage progress).

Definition SaveStageUnwind {D} `{Putter D} (db : D) (stage : SyncStage) (invalidation : Z)
  : D * option error := Put db (UnwindEntry stage invalidation).

(** Modelled from the spec: [StageState] and its [Update], which saves the
    new block number as the progress of the stage. *)
Record StageState := mkStageState { Stage : SyncStage; BlockNumber : Z }.

Definition Update {D} `{Putter D} (s : StageState) (db : D) (newBlockNum : Z)
  : D * option error := SaveStageProgress db (Stage s) newBlockNum.

(** The latest put of a body under [(number, hash)], if any. *)
Fixpoint pending_body (puts : list entry) (number : Z) (hash : Hash) : option Body :=
  match puts with
  | [] => None
  | BodyEntry n h b :: puts =>
      if decide ((n, h) = (number, hash)) then Some b else pending_body puts number hash
  | _ :: puts => pending_body puts number hash
  end.

(** Modelled from the spec: [rawdb.ReadCanonicalHash] (an absent hash is the
    zero hash), [rawdb.ReadBody] and [rawdb.WriteBody], through a batch. The
    stage puts no canonical hash. *)
Definition ReadCanonicalHash (m : Mutation) (number : Z) : Hash :=
  match db_fault (m_db m) with
  | Some _ => zeroHash
  | None => default zeroHash (canonical (m_db m) !! number)
  end.

Definition ReadBody (m : Mutation) (hash : Hash) (number : Z) : option Body :=
  match pending_body (m_puts m) number hash with
  | Some b => Some b
  | None =>
      match db_fault (m_db m) with
      | Some _ => None
      | None => bodies (m_db m) !! (number, hash)
      end
  end.

Definition WriteBody (m : Mutation) (hash : Hash) (number : Z) (body : Body) : Mutation :=
  fst (Put m (BodyEntry number hash body)).

(** Modelled from the spec: [hash.IsEmpty()], true of the zero hash, which
    stands for an absent canonical hash. *)
Definition IsEmpty (h : Hash) : bool := bool_decide (h = zeroHash).

(** ** Jobs, the producer and the apply pass *)

Record senderRecoveryJob := mkJob {
  job_signer : Signer;
  job_blockBody : Body;
  job_hash : Hash;
  job_nextBlockNumber : Z;
  job_err : option error
}.

Section Stage.
(** [params.ChainConfig] and [types.MakeSigner] are not among the sources. *)
Variable ChainConfig : Type.
Variable MakeSigner : ChainConfig -> Z -> Signer.

(** [getBlockBody]: [None] is the nil job. The scratch [*big.Int] is set to
    [nextBlockNumber] and read by [MakeSigner]. *)
Definition getBlockBody (mutation : Mutation) (config : ChainConfig) (nextBlockNumber : Z)
  : option senderRecoveryJob :=
  let hash := ReadCanonicalHash mutation nextBlockNumber in
  if IsEmpty hash then None
  else
    match ReadBody mutation hash nextBlockNumber with
    | None => None
    | Some body =>
        let s := MakeSigner config nextBlockNumber in
        Some (mkJob s body hash nextBlockNumber None)
    end.

(** The producer goroutine of [spawnRecoverSendersStage]: [quit it] tells
    whether [quitCh] is closed when iteration [it] polls it; the result is the
    jobs sent, what is sent on [errCh] before it is closed (nil when nothing
    is), and the final [nextBlockNumber] and [firstBlock]. Without fuel the
    result is [None]. *)
Fixpoint producer_loop (fuel it : nat) (quit : nat -> bool) (mutation : Mutation)
    (config : ChainConfig) (nextBlockNumber firstBlock : Z) (sent : list senderRecoveryJob)
  : option (list senderRecoveryJob * option error * Z * Z) :=
  match fuel with
  | O => None
  | S fuel =>
      if quit it then Some (sent, Some ErrStopped, nextBlockNumber, firstBlock)
      else
        match getBlockBody mutation config nextBlockNumber with
        | None => Some (sent, None, nextBlockNumber, firstBlock)
        | Some job =>
            let firstBlock := if firstBlock =? 0 then job_nextBlockNumber job else firstBlock in
            producer_loop fuel (S it) quit mutation config (u64 (nextBlockNumber + 1)) firstBlock
              (sent ++ [job])
        end
  end.

Section Apply.
Context {F : Type} `{ReadWriteCloser F}.

(** [for i := range job.blockBody.Transactions { addr, err = buf.Next(); ...;
    Transactions[i].SetFrom(addr) }]: the transactions with their senders
    set, or the error of [Next]. *)
Fixpoint setFroms (buf : AddressBuffer.t F) (txs : list Transaction)
  : AddressBuffer.t F * (list Transaction + error) :=
  match txs with
  | [] => (buf, inl [])
  | tx :: txs =>
      match AddressBuffer.Next buf with
      | (buf, (_, Some e)) => (buf, inr e)
      | (buf, (addr, None)) =>
          match setFroms buf txs with
          | (buf, inl txs') => (buf, inl (SetFrom addr tx :: txs'))
          | (buf, inr e) => (buf, inr e)
          end
      end
  end.

Record ApplyState := mkApplyState {
  a_buf : AddressBuffer.t F;
  a_mutation : Mutation;
  a_nextBlockNumber : Z
}.

(** The loop of [writeBatchFromDisk]. The batch was made on [stateDB], so
    after a commit [stateDB] is the database of the batch. Without fuel the
    result is [None]. *)
Fixpoint writeBatchFromDisk_loop (fuel : nat) (s : StageState) (config : ChainConfig)
    (st : ApplyState) : option (ApplyState * option error) :=
  match fuel with
  | O => None
  | S fuel =>
      match getBlockBody (a_mutation st) config (a_nextBlockNumber st) with
      | None => Some (st, None)
      | Some job =>
          let nextBlockNumber := u64 (a_nextBlockNumber st + 1) in
          match setFroms (a_buf st) (Transactions (job_blockBody job)) with
          | (buf, inr e) => Some (mkApplyState buf (a_mutation st) nextBlockNumber, Some e)
          | (buf, inl txs) =>
              let mutation :=
                WriteBody (a_mutation st) (job_hash job) (job_nextBlockNumber job) (mkBody txs) in
              if IdealBatchSize mutation <=? BatchSize mutation then
                match Update s mutation nextBlockNumber with
                | (mutation, Some e) => Some (mkApplyState buf mutation nextBlockNumber, Some e)
                | (mutation, None) =>
                    match Commit mutation with
                    | (mutation, Some e) => Some (mkApplyState buf mutation nextBlockNumber, Some e)
                    | (mutation, None) =>
                        let stateDB := m_db mutation in
                        writeBatchFromDisk_loop fuel s config
                          (mkApplyState buf (NewBatch stateDB) nextBlockNumber)
                    end
                end
              else
                writeBatchFromDisk_loop fuel s config (mkApplyState buf mutation nextBlockNumber)
          end
      end
  end.

Definition writeBatchFromDisk (fuel : nat) (buf : AddressBuffer.t F) (s : StageState)
    (config : ChainConfig) (mutation : Mutation) (lastBlockNumber : Z)
  : option (ApplyState * option error) :=
  writeBatchFromDisk_loop fuel s config (mkApplyState buf mutation (u64 (lastBlockNumber + 1))).

End Apply.
End Stage.

(** ** Unwind *)

Definition unwindSendersStage (stateDB : Store) (unwindPoint : Z) : Store * option error :=
  match GetStageProgress stateDB Senders with
  | (_, Some err) => (stateDB, Some (fmt_Errorf "unwind Senders: get stage progress: " err))
  | (lastProcessedBlockNumber, None) =>
      if lastProcessedBlockNumber <=? unwindPoint then
        match SaveStageUnwind stateDB Senders 0 with
        | (stateDB, Some err) => (stateDB, Some (fmt_Errorf "unwind Senders: reset: " err))
        | (stateDB, None) => (stateDB, None)
        end
      else
        let mutation := NewBatch stateDB in
        match SaveStageUnwind mutation Senders 0 with
        | (mutation, Some err) => (m_db mutation, Some (fmt_Errorf "unwind Senders: reset: " err))
        | (mutation, None) =>
            match Commit mutation with
            | (mutation, Some err) =>
                (m_db mutation, Some (fmt_Errorf "unwind Senders: failed to write db commit: " err))
            | (mutation, None) => (m_db mutation, None)
            end
        end
  end.

(** ** The recoverer goroutines *)

(** The package variables [numOfGoroutines] and [cryptoContexts], and how
    many contexts [secp256k1.NewContext] has made. *)
Record Globals := mkGlobals {
  numOfGoroutines : Z;
  cryptoContexts : list Context;
  contexts_made : nat
}.

(** [append(cryptoContexts, secp256k1.NewContext())], [k] times. *)
Fixpoint append_new_contexts (k : nat) (g : Globals) : Globals :=
  match k with
  | O => g
  | S k =>
      append_new_contexts k
        (mkGlobals (numOfGoroutines g) (cryptoContexts g ++ [contexts_made g])
           (S (contexts_made g)))
  end.

(** [init]; [NumCPU] is [runtime.NumCPU()]. The slice made with
    [numOfGoroutines] nil entries is filled index by index, which is the same
    as appending that many new contexts to the empty slice. *)
Definition init (NumCPU : Z) : Globals :=
  let numOfGoroutines := 3 in
  let numOfGoroutines := if NumCPU <? numOfGoroutines then NumCPU else numOfGoroutines in
  append_new_contexts (Z.to_nat numOfGoroutines) (mkGlobals numOfGoroutines [] 0).

(** [onlySecondStage := true] in [spawnRecoverSendersStage]. *)
Definition onlySecondStage : bool := true.

(** The start of the recoverers in [spawnRecoverSendersStage]: the package
    variables afterwards, and the context handed to each goroutine started
    with [go recoverSenders(ctx, ...)], in order. The local
    [numOfGoroutines] shadows the package variable and is set to 32. *)
Definition start_recoverers (onlySecondStage : bool) (g : Globals) : Globals * list Context :=
  if negb onlySecondStage then
    let numOfGoroutines := numOfGoroutines g in
    let numOfGoroutines := 32 in
    let ctxLength := len (cryptoContexts g) in
    let g :=
      if ctxLength <? numOfGoroutines
      then append_new_contexts (Z.to_nat (numOfGoroutines - ctxLength)) g
      else g in
    (g, take (Z.to_nat numOfGoroutines) (cryptoContexts g))
  else (g, []).

(** [res.err == common.ErrStopped]: [ErrStopped] is a value of its own,
    equal to no error built elsewhere. *)
Definition is_ErrStopped (e : option error) : bool :=
  match e with
  | Some ErrStopped => true
  | _ => false
  end.

(** [recoverSenders], the body of one recoverer goroutine: [jobs] is what
    it receives from [in], a nil job being [None], and at the end of the
    list [in] is closed; [quit it] tells whether [quit] is closed when
    iteration [it] polls it. The result is what the goroutine sends on
    [out], in order. *)
Fixpoint recoverSenders (cryptoContext : Context) (it : nat) (quit : nat -> bool)
    (jobs : list (option senderRecoveryJob)) : list TxsFroms :=
  match jobs with
  | [] => []
  | None :: _ => []
  | Some job :: jobs =>
      let r := mkTxsFroms (job_nextBlockNumber job) [] None in
      let r :=
        match recoverFrom cryptoContext (job_blockBody job) (job_signer job) with
        | (_, Some e) => mkTxsFroms (blockNumber r) (froms r) (Some e)
        | (fs, None) => mkTxsFroms (blockNumber r) (default [] fs) (err r)
        end in
      let r :=
        if quit it then mkTxsFroms (blockNumber r) (froms r) (Some ErrStopped) else r in
      if is_ErrStopped (err r) then []
      else r :: recoverSenders cryptoContext (S it) quit jobs
  end.

(** ** The stage and its second phase *)

Definition blockSize : Z := 4096.

(** [const batch = (blockSize * 10 / 20) * 10000] *)
Definition batch : Z := (blockSize * 10 / 20) * 10000.

(** [err != io.EOF] *)
Definition is_EOF (e : error) : bool :=
  match e with
  | io_EOF => true
  | _ => false
  end.

(** How [spawnRecoverSendersStage] ends: it returns its error value, or it
    panics with a message. *)
Inductive stage_outcome : Type :=
| StageReturned (e : option error)
| StagePanicked (msg : string).

(** What a run of the stage leaves: the database, whether [s.Done()] was
    called, and how the call ended. *)
Record StageRun := mkStageRun {
  run_db : Store;
  run_done : bool;
  run_outcome : stage_outcome
}.

Section StageRun.
Variable ChainConfig : Type.
Variable MakeSigner : ChainConfig -> Z -> Signer.
Context {F : Type} `{ReadWriteCloser F}.

(** [recoverSendersFromDisk]. [OpenFile filePath] is what
    [os.OpenFile(filePath, os.O_RDONLY, 0664)] returns. The result is the
    buffer after the deferred [buf.Close()] (none when the file was not
    opened), the batch and the error returned. [make] does not panic here,
    the length being [20 * batch]; without fuel the result is [None]. *)
Definition recoverSendersFromDisk (fuel : nat) (OpenFile : string -> F + error)
    (s : StageState) (config : ChainConfig) (mutation : Mutation)
    (lastProcessedBlockNumber : Z) (filePath : string)
  : option (option (AddressBuffer.t F) * Mutation * option error) :=
  match OpenFile filePath with
  | inr e => Some (None, mutation, Some e)
  | inl f =>
      match AddressBuffer.NewAddressBuffer f batch false with
      | None => None
      | Some buf =>
          match
            writeBatchFromDisk ChainConfig MakeSigner fuel buf s config mutation
              lastProcessedBlockNumber
          with
          | None => None
          | Some (st, e) =>
              let '(f, _) := rwc_Close (AddressBuffer.rwc (a_buf st)) in
              Some (Some (AddressBuffer.set_rwc f (a_buf st)), a_mutation st, e)
          end
      end
  end.

(** [spawnRecoverSendersStage] as it runs: [onlySecondStage] is the constant
    [true], so the block under [if !onlySecondStage] is not entered and
    [filePath] is the fixed path. [quit_closed] tells whether [quitCh] is
    closed at the start. The deferred [mutation.Commit()] runs on every way
    out once the batch is made, also on the panic; its error is logged
    only. *)
Definition spawnRecoverSendersStage (fuel : nat) (OpenFile : string -> F + error)
    (s : StageState) (stateDB : Store) (config : ChainConfig) (datadir : string)
    (quit_closed : bool) : option StageRun :=
  if quit_closed then Some (mkStageRun stateDB false (StageReturned (Some ErrStopped)))
  else
    let lastProcessedBlockNumber := BlockNumber s in
    let mutation := NewBatch stateDB in
    let firstBlockToProceed := lastProcessedBlockNumber in
    let filePath := "/mnt/sdb/turbo-geth/froms_13_0_17.out"%string in
    match
      recoverSendersFromDisk fuel OpenFile s config mutation firstBlockToProceed filePath
    with
    | None => None
    | Some (_, mutation, e) =>
        let committed := m_db (fst (Commit mutation)) in
        match e with
        | Some e =>
            if negb (is_EOF e) then Some (mkStageRun committed false (StageReturned (Some e)))
            else Some (mkStageRun committed true (StagePanicked "DONE!!!"))
        | None => Some (mkStageRun committed true (StagePanicked "DONE!!!"))
        end
    end.

End StageRun.

(** * Specifications and example inputs *)

(** The window is used up (or nothing was read yet): [Next] refills. *)
Definition window_used_up {F : Type} (a : AddressBuffer.t F) : Prop :=
  AddressBuffer.currentIdx a = -1 \/
  (0 <= AddressBuffer.currentIdx a /\
   len (AddressBuffer.buf a) < 20 * (AddressBuffer.currentIdx a + 2)).

Definition after_refill {F : Type} (a : AddressBuffer.t F) (n : Z) (err : option error)
  : AddressBuffer.t F * (Address * option error) :=
  match err with
  | Some e => (a, (zeroAddress, Some e))
  | None =>
      if negb (Z.rem n AddressLength =? 0)
      then (a, (zeroAddress, Some (errors_New "got invalid address length")))
      else if n =? 0 then (a, (zeroAddress, Some io_EOF))
      else (AddressBuffer.set_currentIdx 0 a, (slice 0 20 (AddressBuffer.buf a), None))
  end.

(** What [NewAddressBuffer] sets up in read mode and [Next] keeps: the
    window is a whole number of records, the index is [-1] or that of a
    record in it, and the lengths are far from the end of [int]. *)
Definition window_ok {F : Type} (a : AddressBuffer.t F) : Prop :=
  -1 <= AddressBuffer.currentIdx a /\
  20 * (AddressBuffer.currentIdx a + 1) <= len (AddressBuffer.buf a) /\
  (exists W : nat, length (AddressBuffer.buf a) = (20 * W)%nat) /\
  len (AddressBuffer.buf a) + 40 <= max_int.

(** What relates a read-mode buffer to the records [rest] still to be
    returned: the window is [P ++ concat wr ++ stale], where [P] is the
    part already returned, [wr] the records read but not yet returned,
    [stale] what an earlier refill left behind, and the file still holds
    [fr]. *)
Definition reads (W : nat) (a : AddressBuffer.t MemFile) (rest : list Address) : Prop :=
  exists (P stale : list byte) (wr fr : list Address),
    length (AddressBuffer.buf a) = (20 * W)%nat /\
    Forall is_address rest /\
    AddressBuffer.buf a = P ++ concat wr ++ stale /\
    Z.of_nat (length P) = 20 * (AddressBuffer.currentIdx a + 1) /\
    rest = wr ++ fr /\
    drop (offset (AddressBuffer.rwc a)) (data (AddressBuffer.rwc a)) = concat fr /\
    ((AddressBuffer.currentIdx a = -1 /\ wr = []) \/
     (0 <= AddressBuffer.currentIdx a /\ (stale = [] \/ fr = []))).

(** The bytes of the addresses of a list of results, in order. *)
Definition bytes_of (jobs : list TxsFroms) : list byte :=
  concat (flat_map froms jobs).

(** The run the row test looks for: the first [toSort] entries of the
    sorted buffer are the blocks [currentBlock], [currentBlock + 1], ... *)
Definition run_present (buffer : list TxsFroms) (currentBlock : Z) : Prop :=
  toSort <= len buffer /\
  forall (k : nat) (b : TxsFroms),
    Z.of_nat k < toSort -> buffer !! k = Some b ->
    blockNumber b = u64 (currentBlock + Z.of_nat k).

(** Everything handed to the spill buffer so far: what reached the file,
    then the accumulator. *)
Definition spill (st : WriterState MemFile) : list byte :=
  data (AddressBuffer.rwc (w_buf st)) ++ AddressBuffer.buf (w_buf st).

(** The flushed results are the blocks [firstBlock], [firstBlock + 1], ... *)
Definition in_order (firstBlock : Z) (flushed : list TxsFroms) : Prop :=
  forall (k : nat) (b : TxsFroms),
    flushed !! k = Some b -> blockNumber b = u64 (firstBlock + Z.of_nat k).

(** The loop invariant: [flushed] is what the loop handed to the spill
    buffer so far, [received] what it took into the reorder buffer. *)
Definition writer_inv (firstBlock : Z) (d0 : list byte) (received : list TxsFroms)
    (st : WriterState MemFile) (flushed : list TxsFroms) : Prop :=
  spill st = d0 ++ bytes_of flushed /\
  in_order firstBlock flushed /\
  (w_isFirst st = true -> flushed = []) /\
  (w_isFirst st = false -> u64 (w_currentBlock st) = u64 (firstBlock + len flushed)) /\
  (exists w : nat, length flushed = (w * Z.to_nat toSort)%nat) /\
  flushed ++ w_buffer st ≡ₚ received.

(** The transaction is replay-protected and its chain ID is not the signer's. *)
Definition chain_mismatch (signer : Signer) (tx : Transaction) : Prop :=
  tx_protected tx = true /\ tx_chainID tx <> signer_ChainID signer.

(** The transaction passes both tests of the loop. *)
Definition recoverable (cryptoContext : Context) (signer : Signer) (tx : Transaction) : Prop :=
  ~ chain_mismatch signer tx /\ snd (SenderWithContext signer cryptoContext tx) = None.

Definition sender_of (cryptoContext : Context) (signer : Signer) (tx : Transaction) : Address :=
  fst (SenderWithContext signer cryptoContext tx).

(** The number of transactions in the [k] blocks from [next] on, up to the
    first one that is absent. *)
Fixpoint txs_ahead {ChainConfig : Type} (MakeSigner : ChainConfig -> Z -> Signer)
    (m : Mutation) (config : ChainConfig) (next : Z) (k : nat) : nat :=
  match k with
  | O => 0
  | S k =>
      match getBlockBody ChainConfig MakeSigner m config next with
      | None => 0
      | Some job =>
          (length (Transactions (job_blockBody job)) +
           txs_ahead MakeSigner m config (u64 (next + 1)) k)%nat
      end
  end.

(** A result received with no error while [quitCh] and [doneCh] are open. *)
Definition plain (ev : Recv) : Prop :=
  err (res ev) = None /\ quit_closed ev = false /\ done_closed ev = false.

(** The block numbers [first], [first + 1], ..., [n] of them. *)
Definition block_range (first : Z) (n : nat) : list Z :=
  (fun i : nat => first + Z.of_nat i) <$> seq 0 n.

(** Every transaction of the body of the job passes both tests. *)
Definition job_recoverable (cryptoContext : Context) (job : senderRecoveryJob) : Prop :=
  Forall (recoverable cryptoContext (job_signer job)) (Transactions (job_blockBody job)).

(** What a recoverer sends for a job: the block number of the job, with
    the sender of every transaction and no error, or with no address and an
    error other than [ErrStopped]. *)
Definition result_for (cryptoContext : Context) (r : TxsFroms) (job : senderRecoveryJob) : Prop :=
  blockNumber r = job_nextBlockNumber job /\
  (job_recoverable cryptoContext job ->
   err r = None /\
   froms r = sender_of cryptoContext (job_signer job) <$> Transactions (job_blockBody job)) /\
  (~ job_recoverable cryptoContext job ->
   (exists e, err r = Some e /\ e <> ErrStopped) /\ froms r = []).

(** The read window seen as [W] slots of one record each, with the index
    at one of them or before the first. *)
Definition window_holds (W : nat) (a : AddressBuffer.t MemFile) (slots : list Address) : Prop :=
  AddressBuffer.buf a = concat slots /\ length slots = W /\ Forall is_address slots /\
  -1 <= AddressBuffer.currentIdx a < Z.of_nat W.

(** The index is before the first slot or at the last one: the next call
    of [Next] refills. *)
Definition at_window_end (W : nat) (a : AddressBuffer.t MemFile) : Prop :=
  AddressBuffer.currentIdx a = -1 \/ AddressBuffer.currentIdx a = Z.of_nat W - 1.

(** A call on a write-mode buffer: [Add] of some bytes, or [Write]. *)
Inductive buffer_call : Type :=
| call_Add (b : list byte)
| call_Write.

(** The calls made one after the other; what a [Write] returns is dropped. *)
Fixpoint run_calls {F : Type} `{ReadWriteCloser F} (calls : list buffer_call)
    (a : AddressBuffer.t F) : AddressBuffer.t F :=
  match calls with
  | [] => a
  | call_Add b :: calls => run_calls calls (AddressBuffer.Add b a)
  | call_Write :: calls => run_calls calls (fst (AddressBuffer.Write a))
  end.

(** What the calls appended, in order. *)
Fixpoint added (calls : list buffer_call) : list (list byte) :=
  match calls with
  | [] => []
  | call_Add b :: calls => b :: added calls
  | call_Write :: calls => added calls
  end.

(** The entry is a block body. *)
Definition is_body_entry (e : entry) : Prop :=
  match e with
  | BodyEntry _ _ _ => True
  | _ => False
  end.



(** Every address of every result is 20 bytes long. *)
Definition whole_addresses (jobs : list TxsFroms) : Prop :=
  Forall (fun j => Forall is_address (froms j)) jobs.

(** What the writer returns when it stops at a result: the error of its
    own variable, nil, for a result that carries an error; [ErrStopped] for
    [quitCh] closed; nil for [doneCh] closed. *)
Definition stop_value (ev : Recv) : option error :=
  match err (res ev) with
  | Some _ => None
  | None => if quit_closed ev then Some ErrStopped else None
  end.

(** ** Example inputs *)

Definition addr_of (b : byte) : Address := repeat b 20.

Definition three_records : MemFile :=
  mkMemFile (addr_of x01 ++ addr_of x02 ++ addr_of x03) 0.

(** A signer for the examples: chain ID 1; the sender is twenty copies of the
    first byte of the hash, and recovery fails when that byte is zero. *)
Definition example_signer : Signer :=
  mkSigner 1 (fun _ tx =>
    match tx_hash tx with
    | b :: _ =>
        if Byte.eqb b x00 then (zeroAddress, Some (ext_error 1)) else (repeat b 20, None)
    | [] => (zeroAddress, Some (ext_error 1))
    end).

Definition example_ctx : Context := 0%nat.

Definition example_tx (b : byte) (protected : bool) (chainID : Z) : Transaction :=
  mkTransaction (repeat b 32) protected chainID None.

Definition example_hash : Hash := repeat x11 32.

Definition example_body : Body :=
  mkBody [example_tx x0a true 1; example_tx x0b true 1].

(** A database that holds block 1, with two transactions, and no block 2;
    the storage layer wants a batch written as soon as it holds one put. *)
Definition one_block_db : Store :=
  mkStore {[1 := example_hash]} {[(1, example_hash) := example_body]} ∅ ∅ 1 None.

Definition example_MakeSigner (config : unit) (blockNumber : Z) : Signer := example_signer.

(** A run of the writer in which a window is released: the results for the
    blocks 5 ... 1007 arrive in descending order, each with one address. *)
Definition descending_results : list Recv :=
  (fun n : nat => mkRecv (mkTxsFroms (5 + Z.of_nat n) [addr_of x01] None) false false)
    <$> rev (seq 0 1003).

(** A database whose progress cursor for the stage is 10. *)
Definition progress_10_db : Store :=
  mkStore ∅ ∅ {[Senders := 10]} {[Senders := 7]} 1 None.

(** The results for the blocks 7, 5 and 6, in this order of arrival, each
    with one address. *)
Definition shuffled_results : list Recv :=
  [mkRecv (mkTxsFroms 7 [addr_of x07] None) false false;
   mkRecv (mkTxsFroms 5 [addr_of x05] None) false false;
   mkRecv (mkTxsFroms 6 [addr_of x06] None) false false].

(** A file system for the examples: the spill file of the second phase
    holds [three_records], and no other file can be opened. *)
Definition example_OpenFile (filePath : string) : MemFile + error :=
  if String.eqb filePath "/mnt/sdb/turbo-geth/froms_13_0_17.out" then inl three_records
  else inr (ext_error 2).

(** A file system in which the spill file of the second phase is empty. *)
Definition empty_OpenFile (filePath : string) : MemFile + error :=
  inl (mkMemFile [] 0).

(** [one_block_db] with a storage layer that wants a batch written only
    when it holds 100 puts. *)
Definition roomy_db : Store :=
  mkStore {[1 := example_hash]} {[(1, example_hash) := example_body]} ∅ ∅ 100 None.

(** Three addresses appended with a flush after the first, one after the
    third, and one more. *)
Definition example_calls : list buffer_call :=
  [call_Add (addr_of x01); call_Write; call_Add (addr_of x02); call_Add (addr_of x03);
   call_Write; call_Write].

(** A body with one transaction, whose sender is twenty copies of [b]. *)
Definition one_tx_body (b : byte) : Body := mkBody [example_tx b true 1].

(** A database that holds the blocks 5, 6 and 7, one transaction each, and
    no block 8. *)
Definition three_block_db : Store :=
  mkStore {[5 := example_hash; 6 := example_hash; 7 := example_hash]}
    {[(5, example_hash) := one_tx_body x05; (6, example_hash) := one_tx_body x06;
      (7, example_hash) := one_tx_body x07]} ∅ ∅ 100 None.

Definition three_jobs : list senderRecoveryJob :=
  [mkJob example_signer (one_tx_body x05) example_hash 5 None;
   mkJob example_signer (one_tx_body x06) example_hash 6 None;
   mkJob example_signer (one_tx_body x07) example_hash 7 None].

(** * Properties *)

(** ** Machine integers *)

Lemma u64_range z : 0 <= u64 z < 2 ^ 64.
Proof. unfold u64. apply Z.mod_pos_bound. lia. Qed.

Lemma u64_small z : 0 <= z < 2 ^ 64 -> u64 z = z.
Proof. intros H. unfold u64. apply Z.mod_small. exact H. Qed.

Lemma u64_add_l a b : u64 (u64 a + b) = u64 (a + b).
Proof. unfold u64. apply Zplus_mod_idemp_l. Qed.

Lemma int64_small z : - 2 ^ 63 <= z <= max_int -> int64 z = z.
Proof.
  intros H. unfold int64, max_int in *.
  rewrite Z.mod_small by lia. lia.
Qed.

(** ** Facts about [AddressBuffer] over any stream *)

Section AddressBufferFacts.
Context {F : Type} `{ReadWriteCloser F}.
Import AddressBuffer.

Lemma Write_empty (a : t F) :
  buf a = [] -> Write a = (a, (0, None)).
Proof. intros E. unfold Write. rewrite E. reflexivity. Qed.

Lemma Write_ok_resets (a a' : t F) (n : Z) :
  Write a = (a', (n, None)) -> buf a' = [].
Proof.
  unfold Write. destruct (0 <? len (buf a)) eqn:E.
  - destruct (rwc_Write (rwc a) (buf a)) as [f [m [e|]]]; intros Hw; inversion Hw; reflexivity.
  - intros Hw. inversion Hw; subst a'.
    apply Z.ltb_ge in E. unfold len in E.
    destruct (buf a); [reflexivity | simpl in E; lia].
Qed.


Lemma Add_buf (b : list byte) (a : t F) : buf (Add b a) = buf a ++ b.
Proof. reflexivity. Qed.

Lemma Add_rwc (b : list byte) (a : t F) : rwc (Add b a) = rwc a.
Proof. reflexivity. Qed.

End AddressBufferFacts.

(** ** Reading a spill file back *)

Lemma length_concat_addresses (l : list Address) :
Forall is_address l -> length (concat l) = (20 * length l)%nat.
Proof.
induction 1 as [|x l Hx _ IH]; simpl; [reflexivity|].
rewrite length_app, IH, Hx. lia.
Qed.

Lemma concat_take_drop (k : nat) (l : list Address) :
concat l = concat (take k l) ++ concat (drop k l).
Proof. rewrite <- concat_app, take_drop. reflexivity. Qed.

Lemma take_concat_addresses (k : nat) (l : list Address) :
Forall is_address l -> take (20 * k) (concat l) = concat (take k l).
Proof.
intros Hl. rewrite (concat_take_drop k l) at 1.
destruct (le_lt_dec k (length l)) as [Hk|Hk].
- rewrite take_app_length'; [reflexivity|].
  rewrite length_concat_addresses by (apply Forall_take; exact Hl).
  rewrite length_take. lia.
- rewrite (drop_ge l k) by lia. simpl. rewrite app_nil_r.
  apply take_ge. rewrite length_concat_addresses by (apply Forall_take; exact Hl).
  rewrite length_take. lia.
Qed.

Section NextCases.
Context {F : Type} `{ReadWriteCloser F}.
Import AddressBuffer.

(** The next record is still in the window: no call reaches the stream. *)
Lemma Next_in_window (a : t F) :
  0 <= currentIdx a -> 20 * (currentIdx a + 2) <= len (buf a) -> len (buf a) <= max_int ->
  Next a = (set_currentIdx (currentIdx a + 1) a,
            (slice (20 * (currentIdx a + 1)) (20 * (currentIdx a + 2)) (buf a), None)).
Proof.
  intros H0 Hin Hmax. unfold Next, max_int in *.
  rewrite (int64_small (currentIdx a + 2)) by (unfold max_int; lia).
  rewrite (int64_small (_ * 20)) by (unfold max_int; lia).
  replace (len (buf a) <? (currentIdx a + 2) * 20) with false by (symmetry; apply Z.ltb_ge; lia).
  replace (currentIdx a =? -1) with false by (symmetry; apply Z.eqb_neq; lia).
  cbn [currentIdx set_currentIdx buf].
  rewrite (int64_small (currentIdx a + 1)) by (unfold max_int; lia).
  rewrite (int64_small (_ * 20)) by (unfold max_int; lia).
  rewrite (int64_small (currentIdx a + 1 + 1)) by (unfold max_int; lia).
  rewrite (int64_small (_ * 20)) by (unfold max_int; lia).
  do 3 f_equal; lia.
Qed.

(** The window is used up (or nothing was read yet): [Next] refills. *)
Lemma Next_refills (a : t F) :
  window_used_up a -> 20 * (currentIdx a + 2) <= max_int ->
  Next a =
    let '(a', (n, err)) := Read (set_currentIdx (-1) a) in after_refill a' n err.
Proof.
  intros Hu Hmax. unfold Next, max_int in *.
  assert (E : (if len (buf a) <? int64 (int64 (currentIdx a + 2) * 20)
               then set_currentIdx (-1) a else a) = set_currentIdx (-1) a).
  { destruct Hu as [Hm|[H0 Hlt]].
    - destruct (_ <? _); [reflexivity|]. destruct a; simpl in *; subst; reflexivity.
    - rewrite (int64_small (currentIdx a + 2)) by (unfold max_int; lia).
      rewrite (int64_small (_ * 20)) by (unfold max_int; lia).
      replace (len (buf a) <? (currentIdx a + 2) * 20) with true
        by (symmetry; apply Z.ltb_lt; lia).
      reflexivity. }
  rewrite E. cbn [currentIdx set_currentIdx]. rewrite Z.eqb_refl.
  destruct (Read (set_currentIdx (-1) a)) as [a' [n err]] eqn:ER.
  assert (Hidx : currentIdx a' = -1).
  { unfold Read in ER. cbn [buf rwc set_currentIdx] in ER.
    destruct (rwc_Read (rwc a) (length (buf a))) as [f [bs e]].
    inversion ER; reflexivity. }
  unfold after_refill. destruct err as [e|]; [reflexivity|].
  destruct (negb (Z.rem n AddressLength =? 0)); [reflexivity|].
  destruct (n =? 0); [reflexivity|].
  rewrite Hidx. cbn [currentIdx set_currentIdx buf]. reflexivity.
Qed.

End NextCases.

Lemma length_slice (lo hi : Z) (s : list byte) :
  0 <= lo <= hi -> hi <= len s -> length (slice lo hi s) = Z.to_nat (hi - lo).
Proof.
  intros H1 H2. unfold slice, len in *. rewrite length_take, length_drop. lia.
Qed.

Lemma Read_length {F : Type} `{ReadWriteCloser F} (a : AddressBuffer.t F) :
  length (AddressBuffer.buf (fst (AddressBuffer.Read a))) = length (AddressBuffer.buf a) /\
  AddressBuffer.currentIdx (fst (AddressBuffer.Read a)) = AddressBuffer.currentIdx a /\
  0 <= fst (snd (AddressBuffer.Read a)) <= len (AddressBuffer.buf a).
Proof.
  unfold AddressBuffer.Read.
  destruct (rwc_Read (AddressBuffer.rwc a) (length (AddressBuffer.buf a))) as [f [bs e]].
  cbn [fst snd AddressBuffer.buf AddressBuffer.currentIdx AddressBuffer.set_rwc
       AddressBuffer.set_buf].
  unfold len. rewrite length_app, length_drop, length_take. lia.
Qed.

(** X2: [Next] never slices outside the window. On a buffer as
    [NewAddressBuffer] makes it in read mode, or as [Next] left it, [Next]
    keeps the window a whole number of records and the index inside it, and
    an address it returns with no error is the whole record of the window at
    the new index. *)
Theorem Next_stays_in_the_window {F : Type} `{ReadWriteCloser F} (a : AddressBuffer.t F) :
  window_ok a ->
  window_ok (fst (AddressBuffer.Next a)) /\
  (snd (snd (AddressBuffer.Next a)) = None ->
   0 <= AddressBuffer.currentIdx (fst (AddressBuffer.Next a)) /\
   length (fst (snd (AddressBuffer.Next a))) = 20%nat /\
   fst (snd (AddressBuffer.Next a)) =
     slice (20 * AddressBuffer.currentIdx (fst (AddressBuffer.Next a)))
       (20 * (AddressBuffer.currentIdx (fst (AddressBuffer.Next a)) + 1))
       (AddressBuffer.buf (fst (AddressBuffer.Next a)))).
Proof.
  intros (Hidx & Hin & [W HW] & Hmax). unfold max_int in Hmax.
  assert (Hcase : window_used_up a \/
                  (0 <= AddressBuffer.currentIdx a /\
                   20 * (AddressBuffer.currentIdx a + 2) <= len (AddressBuffer.buf a))).
  { unfold window_used_up. lia. }
  destruct Hcase as [Hout|[H0 Hfit]].
  - (* refill *)
    rewrite Next_refills; cycle 1.
    { exact Hout. }
    { unfold max_int. lia. }
    pose proof (Read_length (AddressBuffer.set_currentIdx (-1) a)) as (Hl & Hi & Hn).
    destruct (AddressBuffer.Read (AddressBuffer.set_currentIdx (-1) a)) as [a' [n e]].
    cbn [fst snd AddressBuffer.buf AddressBuffer.currentIdx AddressBuffer.set_currentIdx]
      in Hl, Hi, Hn.
    assert (Hok' : window_ok a').
    { unfold window_ok, len in *. rewrite Hl, Hi.
      split; [lia|]. split; [lia|]. split; [exists W; exact HW|unfold max_int; lia]. }
    unfold after_refill. destruct e as [e|]; [split; [exact Hok'|discriminate]|].
    destruct (negb (Z.rem n AddressLength =? 0)); [split; [exact Hok'|discriminate]|].
    destruct (n =? 0) eqn:En; [split; [exact Hok'|discriminate]|].
    apply Z.eqb_neq in En. cbn [fst snd AddressBuffer.currentIdx AddressBuffer.buf
                                 AddressBuffer.set_currentIdx].
    assert (H20 : 20 <= len (AddressBuffer.buf a')) by (unfold len in *; lia).
    split.
    + unfold window_ok, len in *.
      cbn [AddressBuffer.currentIdx AddressBuffer.buf AddressBuffer.set_currentIdx].
      rewrite Hl. split; [lia|]. split; [lia|]. split; [exists W; exact HW|unfold max_int; lia].
    + intros _. split; [lia|]. split; [|reflexivity].
      rewrite length_slice by lia. reflexivity.
  - (* the next record is in the window *)
    rewrite Next_in_window by (unfold max_int; lia).
    cbn [fst snd AddressBuffer.currentIdx AddressBuffer.buf AddressBuffer.set_currentIdx].
    split.
    + unfold window_ok.
      cbn [AddressBuffer.currentIdx AddressBuffer.buf AddressBuffer.set_currentIdx].
      unfold len in *.
      split; [lia|]. split; [lia|]. split; [exists W; exact HW|unfold max_int; lia].
    + intros _. split; [lia|]. split.
      * rewrite length_slice by lia. lia.
      * f_equal. lia.
Qed.

Lemma slice_at (P x Q : list byte) (lo hi : Z) :
Z.of_nat (length P) = lo -> hi = lo + Z.of_nat (length x) ->
slice lo hi (P ++ x ++ Q) = x.
Proof.
intros HP Hx. unfold slice.
replace (Z.to_nat lo) with (length P) by lia.
rewrite drop_app_length.
replace (Z.to_nat (hi - lo)) with (length x) by lia.
apply take_app_length.
Qed.

Lemma MemFile_Read_chunk (f : MemFile) (k : nat) :
(0 < k)%nat -> take k (drop (offset f) (data f)) <> [] ->
MemFile_Read f k =
  (mkMemFile (data f) (offset f + length (take k (drop (offset f) (data f)))),
   (take k (drop (offset f) (data f)), None)).
Proof.
intros Hk Hne. unfold MemFile_Read. destruct k as [|k]; [lia|].
destruct (take (S k) (drop (offset f) (data f))); [contradiction|reflexivity].
Qed.

Lemma MemFile_Read_EOF (f : MemFile) (k : nat) :
(0 < k)%nat -> (length (data f) <= offset f)%nat ->
MemFile_Read f k = (f, ([], Some io_EOF)).
Proof.
intros Hk Hoff. unfold MemFile_Read. destruct k as [|k]; [lia|].
rewrite drop_ge by exact Hoff. reflexivity.
Qed.

Section ReadBack.
Import AddressBuffer.

(** [W] is the number of records the read window holds. *)
Variable W : nat.
Hypothesis W_pos : (0 < W)%nat.
Hypothesis W_fits : 20 * Z.of_nat W + 20 <= max_int.

Lemma Next_reads (a : t MemFile) (x : Address) (rest : list Address) :
  reads W a (x :: rest) ->
  exists a', Next a = (a', (x, None)) /\ reads W a' rest.
Proof using W_pos W_fits.
  intros (P & stale & wr & fr & Hlen & Hall & Hbuf & HP & Hrest & Hfile & Hcase).
  assert (Hx : length x = 20%nat) by (inversion Hall; assumption).
  assert (Hall' : Forall is_address rest) by (inversion Hall; assumption).
  assert (Hblen : len (buf a) = 20 * Z.of_nat W) by (unfold len; lia).
  assert (HPle : (length P <= length (buf a))%nat) by (rewrite Hbuf, length_app; lia).
  destruct wr as [|y wr'].
  - (* the window is used up: refill *)
    simpl in Hrest. subst fr.
    rewrite Next_refills; cycle 1.
    { destruct Hcase as [[Hm _]|[Hge [Hs|Hf]]]; [left; exact Hm| |discriminate].
      right. split; [exact Hge|]. subst stale. simpl in Hbuf. rewrite app_nil_r in Hbuf.
      unfold len. rewrite Hbuf. lia. }
    { lia. }
    unfold Read. cbn [buf rwc set_currentIdx rwc_Read MemFile_rwc].
    assert (Htake : take (length (buf a)) (drop (offset (rwc a)) (data (rwc a)))
                    = x ++ concat (take (W - 1) rest)).
    { rewrite Hfile, Hlen, take_concat_addresses by exact Hall.
      replace W with (S (W - 1)) at 1 by lia. reflexivity. }
    rewrite MemFile_Read_chunk; cycle 1.
    { lia. }
    { rewrite Htake. intros E. apply (f_equal length) in E.
      rewrite length_app, Hx in E. simpl in E. lia. }
    rewrite Htake.
    set (W' := (W - 1)%nat) in *.
    assert (HW : W = S W') by (unfold W'; lia).
    set (chunk := x ++ concat (take W' rest)).
    assert (Hchunk : length chunk = (20 * S (length (take W' rest)))%nat).
    { unfold chunk.
      rewrite length_app, Hx, length_concat_addresses by (apply Forall_take; exact Hall').
      lia. }
    assert (Hcl : (length chunk <= 20 * S W')%nat) by (rewrite Hchunk, length_take; lia).
    rewrite (take_ge chunk) by lia.
    cbn [fst snd]. unfold after_refill.
    replace (negb (Z.rem (len chunk) AddressLength =? 0)) with false; cycle 1.
    { symmetry. apply negb_false_iff, Z.eqb_eq. unfold len, AddressLength. rewrite Hchunk.
      rewrite Nat2Z.inj_mul. rewrite Z.mul_comm. apply Z.rem_mul. lia. }
    replace (len chunk =? 0) with false by (symmetry; apply Z.eqb_neq; unfold len; lia).
    eexists. split.
    + f_equal. f_equal. cbn [buf set_rwc set_buf set_currentIdx].
      unfold chunk. rewrite <- !app_assoc. apply (slice_at [] x); simpl; lia.
    + exists x, (drop (length chunk) (buf a)), (take W' rest), (drop W' rest).
      cbn [buf set_rwc set_buf set_currentIdx currentIdx rwc offset data].
      repeat split.
      * rewrite length_app, length_drop. lia.
      * exact Hall'.
      * unfold chunk. rewrite <- !app_assoc. reflexivity.
      * lia.
      * symmetry. apply take_drop.
      * rewrite <- drop_drop, Hfile. cbn [concat]. unfold chunk.
        rewrite (concat_take_drop W' rest) at 1. rewrite app_assoc.
        apply drop_app_length.
      * right. split; [lia|].
        destruct (le_lt_dec W' (length rest)) as [Hk|Hk].
        -- left. apply drop_ge. rewrite Hchunk, length_take. lia.
        -- right. apply drop_ge. lia.
  - (* the next record is in the window *)
    simpl in Hrest. inversion Hrest; subst y rest. clear Hrest.
    assert (Hidx : 0 <= currentIdx a).
    { destruct Hcase as [[_ ?]|[? _]]; [discriminate|assumption]. }
    assert (Hin : 20 * (currentIdx a + 2) <= len (buf a)).
    { unfold len. rewrite Hbuf. cbn [concat]. rewrite !length_app. lia. }
    rewrite Next_in_window by lia.
    eexists. split.
    + f_equal. f_equal. rewrite Hbuf. cbn [concat]. rewrite <- !app_assoc.
      apply slice_at; lia.
    + exists (P ++ x), stale, wr', fr.
      cbn [buf set_currentIdx currentIdx rwc].
      repeat split; try assumption.
      * rewrite Hbuf. cbn [concat]. rewrite <- !app_assoc. reflexivity.
      * rewrite length_app. lia.
      * right. split; [lia|]. destruct Hcase as [[_ ?]|[_ ?]]; [discriminate|assumption].
Qed.

Lemma Next_n_reads (addrs : list Address) (a : t MemFile) :
  reads W a addrs ->
  snd (Next_n (length addrs) a) = map (fun x => (x, None)) addrs.
Proof using W_pos W_fits.
  revert a. induction addrs as [|x rest IH]; intros a Hr; [reflexivity|].
  destruct (Next_reads a x rest Hr) as (a' & HN & Hr').
  cbn [length Next_n map]. rewrite HN.
  specialize (IH a' Hr').
  destruct (Next_n (length rest) a') as [a'' rs]. simpl in *. rewrite IH. reflexivity.
Qed.

End ReadBack.

(** A read-mode buffer as [NewAddressBuffer] makes it, over a file of whole
    records read from its start. *)
Lemma fresh_reader_reads (rsize : Z) (rest : list Address) (r : AddressBuffer.t MemFile) :
  0 < rsize -> 20 * rsize + 20 <= max_int -> Forall is_address rest ->
  AddressBuffer.NewAddressBuffer (mkMemFile (concat rest) 0) rsize false = Some r ->
  reads (Z.to_nat rsize) r rest.
Proof.
  intros Hpos Hfit Hall Hr.
  unfold AddressBuffer.NewAddressBuffer, AddressLength, max_int in *.
  rewrite int64_small in Hr by (unfold max_int; lia).
  replace (rsize * 20 <? 0) with false in Hr by (symmetry; apply Z.ltb_ge; lia).
  inversion Hr; subst r; clear Hr.
  exists [], (repeat x00 (Z.to_nat (rsize * 20))), [], rest.
  cbn [AddressBuffer.buf AddressBuffer.rwc AddressBuffer.currentIdx offset data concat app
       drop length].
  repeat split; try assumption; try reflexivity.
  - rewrite repeat_length. lia.
  - left. split; reflexivity.
Qed.

(** ** The reorder-and-spill writer *)

Lemma bytes_of_app (l1 l2 : list TxsFroms) :
  bytes_of (l1 ++ l2) = bytes_of l1 ++ bytes_of l2.
Proof. unfold bytes_of. rewrite flat_map_app, concat_app. reflexivity. Qed.

Lemma bytes_of_cons (j : TxsFroms) (l : list TxsFroms) :
  bytes_of (j :: l) = concat (froms j) ++ bytes_of l.
Proof. unfold bytes_of. simpl. rewrite concat_app. reflexivity. Qed.

Lemma insert_stable_perm (x : TxsFroms) (l : list TxsFroms) :
  insert_stable x l ≡ₚ x :: l.
Proof.
  induction l as [|y l IH]; simpl; [reflexivity|].
  destruct (blockNumber y <? blockNumber x); [|reflexivity].
  rewrite IH. apply Permutation_swap.
Qed.

Lemma SliceStable_perm (l : list TxsFroms) : SliceStable l ≡ₚ l.
Proof.
  induction l as [|x l IH]; simpl; [reflexivity|].
  rewrite insert_stable_perm, IH. reflexivity.
Qed.

Lemma insert_stable_sorted (x : TxsFroms) (l : list TxsFroms) :
  Sorted (fun a b => blockNumber a <= blockNumber b) l ->
  Sorted (fun a b => blockNumber a <= blockNumber b) (insert_stable x l).
Proof.
  induction 1 as [|y l Hs IH Hhd]; simpl.
  - repeat constructor.
  - destruct (blockNumber y <? blockNumber x) eqn:E.
    + apply Z.ltb_lt in E. constructor; [exact IH|].
      destruct l as [|z l]; simpl.
      * constructor. lia.
      * destruct (blockNumber z <? blockNumber x); constructor; [|lia].
        inversion Hhd; assumption.
    + apply Z.ltb_ge in E. repeat constructor; assumption.
Qed.

Lemma SliceStable_sorted (l : list TxsFroms) :
  Sorted (fun a b => blockNumber a <= blockNumber b) (SliceStable l).
Proof.
  induction l as [|x l IH]; simpl; [constructor|].
  apply insert_stable_sorted, IH.
Qed.

Lemma insert_stable_filter (n : Z) (x : TxsFroms) (l : list TxsFroms) :
  filter (fun y => blockNumber y = n) (insert_stable x l) =
  filter (fun y => blockNumber y = n) (x :: l).
Proof.
  induction l as [|y l IH]; [reflexivity|]. cbn [insert_stable].
  destruct (blockNumber y <? blockNumber x) eqn:E; [|reflexivity].
  apply Z.ltb_lt in E. rewrite filter_cons, IH, !filter_cons.
  repeat case_decide; try reflexivity; lia.
Qed.

(** The sort is stable: the results of one block keep their order. *)
Lemma SliceStable_stable (n : Z) (l : list TxsFroms) :
  filter (fun y => blockNumber y = n) (SliceStable l) =
  filter (fun y => blockNumber y = n) l.
Proof.
  induction l as [|x l IH]; [reflexivity|]. cbn [SliceStable foldr].
  fold (SliceStable l). rewrite insert_stable_filter, !filter_cons, IH. reflexivity.
Qed.

Lemma checkRow_spec (cur : Z) (buffer : list TxsFroms) (i : Z) :
  checkRow cur i buffer = true ->
  forall (k : nat) (b : TxsFroms),
    i + Z.of_nat k <= toSort -> buffer !! k = Some b ->
    blockNumber b = u64 (cur + (i + Z.of_nat k)).
Proof.
  revert i. induction buffer as [|y l IH]; intros i Hc k b Hk Hl; [discriminate|].
  simpl in Hc. destruct (toSort <? i) eqn:Ei.
  { apply Z.ltb_lt in Ei. lia. }
  destruct (blockNumber y =? u64 (cur + i)) eqn:Ey; simpl in Hc; [|discriminate].
  apply Z.eqb_eq in Ey. destruct k as [|k]; simpl in Hl.
  - inversion Hl; subst b. rewrite Ey. f_equal. lia.
  - rewrite (IH (i + 1) Hc k b) by (lia || assumption). f_equal. lia.
Qed.

Lemma hasRow_run_present (buffer : list TxsFroms) (cur : Z) :
  hasRow buffer cur = true -> run_present buffer cur.
Proof.
  unfold hasRow, run_present. destruct (len buffer <? toSort) eqn:E; [discriminate|].
  apply Z.ltb_ge in E. intros Hc. split; [exact E|].
  intros k b Hk Hl. rewrite (checkRow_spec cur buffer 0 Hc k b) by (lia || assumption).
  f_equal.
Qed.

Section SpillToMemFile.
Import AddressBuffer.

Lemma MemFile_Write_ok (a : t MemFile) :
  exists a' n, Write a = (a', (n, None)) /\ buf a' = [] /\ size a' = size a /\
               data (rwc a') = data (rwc a) ++ buf a.
Proof.
  unfold Write. destruct (0 <? len (buf a)) eqn:E.
  - simpl. eexists _, _. split; [reflexivity|]. simpl. repeat split; auto.
  - exists a, 0. split; [reflexivity|].
    apply Z.ltb_ge in E. unfold len in E.
    destruct (buf a) eqn:Eb; [|simpl in E; lia].
    rewrite app_nil_r. repeat split; auto.
Qed.

Lemma addFroms_spill (fs : list Address) (st : WriterState MemFile) :
  exists st', addFroms fs st = (st', None) /\
    spill st' = spill st ++ concat fs /\
    w_buffer st' = w_buffer st /\ w_currentBlock st' = w_currentBlock st /\
    w_isFirst st' = w_isFirst st /\ size (w_buf st') = size (w_buf st).
Proof.
  revert st. induction fs as [|x fs IH]; intros st.
  - exists st. simpl. rewrite app_nil_r. repeat split; auto.
  - cbn [addFroms concat].
    destruct (size (Add x (w_buf st)) <=? int64 (20 * int64 (w_n st + 1))).
    + destruct (MemFile_Write_ok (Add x (w_buf st))) as (a' & n & HW & Hb & Hs & Hd).
      rewrite HW.
      edestruct IH as (st' & -> & Hsp & ? & ? & ? & Hsz). exists st'.
      split; [reflexivity|]. cbn [w_buffer w_currentBlock w_isFirst w_buf] in *.
      repeat split; try assumption; [|rewrite Hsz, Hs; reflexivity].
      rewrite Hsp. unfold spill. cbn [w_buf]. rewrite Hb, Hd, app_nil_r.
      cbn [buf Add set_buf]. rewrite <- !app_assoc. reflexivity.
    + edestruct IH as (st' & -> & Hsp & ? & ? & ? & Hsz). exists st'.
      split; [reflexivity|]. cbn [w_buffer w_currentBlock w_isFirst w_buf] in *.
      repeat split; try assumption.
      rewrite Hsp. unfold spill. cbn [w_buf buf rwc Add set_buf].
      rewrite <- !app_assoc. reflexivity.
Qed.

Lemma writeJobs_spill (jobs : list TxsFroms) (st : WriterState MemFile) :
  exists st', writeJobs jobs st = (st', None) /\
    spill st' = spill st ++ bytes_of jobs /\
    w_buffer st' = w_buffer st /\ w_currentBlock st' = w_currentBlock st /\
    w_isFirst st' = w_isFirst st.
Proof.
  revert st. induction jobs as [|j jobs IH]; intros st.
  - exists st. unfold bytes_of. simpl. rewrite app_nil_r. repeat split; auto.
  - cbn [writeJobs]. rewrite bytes_of_cons.
    edestruct addFroms_spill as (st1 & -> & Hsp1 & Hb1 & Hc1 & Hf1 & _).
    destruct (IH st1) as (st' & -> & Hsp & Hb & Hc & Hf). exists st'.
    split; [reflexivity|]. cbn [w_buffer w_currentBlock w_isFirst] in *.
    repeat split; try congruence.
    rewrite Hsp, Hsp1. unfold spill. cbn [w_buf]. rewrite <- !app_assoc. reflexivity.
Qed.

Lemma foldl_Add_buf (fs : list Address) (a : t MemFile) :
  buf (foldl (fun b from => Add from b) a fs) = buf a ++ concat fs /\
  rwc (foldl (fun b from => Add from b) a fs) = rwc a.
Proof.
  revert a. induction fs as [|x fs IH]; intros a; simpl.
  - rewrite app_nil_r. repeat split; auto.
  - destruct (IH (Add x a)) as [-> ->]. cbn [buf rwc Add set_buf].
    rewrite <- app_assoc. repeat split; auto.
Qed.

Lemma storeLast_spill (jobs : list TxsFroms) (st : WriterState MemFile) :
  exists st', storeLast jobs st = (st', None) /\
    spill st' = spill st ++ bytes_of jobs /\ w_buffer st' = w_buffer st.
Proof.
  revert st. induction jobs as [|j jobs IH]; intros st.
  - exists st. unfold bytes_of. simpl. rewrite app_nil_r. repeat split; auto.
  - cbn [storeLast]. rewrite bytes_of_cons.
    destruct (MemFile_Write_ok (foldl (fun b from => Add from b) (w_buf st) (froms j)))
      as (a' & n & HW & Hb & Hs & Hd).
    rewrite HW.
    cbn [w_n w_buffer w_total w_totalFroms w_written w_err w_isFirst w_currentBlock w_buf].
    edestruct IH as (st' & -> & Hsp & Hbuf). exists st'.
    split; [reflexivity|]. cbn [w_buffer] in Hbuf. split; [|exact Hbuf].
    rewrite Hsp. unfold spill. cbn [w_buf]. rewrite Hb, Hd, app_nil_r.
    destruct (foldl_Add_buf (froms j) (w_buf st)) as [-> ->].
    rewrite <- !app_assoc. reflexivity.
Qed.

Lemma toSort_pos : 0 < toSort.
Proof. reflexivity. Qed.

Lemma in_order_fmap (firstBlock : Z) (flushed : list TxsFroms) :
  in_order firstBlock flushed ->
  blockNumber <$> flushed =
    (fun i : nat => u64 (firstBlock + Z.of_nat i)) <$> seq 0 (length flushed).
Proof.
  intros Hio. apply list_eq. intros k.
  rewrite !list_lookup_fmap.
  destruct (flushed !! k) as [b|] eqn:E.
  - rewrite (lookup_seq_lt 0 (length flushed) k) by (eapply lookup_lt_Some; exact E).
    simpl. f_equal. apply Hio. exact E.
  - rewrite lookup_seq_ge by (apply lookup_ge_None; exact E). reflexivity.
Qed.

Lemma writer_step_inv (firstBlock : Z) (d0 : list byte) (received : list TxsFroms)
    (st : WriterState MemFile) (flushed : list TxsFroms) (ev : Recv) :
  writer_inv firstBlock d0 received st flushed ->
  exists st' k flushed',
    writer_step firstBlock st ev = (st', k) /\
    writer_inv firstBlock d0
      (match k with Some _ => received | None => received ++ [res ev] end) st' flushed'.
Proof.
  intros Hinv.
  pose proof toSort_pos as HT.
  unfold writer_step.
  set (st1 := if w_isFirst st then _ else st).
  assert (H1 : writer_inv firstBlock d0 received st1 flushed /\ w_isFirst st1 = false).
  { unfold st1. destruct (w_isFirst st) eqn:Ef.
    - split; [|reflexivity].
      destruct Hinv as (Hsp & Hio & Hfirst & Hcur & Hdiv & Hperm).
      rewrite (Hfirst Ef) in *.
      split; [exact Hsp|]. split; [exact Hio|]. split; [reflexivity|].
      split; [|split; assumption].
      intros _. cbn [w_currentBlock]. f_equal. unfold len. simpl. lia.
    - split; [exact Hinv|exact Ef]. }
  clearbody st1. clear Hinv.
  destruct H1 as [(Hsp & Hio & Hfirst & Hcur & Hdiv & Hperm) Hnf].
  specialize (Hcur Hnf).
  destruct (err (res ev)) as [e|] eqn:Ee.
  { exists st1, (Some (w_err st1)), flushed. split; [reflexivity|].
    repeat split; try assumption. intros _. exact Hcur. }
  destruct (quit_closed ev).
  { exists st1, (Some (Some ErrStopped)), flushed. split; [reflexivity|].
    repeat split; try assumption. intros _. exact Hcur. }
  destruct (done_closed ev).
  { exists st1, (Some None), flushed. split; [reflexivity|].
    repeat split; try assumption. intros _. exact Hcur. }
  set (buffer := SliceStable (w_buffer st1 ++ [res ev])).
  assert (Hpb : flushed ++ buffer ≡ₚ received ++ [res ev]).
  { unfold buffer. rewrite SliceStable_perm, app_assoc, Hperm. reflexivity. }
  destruct (hasRow buffer (w_currentBlock st1)) eqn:Erow; cbn [negb].
  - (* a full row: flush it *)
    apply hasRow_run_present in Erow. destruct Erow as [Hlen Hrun].
    edestruct (writeJobs_spill (take (Z.to_nat toSort) buffer))
      as (st' & -> & Hsp' & Hb' & Hc' & Hf').
    cbn [w_buffer w_currentBlock w_isFirst] in *.
    assert (Hlt : length (take (Z.to_nat toSort) buffer) = Z.to_nat toSort).
    { rewrite length_take. unfold len in Hlen. lia. }
    exists st', None, (flushed ++ take (Z.to_nat toSort) buffer).
    split; [reflexivity|]. repeat split.
    + rewrite Hsp', bytes_of_app, app_assoc. f_equal. exact Hsp.
    + intros k b Hk. destruct (decide (k < length flushed)%nat) as [Hin|Hout].
      * rewrite lookup_app_l in Hk by exact Hin. apply Hio. exact Hk.
      * rewrite lookup_app_r in Hk by lia.
        assert (Hk' : (k - length flushed < Z.to_nat toSort)%nat).
        { rewrite <- Hlt. eapply lookup_lt_Some. exact Hk. }
        rewrite lookup_take_lt in Hk by exact Hk'.
        assert (Hkz : Z.of_nat (k - length flushed) < toSort) by lia.
        rewrite (Hrun _ _ Hkz Hk).
        rewrite <- u64_add_l, Hcur, u64_add_l. f_equal. unfold len. lia.
    + rewrite Hf', Hnf. discriminate.
    + intros _. rewrite Hc'. unfold u64 at 1 2. rewrite Z.mod_mod by lia.
      fold (u64 (w_currentBlock st1 + toSort)).
      rewrite <- u64_add_l, Hcur, u64_add_l. f_equal.
      unfold len. rewrite length_app, Hlt. lia.
    + destruct Hdiv as [w Hw]. exists (S w). rewrite length_app, Hlt, Hw. lia.
    + rewrite Hb', <- app_assoc, take_drop. exact Hpb.
  - exists (mkWriterState (w_n st1) buffer (w_total st1) (w_totalFroms st1) (w_written st1)
              (w_err st1) (w_isFirst st1) (w_currentBlock st1) (w_buf st1)), None, flushed.
    split; [reflexivity|]. repeat split; try assumption.
    cbn [w_isFirst]. intros _. exact Hcur.
Qed.

Lemma writer_loop_inv (firstBlock : Z) (d0 : list byte) (evs : list Recv) :
  forall (received : list TxsFroms) (st : WriterState MemFile) (flushed : list TxsFroms),
    writer_inv firstBlock d0 received st flushed ->
    exists (flushed' : list TxsFroms) (k : nat),
      writer_inv firstBlock d0 (received ++ (res <$> take k evs))
        (fst (writer_loop firstBlock evs st)) flushed'.
Proof.
  induction evs as [|ev evs IH]; intros received st flushed Hinv.
  - exists flushed, 0%nat. simpl. rewrite app_nil_r. exact Hinv.
  - destruct (writer_step_inv firstBlock d0 received st flushed ev Hinv)
      as (st' & k & flushed' & Hstep & Hinv').
    cbn [writer_loop]. rewrite Hstep. destruct k as [r|].
    + exists flushed', 0%nat. simpl. rewrite app_nil_r. exact Hinv'.
    + destruct (IH _ _ _ Hinv') as (fl & k & Hfl).
      exists fl, (S k). cbn [take fmap list_fmap]. rewrite <- app_assoc in Hfl. exact Hfl.
Qed.

Lemma writer_deferred_MemFile (st : WriterState MemFile) (r : option error) :
  exists st', writer_deferred st r = (st', Returned r) /\
    data (rwc (w_buf st')) = spill st ++ bytes_of (SliceStable (w_buffer st)) /\
    buf (w_buf st') = [].
Proof.
  unfold writer_deferred.
  edestruct (storeLast_spill (SliceStable (w_buffer st))) as (st1 & -> & Hsp & _).
  destruct (MemFile_Write_ok (w_buf st1)) as (a' & n & -> & Hb & _ & Hd).
  eexists. split; [reflexivity|]. cbn [w_buf]. split; [|exact Hb].
  rewrite Hd. exact Hsp.
Qed.

End SpillToMemFile.

(** ** The spill buffer: flush, round trip and the end of the stream *)

Section SpillBufferProperties.
Import AddressBuffer.

(** C10: [Write] on an empty accumulator returns [(0, nil)] and leaves the
    buffer and its stream as they were, so no [Write] call reaches the
    stream (on a stream that counts them the count stays); after a
    successful [Write] of a non-empty accumulator the accumulator is empty,
    and the [Write] that follows at once returns [(0, nil)] and changes
    nothing. *)
Theorem Write_flush_is_idempotent :
  forall (F : Type) (RWC : ReadWriteCloser F),
    (forall a : t F, buf a = [] -> Write a = (a, (0, None))) /\
    (forall c : t (Counted F), buf c = [] ->
       write_calls (rwc (fst (Write c))) = write_calls (rwc c)) /\
    (forall (a a' : t F) (n : Z), buf a <> [] -> Write a = (a', (n, None)) ->
       buf a' = [] /\ Write a' = (a', (0, None))).
Proof.
  intros F RWC. split; [|split].
  - intros a Ha. apply Write_empty. exact Ha.
  - intros c Hc. rewrite (Write_empty c Hc). reflexivity.
  - intros a a' n _ Hw. pose proof (Write_ok_resets a a' n Hw) as Hb.
    split; [exact Hb|]. apply Write_empty. exact Hb.
Qed.

Lemma Write_flush_is_idempotent_witness :
  Write (mk [] 4 (-1) (mkCounted three_records 0)) =
    (mk [] 4 (-1) (mkCounted three_records 0), (0, None)) /\
  write_calls (rwc (fst (Write (mk [] 4 (-1) (mkCounted three_records 0))))) = 0%nat /\
  (buf (mk [] 4 (-1) (mkMemFile (data three_records ++ addr_of x04) 0)) = [] /\
   Write (mk [] 4 (-1) (mkMemFile (data three_records ++ addr_of x04) 0)) =
     (mk [] 4 (-1) (mkMemFile (data three_records ++ addr_of x04) 0), (0, None))).
Proof.
  split; [|split].
  - apply (proj1 (Write_flush_is_idempotent (Counted MemFile) _)). reflexivity.
  - apply (proj1 (proj2 (Write_flush_is_idempotent MemFile _))
             (mk [] 4 (-1) (mkCounted three_records 0))). reflexivity.
  - apply (proj2 (proj2 (Write_flush_is_idempotent MemFile _))
             (mk (addr_of x04) 4 (-1) three_records) _ 20).
    + discriminate.
    + reflexivity.
Defined.

(** C1: the addresses appended with [Add] to a write-mode buffer over a new
    file and flushed with [Write] come back, in the same order and with no
    error, from as many calls of [Next] on a read-mode buffer over the
    file opened again; the read window holds at least one record and its
    length in bytes is an [int]. *)
Theorem spill_round_trip (addrs : list Address) (wsize rsize : Z) (w r : t MemFile) :
  Forall is_address addrs ->
  NewAddressBuffer (mkMemFile [] 0) wsize true = Some w ->
  NewAddressBuffer (reopen (rwc (fst (Write (foldl (fun b x => Add x b) w addrs)))))
    rsize false = Some r ->
  0 < rsize -> 20 * rsize + 20 <= max_int ->
  snd (Next_n (length addrs) r) = (fun x => (x, None)) <$> addrs.
Proof.
  intros Hall Hw Hr Hpos Hfit.
  unfold NewAddressBuffer in Hw.
  destruct (int64 (wsize * AddressLength) <? 0); [discriminate|].
  inversion Hw; subst w; clear Hw.
  destruct (foldl_Add_buf addrs (mk [] wsize (-1) (mkMemFile [] 0))) as [Hb Hf].
  destruct (MemFile_Write_ok (foldl (fun b x => Add x b) (mk [] wsize (-1) (mkMemFile [] 0)) addrs))
    as (a' & n & HW & _ & _ & Hd).
  rewrite HW in Hr. cbn [fst] in Hr. unfold reopen in Hr. rewrite Hd, Hf, Hb in Hr.
  cbn [data buf app] in Hr.
  apply (Next_n_reads (Z.to_nat rsize)); [lia|unfold max_int in *; lia|].
  apply fresh_reader_reads; assumption.
Qed.

Lemma spill_round_trip_witness :
  snd (Next_n 3 (mk (repeat x00 40) 2 (-1) three_records)) =
    [(addr_of x01, None); (addr_of x02, None); (addr_of x03, None)].
Proof.
  apply (spill_round_trip [addr_of x01; addr_of x02; addr_of x03] 4 2
           (mk [] 4 (-1) (mkMemFile [] 0))).
  - repeat constructor.
  - reflexivity.
  - reflexivity.
  - lia.
  - unfold max_int. lia.
Defined.

(** A read window of no record at all returns nothing: [Next] reports
    [io.EOF] although the file holds records. *)
Example Next_with_an_empty_window :
  NewAddressBuffer three_records 0 false = Some (mk [] 0 (-1) three_records) /\
  snd (Next (mk [] 0 (-1) three_records)) = (zeroAddress, Some io_EOF).
Proof. split; reflexivity. Qed.

(** A file that does not end on a record boundary: the refill that meets the
    partial record fails, and so does every call after it. *)
Example Next_on_a_partial_record :
  snd (Next_n 3 (mk (repeat x00 40) 2 (-1) (mkMemFile (data three_records ++ [x07; x07]) 0))) =
    [(addr_of x01, None); (addr_of x02, None);
     (zeroAddress, Some (errors_New "got invalid address length"))].
Proof. vm_compute. reflexivity. Qed.

(** A stream that fails: [Write] returns its error and keeps the accumulator,
    and [Next] returns its error. *)
Example Write_and_Next_on_a_broken_stream :
  Write (mk (addr_of x01) 4 (-1) (mkBroken (ext_error 9))) =
    (mk (addr_of x01) 4 (-1) (mkBroken (ext_error 9)), (0, Some (ext_error 9))) /\
  snd (Next (mk (repeat x00 40) 2 (-1) (mkBroken (ext_error 9)))) =
    (zeroAddress, Some (ext_error 9)).
Proof. split; reflexivity. Qed.

Lemma NewAddressBuffer_window_ok {F : Type} `{ReadWriteCloser F}
    (f : F) (size : Z) (a : t F) :
  0 <= size -> 20 * size + 40 <= max_int ->
  NewAddressBuffer f size false = Some a -> window_ok a.
Proof.
  intros H0 Hmax. unfold NewAddressBuffer, AddressLength, max_int in *.
  rewrite int64_small by (unfold max_int; lia).
  destruct (size * 20 <? 0) eqn:E; [discriminate|]. intros Ha; inversion Ha; subst a.
  unfold window_ok, len. cbn [buf currentIdx]. rewrite repeat_length.
  split; [lia|]. split; [lia|]. split; [exists (Z.to_nat size); lia|unfold max_int; lia].
Qed.

Lemma Next_stays_in_the_window_witness :
  window_ok (fst (Next (mk (repeat x00 40) 2 (-1) three_records))) /\
  (snd (snd (Next (mk (repeat x00 40) 2 (-1) three_records))) = None ->
   0 <= currentIdx (fst (Next (mk (repeat x00 40) 2 (-1) three_records))) /\
   length (fst (snd (Next (mk (repeat x00 40) 2 (-1) three_records)))) = 20%nat /\
   fst (snd (Next (mk (repeat x00 40) 2 (-1) three_records))) =
     slice (20 * currentIdx (fst (Next (mk (repeat x00 40) 2 (-1) three_records))))
       (20 * (currentIdx (fst (Next (mk (repeat x00 40) 2 (-1) three_records))) + 1))
       (buf (fst (Next (mk (repeat x00 40) 2 (-1) three_records))))).
Proof.
  apply (Next_stays_in_the_window (mk (repeat x00 40) 2 (-1) three_records)).
  unfold window_ok, len, max_int. cbn [buf currentIdx repeat length].
  split; [lia|]. split; [lia|]. split; [exists 2%nat; reflexivity|lia].
Defined.

(** C7, at the input where the code leaves it: a read window of two records
    over a file of three. The third call refills the window with one record
    and returns it; the fourth finds the index inside the window, reads
    nothing from the exhausted file, and returns the second record once
    more with no error; only the fifth call reports [io.EOF]. *)
Theorem Next_returns_stale_record :
  snd (Next_n 5 (mk (repeat x00 40) 2 (-1) three_records)) =
    [(addr_of x01, None); (addr_of x02, None); (addr_of x03, None);
     (addr_of x02, None); (zeroAddress, Some io_EOF)].
Proof. vm_compute. reflexivity. Qed.

End SpillBufferProperties.

(** ** The reorder-and-spill writer: windows, order and errors *)

Section WriterProperties.
Import AddressBuffer.

Lemma writer_step_touches_buffer_only_on_row
    {F : Type} `{ReadWriteCloser F} (firstBlock : Z) (st : WriterState F) (ev : Recv) :
  run_present (SliceStable (w_buffer st ++ [res ev]))
    (if w_isFirst st then firstBlock else w_currentBlock st) \/
  w_buf (fst (writer_step firstBlock st ev)) = w_buf st.
Proof.
  unfold writer_step.
  set (st1 := if w_isFirst st then _ else st).
  assert (Hst1 : w_buf st1 = w_buf st /\ w_buffer st1 = w_buffer st /\
                 w_currentBlock st1 = if w_isFirst st then firstBlock else w_currentBlock st).
  { unfold st1. destruct (w_isFirst st); repeat split. }
  clearbody st1. destruct Hst1 as (Hb & Hbuf & Hcur).
  destruct (err (res ev)); [right; exact Hb|].
  destruct (quit_closed ev); [right; exact Hb|].
  destruct (done_closed ev); [right; exact Hb|].
  rewrite Hbuf, Hcur.
  destruct (hasRow _ _) eqn:Erow; cbn [negb fst w_buf].
  - left. apply hasRow_run_present. exact Erow.
  - right. exact Hb.
Qed.

(** C2: (1) an iteration of the loop changes the spill buffer only if the
    first [toSort] entries of the sorted reorder buffer are the blocks
    [currentBlock], [currentBlock + 1], ...; (2) for every sequence of
    received results, what the loop has handed to the spill buffer when it
    ends is the addresses of a list [flushed] of results, in that order,
    whose block numbers are [firstBlock], [firstBlock + 1], ... (in [uint64]),
    made of whole windows of [toSort] results; [flushed] and the reorder
    buffer together are the results taken in so far; (3) the deferred tail
    flush then appends the rest of the reorder buffer, sorted by block
    number, and the file holds all of it. *)
Theorem flush_only_complete_windows_in_order :
  (forall (F : Type) (RWC : ReadWriteCloser F) (firstBlock : Z) (st : WriterState F) (ev : Recv),
     run_present (SliceStable (w_buffer st ++ [res ev]))
       (if w_isFirst st then firstBlock else w_currentBlock st) \/
     w_buf (fst (writer_step firstBlock st ev)) = w_buf st) /\
  (forall (a : t MemFile) (firstBlock : Z) (evs : list Recv),
     exists (flushed : list TxsFroms) (k : nat),
       let st := fst (writer_loop firstBlock evs (writer_init a)) in
       let final := fst (writeOnDiskBatch a firstBlock evs) in
       spill st = (data (rwc a) ++ buf a) ++ bytes_of flushed /\
       blockNumber <$> flushed =
         (fun i : nat => u64 (firstBlock + Z.of_nat i)) <$> seq 0 (length flushed) /\
       (exists w : nat, length flushed = (w * Z.to_nat toSort)%nat) /\
       flushed ++ w_buffer st ≡ₚ res <$> take k evs /\
       data (rwc (w_buf final)) = spill st ++ bytes_of (SliceStable (w_buffer st)) /\
       buf (w_buf final) = []).
Proof.
  split.
  - intros F RWC firstBlock st ev. apply writer_step_touches_buffer_only_on_row.
  - intros a firstBlock evs.
    assert (Hinit : writer_inv firstBlock (data (rwc a) ++ buf a) [] (writer_init a) []).
    { unfold writer_inv, writer_init, spill.
      cbn [w_buf w_isFirst w_buffer app].
      split; [unfold bytes_of; simpl; rewrite app_nil_r; reflexivity|].
      split; [intros k b Hk; rewrite lookup_nil in Hk; discriminate|].
      split; [reflexivity|]. split; [discriminate|].
      split; [exists 0%nat; reflexivity|reflexivity]. }
    destruct (writer_loop_inv firstBlock _ evs _ _ _ Hinit) as (flushed & k & Hinv).
    exists flushed, k. cbn zeta.
    destruct Hinv as (Hsp & Hio & _ & _ & Hdiv & Hperm).
    split; [exact Hsp|]. split; [apply in_order_fmap; exact Hio|].
    split; [exact Hdiv|]. split; [exact Hperm|].
    unfold writeOnDiskBatch.
    destruct (writer_loop firstBlock evs (writer_init a)) as [st r]. cbn [fst].
    destruct (writer_deferred_MemFile st r) as (st' & -> & Hd & Hb).
    cbn [fst]. split; assumption.
Qed.

Example descending_results_flushed :
  let st := fst (writer_loop 5 descending_results (writer_init (mk [] 4 (-1) (mkMemFile [] 0)))) in
  len (spill st) = 20000 /\ w_currentBlock st = 1005 /\
  blockNumber <$> w_buffer st = [1005; 1006; 1007].
Proof. vm_compute. repeat split. Qed.

(** The function's variable [err] is nil whenever the loop goes on: it is
    assigned only from [buf.Write()], and a failed write returns. *)
Lemma addFroms_err_nil {F : Type} `{ReadWriteCloser F} (fs : list Address) :
  forall st st' : WriterState F,
    addFroms fs st = (st', None) -> w_err st = None -> w_err st' = None.
Proof.
  induction fs as [|x fs IH]; intros st st' Hrun Herr; cbn [addFroms] in Hrun.
  - inversion Hrun; subst; exact Herr.
  - destruct (size (Add x (w_buf st)) <=? int64 (20 * int64 (w_n st + 1))).
    + destruct (Write (Add x (w_buf st))) as [b [wr [e|]]]; [discriminate|].
      apply (IH _ _ Hrun). reflexivity.
    + apply (IH _ _ Hrun). exact Herr.
Qed.

Lemma writeJobs_err_nil {F : Type} `{ReadWriteCloser F} (jobs : list TxsFroms) :
  forall st st' : WriterState F,
    writeJobs jobs st = (st', None) -> w_err st = None -> w_err st' = None.
Proof.
  induction jobs as [|j jobs IH]; intros st st' Hrun Herr; cbn [writeJobs] in Hrun.
  - inversion Hrun; subst; exact Herr.
  - destruct (addFroms (froms j) _) as [st1 [r|]] eqn:Ea; [discriminate|].
    apply (IH _ _ Hrun). apply (addFroms_err_nil _ _ _ Ea). exact Herr.
Qed.

Lemma writer_step_err_nil {F : Type} `{ReadWriteCloser F}
    (firstBlock : Z) (st st' : WriterState F) (ev : Recv) :
  writer_step firstBlock st ev = (st', None) -> w_err st = None -> w_err st' = None.
Proof.
  unfold writer_step. set (st1 := if w_isFirst st then _ else st).
  assert (H1 : w_err st1 = w_err st) by (unfold st1; destruct (w_isFirst st); reflexivity).
  clearbody st1. intros Hrun Herr. rewrite <- H1 in Herr.
  destruct (err (res ev)); [discriminate|].
  destruct (quit_closed ev); [discriminate|].
  destruct (done_closed ev); [discriminate|].
  destruct (negb (hasRow _ _)).
  - inversion Hrun; subst st'. exact Herr.
  - apply (writeJobs_err_nil _ _ _ Hrun). exact Herr.
Qed.

(** A result that carries an error makes the iteration return the
    function's variable [err], not the error of the result. *)
Lemma writer_step_on_error {F : Type} `{ReadWriteCloser F}
    (firstBlock : Z) (st : WriterState F) (ev : Recv) (e : error) :
  err (res ev) = Some e ->
  snd (writer_step firstBlock st ev) = Some (w_err st).
Proof.
  intros He. unfold writer_step. rewrite He. cbn [snd].
  destruct (w_isFirst st); reflexivity.
Qed.

(** Over a file that takes every write, the writer returns nil or
    [ErrStopped] whatever it receives: never the error of a result. *)
Lemma writer_loop_MemFile_returns (firstBlock : Z) (evs : list Recv) :
  forall st : WriterState MemFile,
    w_err st = None ->
    snd (writer_loop firstBlock evs st) = None \/
    snd (writer_loop firstBlock evs st) = Some ErrStopped.
Proof.
  induction evs as [|ev evs IH]; intros st Herr; [left; reflexivity|].
  cbn [writer_loop].
  destruct (writer_step firstBlock st ev) as [st' [r|]] eqn:Es.
  - cbn [snd]. revert Es. unfold writer_step.
    set (st1 := if w_isFirst st then _ else st).
    assert (H1 : w_err st1 = None) by (unfold st1; destruct (w_isFirst st); exact Herr).
    clearbody st1.
    destruct (err (res ev)).
    { intros Es; inversion Es; subst. left. exact H1. }
    destruct (quit_closed ev).
    { intros Es; inversion Es; subst. right. reflexivity. }
    destruct (done_closed ev).
    { intros Es; inversion Es; subst. left. reflexivity. }
    destruct (negb (hasRow _ _)); [discriminate|].
    edestruct writeJobs_spill as (st2 & -> & _). discriminate.
  - apply IH. apply (writer_step_err_nil _ _ _ _ Es). exact Herr.
Qed.

(** X1: over a file that takes every write, [writeOnDiskBatch] returns nil
    or [ErrStopped], whatever results it receives and whatever they carry:
    the error of a result is never returned. *)
Theorem writer_returns_nil_or_ErrStopped (a : t MemFile) (firstBlock : Z) (evs : list Recv) :
  snd (writeOnDiskBatch a firstBlock evs) = Returned None \/
  snd (writeOnDiskBatch a firstBlock evs) = Returned (Some ErrStopped).
Proof.
  unfold writeOnDiskBatch.
  pose proof (writer_loop_MemFile_returns firstBlock evs (writer_init a) eq_refl) as Hr.
  destruct (writer_loop firstBlock evs (writer_init a)) as [st r]. cbn [snd] in Hr.
  destruct (writer_deferred_MemFile st r) as (st' & -> & _). cbn [snd].
  destruct Hr as [-> | ->]; [left|right]; reflexivity.
Qed.

(** Over a stream that fails, the tail flush panics with the error of its
    write. *)
Example tail_flush_panics_on_a_broken_stream :
  snd (writeOnDiskBatch (mk [] 4 (-1) (mkBroken (ext_error 9))) 5
         [mkRecv (mkTxsFroms 5 [addr_of x01] None) false false]) = Panicked (ext_error 9).
Proof. reflexivity. Qed.

(** C3, at the input where the code leaves it: the result for block 5
    arrives, then a result for block 6 that carries an error, with no
    channel closed. The writer returns nil, and the file holds the address
    of block 5 from the tail flush. *)
Theorem erroneous_result_returns_nil :
  let evs := [mkRecv (mkTxsFroms 5 [addr_of x01] None) false false;
              mkRecv (mkTxsFroms 6 [] (Some (ext_error 7))) false false] in
  let run := writeOnDiskBatch (mk [] 4 (-1) (mkMemFile [] 0)) 5 evs in
  snd run = Returned None /\ data (rwc (w_buf (fst run))) = addr_of x01.
Proof. vm_compute. split; reflexivity. Qed.

End WriterProperties.

(** ** Sender recovery for one body *)

Section RecoverFrom.
Variable cryptoContext : Context.
Variable signer : Signer.

Lemma mismatch_test (tx : Transaction) :
  tx_protected tx && negb (tx_chainID tx =? signer_ChainID signer) = true <->
  chain_mismatch signer tx.
Proof.
  unfold chain_mismatch. rewrite andb_true_iff, negb_true_iff, Z.eqb_neq. reflexivity.
Qed.

Lemma recoverFrom_loop_recoverable (txs : list Transaction) :
  forall (done : list Address) (rest : list Address),
    Forall (recoverable cryptoContext signer) txs -> length rest = length txs ->
    recoverFrom_loop cryptoContext signer (length done) txs (done ++ rest) =
      (Some (done ++ (sender_of cryptoContext signer <$> txs)), None).
Proof.
  induction txs as [|tx txs IH]; intros done rest Hall Hlen.
  - destruct rest; [|discriminate]. reflexivity.
  - inversion Hall as [|? ? [Hm Hs] Hall']; subst.
    destruct rest as [|z rest]; [discriminate|].
    cbn [recoverFrom_loop].
    destruct (tx_protected tx && negb (tx_chainID tx =? signer_ChainID signer)) eqn:E.
    { apply mismatch_test in E. contradiction. }
    unfold sender_of. cbn [fmap list_fmap].
    destruct (SenderWithContext signer cryptoContext tx) as [from e]. simpl in Hs. subst e.
    replace (<[length done := from]> (done ++ z :: rest)) with ((done ++ [from]) ++ rest).
    + replace (S (length done)) with (length (done ++ [from])) by (rewrite length_app; simpl; lia).
      rewrite (IH (done ++ [from]) rest Hall') by (simpl in Hlen; lia).
      rewrite <- app_assoc. reflexivity.
    + rewrite <- app_assoc. simpl.
      rewrite (insert_app_r_alt done (z :: rest) (length done) from) by lia.
      rewrite Nat.sub_diag. reflexivity.
Qed.

Lemma recoverFrom_loop_prefix (pre : list Transaction) :
  forall (txs : list Transaction) (done rest : list Address),
    Forall (recoverable cryptoContext signer) pre -> length rest = length (pre ++ txs) ->
    exists done' rest',
      length rest' = length txs /\
      recoverFrom_loop cryptoContext signer (length done) (pre ++ txs) (done ++ rest) =
        recoverFrom_loop cryptoContext signer (length done') txs (done' ++ rest').
Proof.
  induction pre as [|tx pre IH]; intros txs done rest Hall Hlen.
  - exists done, rest. split; [exact Hlen|reflexivity].
  - inversion Hall as [|? ? [Hm Hs] Hall']; subst.
    destruct rest as [|z rest]; [discriminate|].
    cbn [recoverFrom_loop app].
    destruct (tx_protected tx && negb (tx_chainID tx =? signer_ChainID signer)) eqn:E.
    { apply mismatch_test in E. contradiction. }
    destruct (SenderWithContext signer cryptoContext tx) as [from e]. simpl in Hs. subst e.
    replace (<[length done := from]> (done ++ z :: rest)) with ((done ++ [from]) ++ rest).
    + replace (S (length done)) with (length (done ++ [from])) by (rewrite length_app; simpl; lia).
      apply IH; [exact Hall'|]. simpl in Hlen. lia.
    + rewrite <- app_assoc. simpl.
      rewrite (insert_app_r_alt done (z :: rest) (length done) from) by lia.
      rewrite Nat.sub_diag. reflexivity.
Qed.

End RecoverFrom.

Lemma first_not_recoverable (cryptoContext : Context) (signer : Signer) (txs : list Transaction) :
  Forall (recoverable cryptoContext signer) txs \/
  exists pre tx post,
    txs = pre ++ tx :: post /\ Forall (recoverable cryptoContext signer) pre /\
    (chain_mismatch signer tx \/
     ~ chain_mismatch signer tx /\
     exists e, snd (SenderWithContext signer cryptoContext tx) = Some e).
Proof.
  induction txs as [|tx txs IH]; [left; constructor|].
  destruct (tx_protected tx && negb (tx_chainID tx =? signer_ChainID signer)) eqn:E.
  { right. exists [], tx, txs. split; [reflexivity|]. split; [constructor|].
    left. apply mismatch_test. exact E. }
  assert (Hm : ~ chain_mismatch signer tx).
  { intros Hm. apply mismatch_test in Hm. congruence. }
  destruct (snd (SenderWithContext signer cryptoContext tx)) as [e|] eqn:Es.
  { right. exists [], tx, txs. split; [reflexivity|]. split; [constructor|].
    right. split; [exact Hm|]. exists e. exact Es. }
  destruct IH as [Hall|(pre & tx' & post & -> & Hpre & Hbad)].
  - left. constructor; [split; assumption|exact Hall].
  - right. exists (tx :: pre), tx', post. split; [reflexivity|].
    split; [|exact Hbad]. constructor; [split; assumption|exact Hpre].
Qed.

(** C4 as stated fails where two transactions fail different tests: the
    error is that of the first one. In the first body the second
    transaction is replay-protected with chain ID 5, not the signer's 1, yet
    the error is the recovery error of the first transaction; in the second
    body recovery fails for the second transaction, yet the error is
    "invalid chainId" and names no hash. *)
Lemma recoverFrom_reports_the_first_failure :
  chain_mismatch example_signer (example_tx x0b true 5) /\
  recoverFrom example_ctx (mkBody [example_tx x00 false 0; example_tx x0b true 5])
    example_signer =
    (None, Some (errors_Wrap (ext_error 1) (recovering_msg (example_tx x00 false 0)))) /\
  snd (SenderWithContext example_signer example_ctx (example_tx x00 false 0)) =
    Some (ext_error 1) /\
  recoverFrom example_ctx (mkBody [example_tx x0b true 5; example_tx x00 false 0])
    example_signer =
    (None, Some (errors_New "invalid chainId")) /\
  recoverFrom example_ctx (mkBody [example_tx x00 false 0; example_tx x0b true 5])
    example_signer <>
    (None, Some (errors_New "invalid chainId")) /\
  recoverFrom example_ctx (mkBody [example_tx x0b true 5; example_tx x00 false 0])
    example_signer <>
    (None, Some (errors_Wrap (ext_error 1) (recovering_msg (example_tx x00 false 0)))).
Proof.
  split; [split; [reflexivity|cbn; lia]|]. split; [reflexivity|]. split; [reflexivity|].
  split; [reflexivity|]. split; discriminate.
Qed.

(** C4, amended: [recoverFrom] is all-or-nothing and stops at the first
    transaction, in order, that fails a test. (1) If every transaction passes
    the chain-ID test and has its sender recovered, the result is the list of
    the recovered senders, one per transaction in transaction order, and no
    error. (2) If the first transaction that does not pass is replay-protected
    with a chain ID other than the signer's, the result is a nil list and the
    error "invalid chainId". (3) If the first transaction that does not pass
    fails sender recovery, the result is a nil list and the recovery error
    wrapped with a message that names the hash of that transaction. (4) The
    result is always a nil list with an error, or a list with one address per
    transaction and no error; (5) it is the former as soon as one transaction
    does not pass. *)
Theorem recoverFrom_all_or_nothing
    (cryptoContext : Context) (blockBody : Body) (signer : Signer) :
  let txs := Transactions blockBody in
  let result := recoverFrom cryptoContext blockBody signer in
  (Forall (recoverable cryptoContext signer) txs ->
     result = (Some (sender_of cryptoContext signer <$> txs), None)) /\
  (forall pre tx post,
     txs = pre ++ tx :: post -> Forall (recoverable cryptoContext signer) pre ->
     chain_mismatch signer tx ->
     result = (None, Some (errors_New "invalid chainId"))) /\
  (forall pre tx post e,
     txs = pre ++ tx :: post -> Forall (recoverable cryptoContext signer) pre ->
     ~ chain_mismatch signer tx ->
     snd (SenderWithContext signer cryptoContext tx) = Some e ->
     result = (None, Some (errors_Wrap e (recovering_msg tx)))) /\
  ((exists e, result = (None, Some e)) \/
   (exists froms, result = (Some froms, None) /\ length froms = length txs)) /\
  (~ Forall (recoverable cryptoContext signer) txs -> exists e, result = (None, Some e)).
Proof.
  cbn zeta. unfold recoverFrom.
  set (txs := Transactions blockBody).
  assert (Hgood : Forall (recoverable cryptoContext signer) txs ->
            recoverFrom_loop cryptoContext signer 0 txs (repeat zeroAddress (length txs)) =
              (Some (sender_of cryptoContext signer <$> txs), None)).
  { intros Hall.
    apply (recoverFrom_loop_recoverable cryptoContext signer txs [] _ Hall).
    apply repeat_length. }
  assert (Hmis : forall pre tx post,
            txs = pre ++ tx :: post -> Forall (recoverable cryptoContext signer) pre ->
            chain_mismatch signer tx ->
            recoverFrom_loop cryptoContext signer 0 txs (repeat zeroAddress (length txs)) =
              (None, Some (errors_New "invalid chainId"))).
  { intros pre tx post Htxs Hpre Hm. rewrite Htxs.
    destruct (recoverFrom_loop_prefix cryptoContext signer pre (tx :: post) []
                (repeat zeroAddress (length (pre ++ tx :: post))) Hpre (repeat_length _ _))
      as (done' & rest' & _ & Heq).
    cbn [length app] in Heq. rewrite Heq. cbn [recoverFrom_loop].
    apply mismatch_test in Hm. rewrite Hm. reflexivity. }
  assert (Hrec : forall pre tx post e,
            txs = pre ++ tx :: post -> Forall (recoverable cryptoContext signer) pre ->
            ~ chain_mismatch signer tx ->
            snd (SenderWithContext signer cryptoContext tx) = Some e ->
            recoverFrom_loop cryptoContext signer 0 txs (repeat zeroAddress (length txs)) =
              (None, Some (errors_Wrap e (recovering_msg tx)))).
  { intros pre tx post e Htxs Hpre Hm He. rewrite Htxs.
    destruct (recoverFrom_loop_prefix cryptoContext signer pre (tx :: post) []
                (repeat zeroAddress (length (pre ++ tx :: post))) Hpre (repeat_length _ _))
      as (done' & rest' & _ & Heq).
    cbn [length app] in Heq. rewrite Heq. cbn [recoverFrom_loop].
    destruct (tx_protected tx && negb (tx_chainID tx =? signer_ChainID signer)) eqn:E.
    { apply mismatch_test in E. contradiction. }
    destruct (SenderWithContext signer cryptoContext tx) as [from e']. simpl in He. subst e'.
    reflexivity. }
  split; [exact Hgood|]. split; [exact Hmis|]. split; [exact Hrec|].
  destruct (first_not_recoverable cryptoContext signer txs)
    as [Hall|(pre & tx & post & Htxs & Hpre & [Hm|[Hm [e He]]])].
  - split.
    + right. eexists. split; [apply Hgood; exact Hall|]. apply length_fmap.
    + intros Hn. contradiction.
  - split; [left|intros _]; eexists; eapply Hmis; eassumption.
  - split; [left|intros _]; eexists; eapply Hrec; eassumption.
Qed.

Lemma recoverFrom_all_or_nothing_witness :
  recoverFrom example_ctx (mkBody [example_tx x0a true 1; example_tx x0b false 0]) example_signer =
    (Some [repeat x0a 20; repeat x0b 20], None) /\
  recoverFrom example_ctx
    (mkBody [example_tx x0a true 1; example_tx x0b true 5; example_tx x0c true 1])
    example_signer = (None, Some (errors_New "invalid chainId")) /\
  recoverFrom example_ctx
    (mkBody [example_tx x0a true 1; example_tx x00 false 0; example_tx x0c true 5])
    example_signer =
    (None, Some (errors_Wrap (ext_error 1) (recovering_msg (example_tx x00 false 0)))).
Proof.
  assert (Hgood : forall b c, b <> x00 ->
            recoverable example_ctx example_signer (example_tx b true 1) /\
            recoverable example_ctx example_signer (example_tx b false c)).
  { intros b c Hb. unfold recoverable, chain_mismatch. cbn.
    destruct (Byte.eqb b x00) eqn:E; [apply Byte.byte_dec_bl in E; contradiction|].
    repeat split; try reflexivity; intros [? ?]; congruence. }
  split; [|split].
  - apply (proj1 (recoverFrom_all_or_nothing example_ctx
                    (mkBody [example_tx x0a true 1; example_tx x0b false 0]) example_signer)).
    repeat constructor; apply (Hgood _ 0); discriminate.
  - apply (proj1 (proj2 (recoverFrom_all_or_nothing example_ctx
                    (mkBody [example_tx x0a true 1; example_tx x0b true 5; example_tx x0c true 1])
                    example_signer))
             [example_tx x0a true 1] (example_tx x0b true 5) [example_tx x0c true 1]).
    + reflexivity.
    + repeat constructor; apply (Hgood _ 0); discriminate.
    + split; [reflexivity|]. cbn. lia.
  - apply (proj1 (proj2 (proj2 (recoverFrom_all_or_nothing example_ctx
                    (mkBody [example_tx x0a true 1; example_tx x00 false 0; example_tx x0c true 5])
                    example_signer)))
             [example_tx x0a true 1] (example_tx x00 false 0) [example_tx x0c true 5]).
    + reflexivity.
    + repeat constructor; apply (Hgood _ 0); discriminate.
    + intros [Hp _]. discriminate.
    + reflexivity.
Defined.

Example recovering_msg_example :
  recovering_msg (mkTransaction [x0a; xff] false 0 None) =
    ("error recovering sender for tx=0aff" ++ newline)%string.
Proof. reflexivity. Qed.

(** ** The end of the range *)

Lemma getBlockBody_absent {ChainConfig : Type} (MakeSigner : ChainConfig -> Z -> Signer)
    (mutation : Mutation) (config : ChainConfig) (n : Z) :
  ReadCanonicalHash mutation n = zeroHash \/
  ReadBody mutation (ReadCanonicalHash mutation n) n = None ->
  getBlockBody ChainConfig MakeSigner mutation config n = None.
Proof.
  intros [Hh|Hb]; unfold getBlockBody.
  - rewrite Hh. unfold IsEmpty. rewrite bool_decide_eq_true_2 by reflexivity. reflexivity.
  - destruct (IsEmpty (ReadCanonicalHash mutation n)); [reflexivity|].
    rewrite Hb. reflexivity.
Qed.

Lemma committed_reads (puts : list entry) (db : Store) (number : Z) (hash : Hash) :
  bodies (foldr apply_entry db puts) !! (number, hash) =
    match pending_body puts number hash with
    | Some b => Some b
    | None => bodies db !! (number, hash)
    end /\
  canonical (foldr apply_entry db puts) = canonical db /\
  db_fault (foldr apply_entry db puts) = db_fault db.
Proof.
  induction puts as [|e puts (IHb & IHc & IHf)]; [repeat split|].
  cbn [foldr pending_body].
  destruct e as [n h b|st bn|st up]; cbn [apply_entry bodies canonical db_fault].
  - split; [|split; assumption].
    destruct (decide ((n, h) = (number, hash))) as [->|Hne].
    + apply lookup_insert_eq.
    + rewrite lookup_insert_ne by exact Hne. exact IHb.
  - repeat split; assumption.
  - repeat split; assumption.
Qed.

Section EndOfRange.
Variable ChainConfig : Type.
Variable MakeSigner : ChainConfig -> Z -> Signer.
Variable config : ChainConfig.

Lemma getBlockBody_number (m : Mutation) (n : Z) (job : senderRecoveryJob) :
  getBlockBody ChainConfig MakeSigner m config n = Some job -> job_nextBlockNumber job = n.
Proof.
  unfold getBlockBody. destruct (IsEmpty _); [discriminate|].
  destruct (ReadBody _ _ _); [|discriminate]. intros E; inversion E; reflexivity.
Qed.

Lemma getBlockBody_WriteBody (m : Mutation) (h : Hash) (n' n : Z) (b : Body) :
  n <> n' ->
  getBlockBody ChainConfig MakeSigner (WriteBody m h n' b) config n =
    getBlockBody ChainConfig MakeSigner m config n.
Proof.
  intros Hne. unfold getBlockBody, WriteBody, ReadCanonicalHash, ReadBody.
  cbn [Put Mutation_Putter fst m_db m_puts pending_body].
  destruct (decide ((n', h) = (n, _))) as [E|_]; [inversion E; congruence|]. reflexivity.
Qed.

Lemma getBlockBody_Update (s : StageState) (m : Mutation) (x n : Z) :
  snd (Update s m x) = None /\
  getBlockBody ChainConfig MakeSigner (fst (Update s m x)) config n =
    getBlockBody ChainConfig MakeSigner m config n.
Proof. split; reflexivity. Qed.

Lemma getBlockBody_Commit (m m' : Mutation) (n : Z) :
  Commit m = (m', None) ->
  getBlockBody ChainConfig MakeSigner (NewBatch (m_db m')) config n =
    getBlockBody ChainConfig MakeSigner m config n.
Proof.
  unfold Commit. destruct (db_fault (m_db m)) eqn:Ef; [discriminate|].
  intros E; inversion E; subst m'; clear E.
  unfold getBlockBody, ReadCanonicalHash, ReadBody, NewBatch. cbn [m_db m_puts pending_body].
  destruct (committed_reads (m_puts m) (m_db m) n (default zeroHash (canonical (m_db m) !! n)))
    as (Hb & Hc & Hf).
  rewrite Hf, Ef, Hc, Hb.
  destruct (pending_body _ _ _); reflexivity.
Qed.

Lemma u64_succ_add (next : Z) (k : nat) :
  u64 (u64 (next + 1) + Z.of_nat k) = u64 (next + Z.of_nat (S k)).
Proof. rewrite u64_add_l. f_equal. lia. Qed.

Lemma u64_add_ne (next : Z) (k : nat) :
  0 <= next < 2 ^ 64 -> Z.of_nat (S k) < 2 ^ 64 -> u64 (next + Z.of_nat (S k)) <> next.
Proof.
  intros Hn Hk E. unfold u64 in E.
  assert (H1 : (next + Z.of_nat (S k)) mod 2 ^ 64 = next mod 2 ^ 64)
    by (rewrite E; symmetry; apply Z.mod_small; exact Hn).
  assert (H2 : (next + Z.of_nat (S k) - next) mod 2 ^ 64 = 0)
    by (rewrite Zminus_mod, H1, Z.sub_diag; reflexivity).
  replace (next + Z.of_nat (S k) - next) with (Z.of_nat (S k)) in H2 by lia.
  rewrite Z.mod_small in H2 by lia. lia.
Qed.

(** Fuel suffices for the producer as soon as it exceeds the distance to
    an absent block, and with [quitCh] open all along no error is sent. *)
Lemma producer_loop_returns (m : Mutation) (quit : nat -> bool) (k : nat) :
  forall (fuel it : nat) (next firstBlock : Z) (sent : list senderRecoveryJob),
    (k < fuel)%nat -> 0 <= next < 2 ^ 64 ->
    getBlockBody ChainConfig MakeSigner m config (u64 (next + Z.of_nat k)) = None ->
    exists jobs e n' fb',
      producer_loop ChainConfig MakeSigner fuel it quit m config next firstBlock sent =
        Some (sent ++ jobs, e, n', fb') /\
      ((forall i, quit i = false) -> e = None).
Proof.
  induction k as [|k IH]; intros fuel it next firstBlock sent Hf Hn Habs;
    (destruct fuel as [|fuel]; [lia|]); cbn [producer_loop].
  - destruct (quit it) eqn:Eq.
    { exists [], (Some ErrStopped), next, firstBlock. rewrite app_nil_r.
      split; [reflexivity|]. intros Hq. rewrite Hq in Eq. discriminate. }
    replace (next + Z.of_nat 0) with next in Habs by lia.
    rewrite u64_small in Habs by exact Hn. rewrite Habs.
    exists [], None, next, firstBlock. rewrite app_nil_r. split; reflexivity.
  - destruct (quit it) eqn:Eq.
    { exists [], (Some ErrStopped), next, firstBlock. rewrite app_nil_r.
      split; [reflexivity|]. intros Hq. rewrite Hq in Eq. discriminate. }
    destruct (getBlockBody ChainConfig MakeSigner m config next) as [job|].
    + rewrite <- u64_succ_add in Habs.
      destruct (IH fuel (S it) (u64 (next + 1))
                  (if firstBlock =? 0 then job_nextBlockNumber job else firstBlock)
                  (sent ++ [job]) ltac:(lia) (u64_range _) Habs)
        as (jobs & e & n' & fb' & Hrun & He).
      exists (job :: jobs), e, n', fb'. rewrite Hrun, <- app_assoc. split; [reflexivity|exact He].
    + exists [], None, next, firstBlock. rewrite app_nil_r. split; reflexivity.
Qed.

(** Fuel suffices for the apply pass as soon as it exceeds the distance to
    an absent block: what the pass puts and commits on the way does not
    bring that block in. *)
Lemma writeBatchFromDisk_loop_returns {F : Type} `{ReadWriteCloser F}
    (s : StageState) (k : nat) :
  forall (fuel : nat) (st : ApplyState),
    (k < fuel)%nat -> Z.of_nat k < 2 ^ 64 -> 0 <= a_nextBlockNumber st < 2 ^ 64 ->
    getBlockBody ChainConfig MakeSigner (a_mutation st) config
      (u64 (a_nextBlockNumber st + Z.of_nat k)) = None ->
    exists st' r,
      writeBatchFromDisk_loop ChainConfig MakeSigner fuel s config st = Some (st', r).
Proof.
  induction k as [|k IH]; intros fuel st Hf Hk Hn Habs;
    (destruct fuel as [|fuel]; [lia|]); cbn [writeBatchFromDisk_loop].
  - replace (a_nextBlockNumber st + Z.of_nat 0) with (a_nextBlockNumber st) in Habs by lia.
    rewrite u64_small in Habs by exact Hn. rewrite Habs. eexists _, _. reflexivity.
  - destruct (getBlockBody ChainConfig MakeSigner (a_mutation st) config (a_nextBlockNumber st))
      as [job|] eqn:Ejob; [|eexists _, _; reflexivity].
    destruct (setFroms (a_buf st) (Transactions (job_blockBody job))) as [buf [txs|e]];
      [|eexists _, _; reflexivity].
    pose proof (getBlockBody_number _ _ _ Ejob) as Hnum.
    pose proof (u64_add_ne (a_nextBlockNumber st) k Hn Hk) as Hne.
    set (m1 := WriteBody (a_mutation st) (job_hash job) (job_nextBlockNumber job) (mkBody txs)).
    assert (Habs1 : getBlockBody ChainConfig MakeSigner m1 config
                      (u64 (u64 (a_nextBlockNumber st + 1) + Z.of_nat k)) = None).
    { rewrite u64_succ_add. unfold m1. rewrite getBlockBody_WriteBody by (rewrite Hnum; exact Hne).
      exact Habs. }
    destruct (IdealBatchSize m1 <=? BatchSize m1).
    + destruct (getBlockBody_Update s m1 (u64 (a_nextBlockNumber st + 1))
                  (u64 (u64 (a_nextBlockNumber st + 1) + Z.of_nat k))) as [Hu1 Hu2].
      destruct (Update s m1 (u64 (a_nextBlockNumber st + 1))) as [m2 e2].
      cbn [fst snd] in Hu1, Hu2. subst e2.
      destruct (Commit m2) as [m3 [e3|]] eqn:Ec; [eexists _, _; reflexivity|].
      apply IH; cbn [a_nextBlockNumber a_mutation]; try lia; [apply u64_range|].
      rewrite (getBlockBody_Commit m2 m3 _ Ec), Hu2. exact Habs1.
    + apply IH; cbn [a_nextBlockNumber a_mutation]; try lia; [apply u64_range|exact Habs1].
Qed.

Lemma txs_ahead_ext (m m' : Mutation) (k : nat) :
  forall next : Z,
    0 <= next < 2 ^ 64 ->
    (forall i : nat, (i < k)%nat ->
       getBlockBody ChainConfig MakeSigner m' config (u64 (next + Z.of_nat i)) =
       getBlockBody ChainConfig MakeSigner m config (u64 (next + Z.of_nat i))) ->
    txs_ahead MakeSigner m' config next k = txs_ahead MakeSigner m config next k.
Proof.
  induction k as [|k IH]; intros next Hn Hsame; [reflexivity|]. cbn [txs_ahead].
  pose proof (Hsame 0%nat ltac:(lia)) as H0.
  replace (next + Z.of_nat 0) with next in H0 by lia. rewrite u64_small in H0 by exact Hn.
  rewrite H0. destruct (getBlockBody ChainConfig MakeSigner m config next); [|reflexivity].
  f_equal. apply IH; [apply u64_range|]. intros i Hi.
  rewrite u64_succ_add. apply Hsame. lia.
Qed.

(** What an iteration does to the batch leaves every other block as it
    reads, and the database as sound as it was. *)
Lemma iteration_keeps_other_blocks (s : StageState) (m : Mutation) (h : Hash) (next x : Z)
    (b : Body) :
  db_fault (m_db m) = None ->
  let m1 := WriteBody m h next b in
  (db_fault (m_db m1) = None /\
   forall j, j <> next ->
     getBlockBody ChainConfig MakeSigner m1 config j =
     getBlockBody ChainConfig MakeSigner m config j) /\
  exists m3,
    Commit (fst (Update s m1 x)) = (m3, None) /\
    snd (Update s m1 x) = None /\
    db_fault (m_db (NewBatch (m_db m3))) = None /\
    forall j, j <> next ->
      getBlockBody ChainConfig MakeSigner (NewBatch (m_db m3)) config j =
      getBlockBody ChainConfig MakeSigner m config j.
Proof.
  intros Hdb. cbn zeta. split.
  - split; [exact Hdb|]. intros j Hj. apply getBlockBody_WriteBody. exact Hj.
  - destruct (getBlockBody_Update s (WriteBody m h next b) x 0) as [Hu _].
    destruct (Commit (fst (Update s (WriteBody m h next b) x))) as [m3 e3] eqn:Ec.
    assert (He3 : e3 = None /\ db_fault (m_db m3) = None).
    { assert (Hdb2 : db_fault (m_db (fst (Update s (WriteBody m h next b) x))) = None)
        by exact Hdb.
      unfold Commit in Ec. rewrite Hdb2 in Ec. injection Ec as <- <-.
      split; [reflexivity|]. cbn [m_db].
      destruct (committed_reads (m_puts (fst (Update s (WriteBody m h next b) x)))
                  (m_db (fst (Update s (WriteBody m h next b) x))) 0 [])
        as (_ & _ & Hf).
      etrans; [exact Hf|exact Hdb2]. }
    destruct He3 as [-> Hdb3]. exists m3. split; [reflexivity|]. split; [exact Hu|].
    split; [exact Hdb3|]. intros j Hj.
    rewrite (getBlockBody_Commit _ m3 j Ec).
    rewrite (proj2 (getBlockBody_Update s (WriteBody m h next b) x j)).
    apply getBlockBody_WriteBody. exact Hj.
Qed.

Section OverASpillFile.
Variable W : nat.
Hypothesis W_pos : (0 < W)%nat.
Hypothesis W_fits : 20 * Z.of_nat W + 20 <= max_int.

Lemma setFroms_reads (txs : list Transaction) :
  forall (addrs rest : list Address) (buf : AddressBuffer.t MemFile),
    reads W buf (addrs ++ rest) -> length addrs = length txs ->
    exists buf',
      setFroms buf txs = (buf', inl (zip_with SetFrom addrs txs)) /\ reads W buf' rest.
Proof using W_pos W_fits.
  induction txs as [|tx txs IH]; intros addrs rest buf Hr Hlen.
  - destruct addrs; [|discriminate]. exists buf. split; [reflexivity|exact Hr].
  - destruct addrs as [|x addrs]; [discriminate|]. cbn [app] in Hr.
    destruct (Next_reads W W_pos W_fits buf x (addrs ++ rest) Hr) as (buf1 & HN & Hr1).
    destruct (IH addrs rest buf1 Hr1 ltac:(simpl in Hlen; lia)) as (buf' & HS & Hr').
    exists buf'. cbn [setFroms zip_with]. rewrite HN, HS. split; [reflexivity|exact Hr'].
Qed.

(** Over a spill file that holds a record for every transaction on the way
    to an absent block, and a database that does not fail, the apply pass
    returns nil. *)
Lemma writeBatchFromDisk_loop_ends_normally (s : StageState) (k : nat) :
  forall (fuel : nat) (st : ApplyState) (rest : list Address),
    (k < fuel)%nat -> Z.of_nat k < 2 ^ 64 -> 0 <= a_nextBlockNumber st < 2 ^ 64 ->
    reads W (a_buf st) rest ->
    db_fault (m_db (a_mutation st)) = None ->
    getBlockBody ChainConfig MakeSigner (a_mutation st) config
      (u64 (a_nextBlockNumber st + Z.of_nat k)) = None ->
    (txs_ahead MakeSigner (a_mutation st) config (a_nextBlockNumber st) k <= length rest)%nat ->
    exists st',
      writeBatchFromDisk_loop ChainConfig MakeSigner fuel s config st = Some (st', None).
Proof using W_pos W_fits.
  induction k as [|k IH]; intros fuel st rest Hf Hk Hn Hr Hdb Habs Hcount;
    (destruct fuel as [|fuel]; [lia|]); cbn [writeBatchFromDisk_loop].
  - replace (a_nextBlockNumber st + Z.of_nat 0) with (a_nextBlockNumber st) in Habs by lia.
    rewrite u64_small in Habs by exact Hn. rewrite Habs. eexists. reflexivity.
  - cbn [txs_ahead] in Hcount.
    destruct (getBlockBody ChainConfig MakeSigner (a_mutation st) config (a_nextBlockNumber st))
      as [job|] eqn:Ejob; [|eexists; reflexivity].
    set (txs := Transactions (job_blockBody job)) in *.
    assert (Hsplit : rest = take (length txs) rest ++ drop (length txs) rest)
      by (symmetry; apply take_drop).
    rewrite Hsplit in Hr.
    destruct (setFroms_reads txs _ _ _ Hr ltac:(rewrite length_take; lia)) as (buf' & -> & Hr').
    pose proof (getBlockBody_number _ _ _ Ejob) as Hnum. rewrite Hnum.
    set (next := a_nextBlockNumber st) in *.
    set (body := mkBody (zip_with SetFrom (take (length txs) rest) txs)).
    destruct (iteration_keeps_other_blocks s (a_mutation st) (job_hash job) next
                (u64 (next + 1)) body Hdb) as [[Hdb1 Hsame1] (m3 & Hc & Hu & Hdb3 & Hsame3)].
    assert (Hfar : forall i : nat, (i <= k)%nat -> u64 (u64 (next + 1) + Z.of_nat i) <> next).
    { intros i Hi. rewrite u64_succ_add. apply u64_add_ne; [exact Hn|lia]. }
    assert (Hgoal : forall m' : Mutation,
              db_fault (m_db m') = None ->
              (forall j, j <> next ->
                 getBlockBody ChainConfig MakeSigner m' config j =
                 getBlockBody ChainConfig MakeSigner (a_mutation st) config j) ->
              exists st',
                writeBatchFromDisk_loop ChainConfig MakeSigner fuel s config
                  (mkApplyState buf' m' (u64 (next + 1))) = Some (st', None)).
    { intros m' Hdb' Hsame'.
      apply (IH fuel _ (drop (length txs) rest)); cbn [a_buf a_mutation a_nextBlockNumber].
      - lia.
      - lia.
      - apply u64_range.
      - exact Hr'.
      - exact Hdb'.
      - rewrite Hsame' by (apply Hfar; lia). rewrite u64_succ_add. exact Habs.
      - rewrite (txs_ahead_ext (a_mutation st) m' k (u64 (next + 1)) (u64_range _)).
        + rewrite length_drop. lia.
        + intros i Hi. apply Hsame'. apply Hfar. lia. }
    destruct (IdealBatchSize (WriteBody (a_mutation st) (job_hash job) next body) <=?
              BatchSize (WriteBody (a_mutation st) (job_hash job) next body)).
    + destruct (Update s (WriteBody (a_mutation st) (job_hash job) next body) (u64 (next + 1)))
        as [m2 e2]. cbn [fst snd] in Hc, Hu. subst e2. rewrite Hc.
      apply Hgoal; assumption.
    + apply Hgoal; assumption.
Qed.

End OverASpillFile.

End EndOfRange.

(** C8: when the canonical hash of a block number [n] is absent, or the body
    under that hash is, [getBlockBody] returns no job; the producer loop,
    arriving at [n] with [quitCh] open, stops and sends no error; and the
    loop of [writeBatchFromDisk], arriving at [n], returns nil and leaves the
    buffer and the batch as they are (any fuel but none suffices for that
    iteration). Started [k] blocks before [n], with more fuel than [k], both
    loops return: the producer with no error when [quitCh] stays open, the
    apply pass with nil when the database does not fail and the spill file
    holds a record for every transaction on the way. *)
Theorem absent_block_ends_both_passes
    (ChainConfig : Type) (MakeSigner : ChainConfig -> Z -> Signer)
    (mutation : Mutation) (config : ChainConfig) (n : Z) :
  ReadCanonicalHash mutation n = zeroHash \/
  ReadBody mutation (ReadCanonicalHash mutation n) n = None ->
  getBlockBody ChainConfig MakeSigner mutation config n = None /\
  (forall (fuel it : nat) (quit : nat -> bool) (firstBlock : Z) (sent : list senderRecoveryJob),
     quit it = false ->
     producer_loop ChainConfig MakeSigner (S fuel) it quit mutation config n firstBlock sent =
       Some (sent, None, n, firstBlock)) /\
  (forall (F : Type) (RWC : ReadWriteCloser F) (fuel : nat)
          (buf : AddressBuffer.t F) (s : StageState),
     writeBatchFromDisk_loop ChainConfig MakeSigner (S fuel) s config
       (mkApplyState buf mutation n) =
       Some (mkApplyState buf mutation n, None)) /\
  (forall (k fuel it : nat) (quit : nat -> bool) (start firstBlock : Z),
     (k < fuel)%nat -> 0 <= start < 2 ^ 64 -> n = u64 (start + Z.of_nat k) ->
     exists jobs e n' fb',
       producer_loop ChainConfig MakeSigner fuel it quit mutation config start firstBlock [] =
         Some (jobs, e, n', fb') /\
       ((forall i, quit i = false) -> e = None)) /\
  (forall (F : Type) (RWC : ReadWriteCloser F) (k fuel : nat)
          (buf : AddressBuffer.t F) (s : StageState) (start : Z),
     (k < fuel)%nat -> Z.of_nat k < 2 ^ 64 -> 0 <= start < 2 ^ 64 ->
     n = u64 (start + Z.of_nat k) ->
     exists st' r,
       writeBatchFromDisk_loop ChainConfig MakeSigner fuel s config
         (mkApplyState buf mutation start) = Some (st', r)) /\
  (forall (k fuel : nat) (rsize : Z) (rest : list Address)
          (buf : AddressBuffer.t MemFile) (s : StageState) (start : Z),
     (k < fuel)%nat -> Z.of_nat k < 2 ^ 64 -> 0 <= start < 2 ^ 64 ->
     n = u64 (start + Z.of_nat k) ->
     0 < rsize -> 20 * rsize + 20 <= max_int -> Forall is_address rest ->
     AddressBuffer.NewAddressBuffer (mkMemFile (concat rest) 0) rsize false = Some buf ->
     db_fault (m_db mutation) = None ->
     (txs_ahead MakeSigner mutation config start k <= length rest)%nat ->
     exists st',
       writeBatchFromDisk_loop ChainConfig MakeSigner fuel s config
         (mkApplyState buf mutation start) = Some (st', None)).
Proof.
  intros Habs. pose proof (getBlockBody_absent MakeSigner mutation config n Habs) as Hg.
  split; [exact Hg|]. split; [|split; [|split; [|split]]].
  - intros fuel it quit firstBlock sent Hq. cbn [producer_loop]. rewrite Hq, Hg. reflexivity.
  - intros F RWC fuel buf s. cbn [writeBatchFromDisk_loop a_mutation a_nextBlockNumber].
    rewrite Hg. reflexivity.
  - intros k fuel it quit start firstBlock Hf Hs Hn. subst n.
    apply (producer_loop_returns ChainConfig MakeSigner config mutation quit k fuel it start
             firstBlock [] Hf Hs Hg).
  - intros F RWC k fuel buf s start Hf Hk Hs Hn. subst n.
    apply (writeBatchFromDisk_loop_returns ChainConfig MakeSigner config s k fuel
             (mkApplyState buf mutation start) Hf Hk Hs Hg).
  - intros k fuel rsize rest buf s start Hf Hk Hs Hn Hpos Hfit Hall Hbuf Hdb Hcount. subst n.
    apply (writeBatchFromDisk_loop_ends_normally ChainConfig MakeSigner config
             (Z.to_nat rsize) ltac:(lia) ltac:(unfold max_int in *; lia) s k fuel
             (mkApplyState buf mutation start) rest Hf Hk Hs
             (fresh_reader_reads rsize rest buf Hpos Hfit Hall Hbuf) Hdb Hg Hcount).
Qed.

Lemma absent_block_ends_both_passes_witness :
  getBlockBody unit example_MakeSigner (NewBatch one_block_db) tt 2 = None /\
  producer_loop unit example_MakeSigner 1 0 (fun _ => false) (NewBatch one_block_db) tt 2 1 [] =
    Some ([], None, 2, 1) /\
  writeBatchFromDisk_loop unit example_MakeSigner 1 (mkStageState Senders 0) tt
    (mkApplyState (AddressBuffer.mk [] 4 (-1) three_records) (NewBatch one_block_db) 2) =
    Some (mkApplyState (AddressBuffer.mk [] 4 (-1) three_records) (NewBatch one_block_db) 2, None).
Proof.
  destruct (absent_block_ends_both_passes unit example_MakeSigner (NewBatch one_block_db) tt 2)
    as (Hg & Hp & Ha & _).
  - left. vm_compute. reflexivity.
  - split; [exact Hg|]. split.
    + apply Hp. reflexivity.
    + apply Ha.
Defined.

(** The producer sends the job of the one block of [one_block_db] and stops
    at block 2 with no error. *)
Example producer_stops_at_block_2 :
  producer_loop unit example_MakeSigner 5 0 (fun _ => false) (NewBatch one_block_db) tt 1 0 [] =
    Some ([mkJob example_signer example_body example_hash 1 None], None, 2, 1).
Proof. vm_compute. reflexivity. Qed.

(** The apply pass over [one_block_db] returns nil at block 2. *)
Example apply_pass_stops_at_block_2 :
  snd <$> writeBatchFromDisk unit example_MakeSigner 5
            (AddressBuffer.mk (repeat x00 80) 4 (-1) three_records)
            (mkStageState Senders 0) tt (NewBatch one_block_db) 0 = Some None.
Proof. vm_compute. reflexivity. Qed.

(** ** The apply pass *)

(** X3: when the loop over the transactions of a body ends without an
    error, [Next] was called once per transaction and returned no error, and
    the transactions carry the addresses it returned, in order. *)
Theorem setFroms_consumes {F : Type} `{ReadWriteCloser F} (txs : list Transaction) :
  forall (buf buf' : AddressBuffer.t F) (txs' : list Transaction),
    setFroms buf txs = (buf', inl txs') ->
    exists addrs : list Address,
      length addrs = length txs /\
      AddressBuffer.Next_n (length txs) buf = (buf', (fun a => (a, None)) <$> addrs) /\
      txs' = zip_with SetFrom addrs txs.
Proof.
  induction txs as [|tx txs IH]; intros buf buf' txs' Hs; cbn [setFroms] in Hs.
  - inversion Hs; subst. exists []. repeat split.
  - destruct (AddressBuffer.Next buf) as [buf1 [addr [e|]]] eqn:EN; [discriminate|].
    destruct (setFroms buf1 txs) as [buf2 [txs2|e]] eqn:ES; [|discriminate].
    inversion Hs; subst. destruct (IH _ _ _ ES) as (addrs & Hlen & Hn & Hz).
    exists (addr :: addrs). cbn [length AddressBuffer.Next_n]. rewrite EN, Hn.
    repeat split; [simpl; lia|]. rewrite Hz. reflexivity.
Qed.

Lemma setFroms_consumes_witness :
  exists addrs : list Address,
    length addrs = length (Transactions example_body) /\
    AddressBuffer.Next_n (length (Transactions example_body))
      (AddressBuffer.mk (repeat x00 80) 4 (-1) three_records) =
      (fst (setFroms (AddressBuffer.mk (repeat x00 80) 4 (-1) three_records)
              (Transactions example_body)),
       (fun a => (a, None)) <$> addrs) /\
    zip_with SetFrom [addr_of x01; addr_of x02] (Transactions example_body) =
      zip_with SetFrom addrs (Transactions example_body).
Proof.
  apply (setFroms_consumes (Transactions example_body)
           (AddressBuffer.mk (repeat x00 80) 4 (-1) three_records)).
  vm_compute. reflexivity.
Defined.

(** X4: an iteration of [writeBatchFromDisk] that fills the batch, over a
    database that does not fail, commits the batch with the body and with
    the number after the block of the body as the progress of the stage,
    and goes on with a new batch over the committed database. *)
Theorem commit_saves_the_next_block_number
    {ChainConfig : Type} (MakeSigner : ChainConfig -> Z -> Signer)
    {F : Type} `{ReadWriteCloser F}
    (fuel : nat) (s : StageState) (config : ChainConfig) (st : ApplyState)
    (job : senderRecoveryJob) (buf : AddressBuffer.t F) (txs : list Transaction) :
  getBlockBody ChainConfig MakeSigner (a_mutation st) config (a_nextBlockNumber st) = Some job ->
  setFroms (a_buf st) (Transactions (job_blockBody job)) = (buf, inl txs) ->
  IdealBatchSize (a_mutation st) <= BatchSize (a_mutation st) + 1 ->
  db_fault (m_db (a_mutation st)) = None ->
  let committed :=
    foldr apply_entry (m_db (a_mutation st))
      (ProgressEntry (Stage s) (u64 (a_nextBlockNumber st + 1))
         :: BodyEntry (a_nextBlockNumber st) (job_hash job) (mkBody txs)
         :: m_puts (a_mutation st)) in
  writeBatchFromDisk_loop ChainConfig MakeSigner (S fuel) s config st =
    writeBatchFromDisk_loop ChainConfig MakeSigner fuel s config
      (mkApplyState buf (NewBatch committed) (u64 (a_nextBlockNumber st + 1))) /\
  stageProgress committed !! Stage s = Some (u64 (a_nextBlockNumber st + 1)).
Proof.
  intros Hjob Hset Hfull Hdb. cbn zeta. split.
  - cbn [writeBatchFromDisk_loop]. rewrite Hjob, Hset.
    rewrite (getBlockBody_number _ _ _ _ _ _ Hjob).
    unfold WriteBody, IdealBatchSize, BatchSize, Update, SaveStageProgress, Commit in *.
    cbn [Put Mutation_Putter fst snd m_db m_puts] in *.
    replace (idealBatchSize (m_db (a_mutation st)) <=?
             len (BodyEntry (a_nextBlockNumber st) (job_hash job) (mkBody txs)
                    :: m_puts (a_mutation st))) with true.
    + rewrite Hdb. reflexivity.
    + symmetry. apply Z.leb_le. unfold len in *. cbn [length]. lia.
  - cbn [foldr apply_entry stageProgress]. apply lookup_insert_eq.
Qed.

Lemma commit_saves_the_next_block_number_witness :
  let st :=
    mkApplyState (AddressBuffer.mk (repeat x00 80) 4 (-1) three_records)
      (NewBatch one_block_db) 1 in
  let buf := fst (setFroms (a_buf st) (Transactions example_body)) in
  let txs := zip_with SetFrom [addr_of x01; addr_of x02] (Transactions example_body) in
  let committed :=
    foldr apply_entry one_block_db
      [ProgressEntry Senders (u64 (1 + 1)); BodyEntry 1 example_hash (mkBody txs)] in
  writeBatchFromDisk_loop unit example_MakeSigner 3 (mkStageState Senders 0) tt st =
    writeBatchFromDisk_loop unit example_MakeSigner 2 (mkStageState Senders 0) tt
      (mkApplyState buf (NewBatch committed) (u64 (1 + 1))) /\
  stageProgress committed !! Senders = Some (u64 (1 + 1)).
Proof.
  cbn zeta.
  apply (commit_saves_the_next_block_number example_MakeSigner 2 (mkStageState Senders 0) tt
           (mkApplyState (AddressBuffer.mk (repeat x00 80) 4 (-1) three_records)
              (NewBatch one_block_db) 1)
           (mkJob example_signer example_body example_hash 1 None)).
  - vm_compute. reflexivity.
  - vm_compute. reflexivity.
  - vm_compute. discriminate.
  - reflexivity.
Defined.

(** C5, at the input where the code leaves it: the apply pass over
    [one_block_db], from progress 0, with a spill file of three records. The
    body of block 1 takes the first two records, in order, and is committed
    (the third record stays unread); the progress cursor that is committed
    with it is 2, the number after the last block committed. *)
Theorem checkpoint_is_one_past_the_last_block :
  match
    writeBatchFromDisk unit example_MakeSigner 5
      (AddressBuffer.mk (repeat x00 80) 4 (-1) three_records)
      (mkStageState Senders 0) tt (NewBatch one_block_db) 0
  with
  | Some (st, e) =>
      e = None /\
      m_puts (a_mutation st) = [] /\
      (fun b : Body => tx_from <$> Transactions b) <$>
        bodies (m_db (a_mutation st)) !! (1, example_hash) =
        Some [Some (addr_of x01); Some (addr_of x02)] /\
      AddressBuffer.currentIdx (a_buf st) = 1 /\
      canonical (m_db (a_mutation st)) !! 2 = None /\
      stageProgress (m_db (a_mutation st)) !! Senders = Some 2
  | None => False
  end.
Proof. vm_compute. repeat split. Qed.

(** ** Unwind *)

(** C6 as stated fails: unwinding to block 4 below the progress 10 leaves
    the cursor at 10. *)
Lemma unwind_below_progress_keeps_cursor :
  4 < fst (GetStageProgress progress_10_db Senders) /\
  snd (unwindSendersStage progress_10_db 4) = None /\
  fst (GetStageProgress (fst (unwindSendersStage progress_10_db 4)) Senders) = 10 /\
  fst (GetStageProgress (fst (unwindSendersStage progress_10_db 4)) Senders) <> 4.
Proof. vm_compute. repeat split; discriminate. Qed.

(** C6, amended: for every unwind target [unwindSendersStage] leaves the
    progress cursor, and all else but the unwind marker, as they are. When
    the database does not fail it returns nil and the database is the one it
    was given with the unwind marker of the stage set to 0, whatever the
    target: the marker is written to the database directly when the target is
    at or beyond the progress and through a committed batch otherwise. When
    the database fails, it is unchanged and an error is returned. *)
Theorem unwind_only_resets_the_marker (stateDB : Store) (unwindPoint : Z) :
  let after := fst (unwindSendersStage stateDB unwindPoint) in
  stageProgress after = stageProgress stateDB /\
  GetStageProgress after Senders = GetStageProgress stateDB Senders /\
  canonical after = canonical stateDB /\
  bodies after = bodies stateDB /\
  match db_fault stateDB with
  | None =>
      snd (unwindSendersStage stateDB unwindPoint) = None /\
      after = apply_entry (UnwindEntry Senders 0) stateDB /\
      stageUnwind after = <[Senders := 0]> (stageUnwind stateDB)
  | Some _ =>
      snd (unwindSendersStage stateDB unwindPoint) <> None /\ after = stateDB
  end.
Proof.
  cbn zeta. unfold unwindSendersStage, GetStageProgress.
  destruct (db_fault stateDB) as [e|] eqn:Ef.
  - cbn [fst snd]. rewrite Ef. repeat split; discriminate.
  - destruct (default 0 (stageProgress stateDB !! Senders) <=? unwindPoint).
    + unfold SaveStageUnwind. cbn [Put Store_Putter]. rewrite Ef.
      cbn [fst snd apply_entry stageProgress canonical bodies stageUnwind db_fault].
      rewrite Ef. repeat split.
    + unfold SaveStageUnwind, Commit, NewBatch.
      cbn [Put Mutation_Putter m_db m_puts]. rewrite Ef.
      cbn [fst snd foldr apply_entry m_db stageProgress canonical bodies stageUnwind db_fault].
      rewrite Ef. repeat split.
Qed.

(** ** The recoverer goroutines *)

Lemma append_new_contexts_spec (k : nat) :
  forall g : Globals,
    numOfGoroutines (append_new_contexts k g) = numOfGoroutines g /\
    cryptoContexts (append_new_contexts k g) = cryptoContexts g ++ seq (contexts_made g) k /\
    contexts_made (append_new_contexts k g) = (contexts_made g + k)%nat.
Proof.
  induction k as [|k IH]; intros g; cbn [append_new_contexts seq].
  - rewrite app_nil_r, Nat.add_0_r. repeat split.
  - destruct (IH (mkGlobals (numOfGoroutines g) (cryptoContexts g ++ [contexts_made g])
                    (S (contexts_made g)))) as (Hn & Hc & Hm).
    rewrite Hn, Hc, Hm. cbn [numOfGoroutines cryptoContexts contexts_made].
    rewrite <- app_assoc. repeat split. lia.
Qed.

Lemma init_spec (NumCPU : Z) :
  numOfGoroutines (init NumCPU) = Z.min 3 NumCPU /\
  cryptoContexts (init NumCPU) = seq 0 (Z.to_nat (Z.min 3 NumCPU)) /\
  contexts_made (init NumCPU) = Z.to_nat (Z.min 3 NumCPU).
Proof.
  unfold init.
  assert (E : (if NumCPU <? 3 then NumCPU else 3) = Z.min 3 NumCPU).
  { destruct (NumCPU <? 3) eqn:E; [apply Z.ltb_lt in E|apply Z.ltb_ge in E]; lia. }
  rewrite E.
  destruct (append_new_contexts_spec (Z.to_nat (Z.min 3 NumCPU))
              (mkGlobals (Z.min 3 NumCPU) [] 0)) as (Hn & Hc & Hm).
  rewrite Hn, Hc, Hm. repeat split.
Qed.

(** C9 as stated fails: on a machine with 8 CPUs the stage as written starts
    no recoverer, and with its first phase switched on it starts 32, not
    [min(3, 8) = 3]. *)
Lemma recoverers_are_not_min_3_NumCPU :
  len (snd (start_recoverers onlySecondStage (init 8))) = 0 /\
  len (snd (start_recoverers onlySecondStage (init 8))) <> Z.min 3 8 /\
  len (snd (start_recoverers false (init 8))) = 32 /\
  len (snd (start_recoverers false (init 8))) <> Z.min 3 8.
Proof. vm_compute. repeat split; discriminate. Qed.

(** C9, amended: [init] sets [numOfGoroutines] to [min(3, NumCPU)] and makes
    that many cryptographic contexts, all different. The stage as written
    ([onlySecondStage] is true) starts no recoverer; its first phase, when
    switched on, overrides the number with 32, makes the contexts that are
    missing and starts 32 recoverers, each with a context of its own. *)
Theorem recoverers_started (NumCPU : Z) :
  1 <= NumCPU ->
  numOfGoroutines (init NumCPU) = Z.min 3 NumCPU /\
  len (cryptoContexts (init NumCPU)) = Z.min 3 NumCPU /\
  NoDup (cryptoContexts (init NumCPU)) /\
  snd (start_recoverers onlySecondStage (init NumCPU)) = [] /\
  len (snd (start_recoverers false (init NumCPU))) = 32 /\
  NoDup (snd (start_recoverers false (init NumCPU))) /\
  len (cryptoContexts (fst (start_recoverers false (init NumCPU)))) = 32.
Proof.
  intros Hcpu. destruct (init_spec NumCPU) as (Hn & Hc & Hm).
  split; [exact Hn|]. split; [rewrite Hc; unfold len; rewrite length_seq; lia|].
  split; [rewrite Hc; apply NoDup_seq|]. split; [reflexivity|].
  assert (Hgrown : cryptoContexts (fst (start_recoverers false (init NumCPU))) = seq 0 32
                   /\ snd (start_recoverers false (init NumCPU)) = seq 0 32).
  { unfold start_recoverers. cbn [negb fst snd].
    assert (Hlen : len (cryptoContexts (init NumCPU)) = Z.min 3 NumCPU)
      by (rewrite Hc; unfold len; rewrite length_seq; lia).
    rewrite Hlen. replace (Z.min 3 NumCPU <? 32) with true by (symmetry; apply Z.ltb_lt; lia).
    destruct (append_new_contexts_spec (Z.to_nat (32 - Z.min 3 NumCPU)) (init NumCPU))
      as (_ & Hc' & _).
    rewrite Hc', Hc, Hm.
    assert (Hseq : seq 0 (Z.to_nat (Z.min 3 NumCPU)) ++
                   seq (Z.to_nat (Z.min 3 NumCPU)) (Z.to_nat (32 - Z.min 3 NumCPU)) = seq 0 32).
    { replace 32%nat with (Z.to_nat (Z.min 3 NumCPU) + Z.to_nat (32 - Z.min 3 NumCPU))%nat by lia.
      rewrite seq_app. reflexivity. }
    unfold Context in *. rewrite Hseq. split; [reflexivity|].
    apply take_ge. rewrite length_seq. lia. }
  destruct Hgrown as [Hg Hw]. rewrite Hg, Hw.
  split; [reflexivity|]. split; [apply NoDup_seq|reflexivity].
Qed.

Lemma recoverers_started_witness :
  numOfGoroutines (init 8) = Z.min 3 8 /\
  len (cryptoContexts (init 8)) = Z.min 3 8 /\
  NoDup (cryptoContexts (init 8)) /\
  snd (start_recoverers onlySecondStage (init 8)) = [] /\
  len (snd (start_recoverers false (init 8))) = 32 /\
  NoDup (snd (start_recoverers false (init 8))) /\
  len (cryptoContexts (fst (start_recoverers false (init 8)))) = 32.
Proof. apply (recoverers_started 8). lia. Defined.

(** ** The row test and the order of arrival *)

Lemma checkRow_complete (cur : Z) (buffer : list TxsFroms) :
  forall i : Z,
    (forall (k : nat) (b : TxsFroms),
       i + Z.of_nat k <= toSort -> buffer !! k = Some b ->
       blockNumber b = u64 (cur + (i + Z.of_nat k))) ->
    checkRow cur i buffer = true.
Proof.
  induction buffer as [|y l IH]; intros i Hrun; [reflexivity|].
  cbn [checkRow]. destruct (toSort <? i) eqn:Ei; [reflexivity|].
  apply Z.ltb_ge in Ei.
  rewrite (Hrun 0%nat y) by (simpl; (lia || reflexivity)).
  replace (cur + (i + Z.of_nat 0)) with (cur + i) by lia.
  rewrite Z.eqb_refl. cbn [negb].
  apply IH. intros k b Hk Hl.
  rewrite (Hrun (S k) b) by (simpl; (lia || assumption)). f_equal. lia.
Qed.

(** X5: the row test holds exactly when the sorted reorder buffer has at
    least [toSort] entries and every entry at an index from 0 to [toSort],
    that bound included, is the block [currentBlock] plus its index (in
    [uint64]): the test reads one entry more than the window it releases. *)
Theorem hasRow_iff (buffer : list TxsFroms) (currentBlock : Z) :
  hasRow buffer currentBlock = true <->
  toSort <= len buffer /\
  forall (k : nat) (b : TxsFroms),
    Z.of_nat k <= toSort -> buffer !! k = Some b ->
    blockNumber b = u64 (currentBlock + Z.of_nat k).
Proof.
  unfold hasRow. destruct (len buffer <? toSort) eqn:E.
  - apply Z.ltb_lt in E. split; [discriminate|]. intros [Hl _]. lia.
  - apply Z.ltb_ge in E. split.
    + intros Hc. split; [exact E|]. intros k b Hk Hl.
      rewrite (checkRow_spec currentBlock buffer 0 Hc k b) by (lia || assumption).
      f_equal.
    + intros [_ Hrun]. apply checkRow_complete. intros k b Hk Hl.
      rewrite (Hrun k b) by (lia || assumption). f_equal.
Qed.

(** The blocks 5 ... 1004 are a row; followed by block 1006 they are not,
    followed by block 1005 they are. *)
Example row_test_reads_one_entry_more :
  let run := (fun n : nat => mkTxsFroms (5 + Z.of_nat n) [] None) <$> seq 0 1000 in
  hasRow run 5 = true /\
  hasRow (run ++ [mkTxsFroms 1006 [] None]) 5 = false /\
  hasRow (run ++ [mkTxsFroms 1005 [] None]) 5 = true.
Proof. vm_compute. repeat split. Qed.

Lemma block_range_app (first : Z) (n m : nat) :
  block_range first (n + m) = block_range first n ++ block_range (first + Z.of_nat n) m.
Proof.
  unfold block_range. rewrite seq_app, fmap_app. f_equal.
  replace (seq (0 + n) m) with (Nat.add n <$> seq 0 m)
    by (rewrite fmap_add_seq; f_equal; lia).
  rewrite <- list_fmap_compose.
  apply list_fmap_ext. intros i x _. cbn. lia.
Qed.

Lemma block_range_sorted (first : Z) (n : nat) : Sorted Z.le (block_range first n).
Proof.
  revert first. induction n as [|n IH]; intros first; [constructor|].
  change (S n) with (1 + n)%nat. rewrite block_range_app. cbn [block_range seq fmap list_fmap app].
  constructor; [apply IH|].
  destruct n; cbn; constructor. lia.
Qed.

Lemma elem_of_block_range (first : Z) (n : nat) (x : Z) :
  x ∈ block_range first n -> first <= x < first + Z.of_nat n.
Proof.
  unfold block_range. intros Hx. apply list_elem_of_fmap in Hx as (i & -> & Hi).
  apply elem_of_seq in Hi. lia.
Qed.

Section ArrivalOrder.
Import AddressBuffer.

Lemma writer_step_plain (firstBlock : Z) (st : WriterState MemFile) (ev : Recv) :
  plain ev -> snd (writer_step firstBlock st ev) = None.
Proof.
  intros (He & Hq & Hd). unfold writer_step. rewrite He, Hq, Hd.
  destruct (negb (hasRow _ _)); [reflexivity|].
  edestruct writeJobs_spill as (st2 & -> & _). reflexivity.
Qed.

(** With no error and no closed channel on the way, the loop takes every
    result in. *)
Lemma writer_loop_takes_all (firstBlock : Z) (d0 : list byte) (evs : list Recv) :
  forall (received : list TxsFroms) (st : WriterState MemFile) (flushed : list TxsFroms),
    Forall plain evs ->
    writer_inv firstBlock d0 received st flushed ->
    snd (writer_loop firstBlock evs st) = None /\
    exists flushed' : list TxsFroms,
      writer_inv firstBlock d0 (received ++ (res <$> evs))
        (fst (writer_loop firstBlock evs st)) flushed'.
Proof.
  induction evs as [|ev evs IH]; intros received st flushed Hall Hinv.
  - split; [reflexivity|]. exists flushed. simpl. rewrite app_nil_r. exact Hinv.
  - inversion Hall as [|? ? Hev Hall']; subst.
    destruct (writer_step_inv firstBlock d0 received st flushed ev Hinv)
      as (st' & k & flushed' & Hstep & Hinv').
    pose proof (writer_step_plain firstBlock st ev Hev) as Hk.
    rewrite Hstep in Hk. cbn [snd] in Hk. subst k.
    cbn [writer_loop]. rewrite Hstep.
    destruct (IH _ _ _ Hall' Hinv') as (Hr & fl & Hfl).
    split; [exact Hr|]. exists fl. cbn [fmap list_fmap]. rewrite <- app_assoc in Hfl. exact Hfl.
Qed.

Lemma writer_init_inv (firstBlock : Z) (a : t MemFile) :
  writer_inv firstBlock (data (rwc a) ++ buf a) [] (writer_init a) [].
Proof.
  unfold writer_inv, writer_init, spill.
  cbn [w_buf w_isFirst w_buffer app].
  split; [unfold bytes_of; simpl; rewrite app_nil_r; reflexivity|].
  split; [intros k b Hk; rewrite lookup_nil in Hk; discriminate|].
  split; [reflexivity|]. split; [discriminate|].
  split; [exists 0%nat; reflexivity|reflexivity].
Qed.

(** The loop over results that arrive in any order: what it flushed and
    what the tail flush will add are, together, the results in the order of
    their blocks. *)
Lemma writer_loop_sorted (a : t MemFile) (firstBlock first : Z) (evs : list Recv) :
  Forall plain evs ->
  blockNumber <$> (res <$> evs) ≡ₚ block_range first (length evs) ->
  0 <= firstBlock <= first -> first + len evs <= 2 ^ 64 ->
  exists sorted : list TxsFroms,
    sorted ≡ₚ res <$> evs /\
    blockNumber <$> sorted = block_range first (length evs) /\
    snd (writer_loop firstBlock evs (writer_init a)) = None /\
    spill (fst (writer_loop firstBlock evs (writer_init a))) ++
    bytes_of (SliceStable (w_buffer (fst (writer_loop firstBlock evs (writer_init a))))) =
      (data (rwc a) ++ buf a) ++ bytes_of sorted.
Proof.
  intros Hplain Hrange Hfb Hmax.
  destruct (writer_loop_takes_all firstBlock _ evs [] _ [] Hplain (writer_init_inv firstBlock a))
    as (Hr & flushed & Hinv).
  cbn [app] in Hinv.
  destruct (writer_loop firstBlock evs (writer_init a)) as [st r]. cbn [fst snd] in *.
  subst r.
  destruct Hinv as (Hsp & Hio & _ & _ & _ & Hperm).
  exists (flushed ++ SliceStable (w_buffer st)).
  assert (Hperm' : flushed ++ SliceStable (w_buffer st) ≡ₚ res <$> evs)
    by (rewrite SliceStable_perm; exact Hperm).
  split; [exact Hperm'|].
  split; [|split; [reflexivity|]]; cycle 1.
  { rewrite Hsp, bytes_of_app, <- !app_assoc. reflexivity. }
  set (N := length evs) in *.
  assert (HlenN : (length flushed + length (SliceStable (w_buffer st)) = N)%nat).
  { apply Permutation_length in Hperm'. rewrite length_app, length_fmap in Hperm'. exact Hperm'. }
  assert (HA : blockNumber <$> flushed = block_range first (length flushed)).
  { rewrite (in_order_fmap firstBlock flushed Hio). unfold block_range.
    destruct flushed as [|b0 fl] eqn:Efl; [reflexivity|].
    assert (Hb0 : blockNumber b0 = firstBlock).
    { rewrite (Hio 0%nat b0 eq_refl). replace (firstBlock + Z.of_nat 0) with firstBlock by lia.
      apply u64_small. unfold len in Hmax. cbn [length] in HlenN. lia. }
    assert (Hin : blockNumber b0 ∈ block_range first N).
    { rewrite <- Hrange. apply list_elem_of_fmap. exists b0. split; [reflexivity|].
      rewrite <- Hperm'. apply elem_of_app. left. apply list_elem_of_here. }
    apply elem_of_block_range in Hin.
    replace first with firstBlock by lia.
    apply list_fmap_ext. intros i x Hx. apply lookup_seq in Hx as [-> Hi].
    apply u64_small. unfold len in Hmax. cbn [length] in *. lia. }
  assert (HB : blockNumber <$> SliceStable (w_buffer st) =
               block_range (first + Z.of_nat (length flushed))
                 (length (SliceStable (w_buffer st)))).
  { apply (Sorted_unique Z.le).
    - apply (Sorted_fmap _ _ _ _ (fun x y (Hxy : blockNumber x <= blockNumber y) => Hxy)).
      apply SliceStable_sorted.
    - apply block_range_sorted.
    - apply (Permutation_app_inv_l (blockNumber <$> flushed)).
      rewrite <- fmap_app, Hperm', Hrange, HA, <- block_range_app, HlenN. reflexivity. }
  rewrite fmap_app, HA, HB, <- block_range_app, HlenN. reflexivity.
Qed.

(** X6: when the results of the blocks [first], [first + 1], ..., one for
    each, arrive in any order, with no error and no channel closed, and the
    first block given to the writer is [first] or below it, the writer
    returns nil and the file holds, after what it held, the addresses of
    all the results in the order of their blocks. *)
Theorem writer_sorts_any_arrival_order (a : t MemFile) (firstBlock first : Z) (evs : list Recv) :
  Forall plain evs ->
  blockNumber <$> (res <$> evs) ≡ₚ block_range first (length evs) ->
  0 <= firstBlock <= first -> first + len evs <= 2 ^ 64 ->
  exists sorted : list TxsFroms,
    sorted ≡ₚ res <$> evs /\
    blockNumber <$> sorted = block_range first (length evs) /\
    snd (writeOnDiskBatch a firstBlock evs) = Returned None /\
    data (rwc (w_buf (fst (writeOnDiskBatch a firstBlock evs)))) =
      (data (rwc a) ++ buf a) ++ bytes_of sorted /\
    buf (w_buf (fst (writeOnDiskBatch a firstBlock evs))) = [].
Proof.
  intros Hplain Hrange Hfb Hmax.
  destruct (writer_loop_sorted a firstBlock first evs Hplain Hrange Hfb Hmax)
    as (sorted & Hperm & Hbn & Hr & Hfile).
  exists sorted. split; [exact Hperm|]. split; [exact Hbn|].
  unfold writeOnDiskBatch.
  destruct (writer_loop firstBlock evs (writer_init a)) as [st r]. cbn [fst snd] in Hr, Hfile.
  subst r.
  destruct (writer_deferred_MemFile st None) as (st' & -> & Hd & Hb). cbn [fst snd].
  split; [reflexivity|]. split; [rewrite Hd; exact Hfile|exact Hb].
Qed.

Lemma writer_sorts_any_arrival_order_witness :
  exists sorted : list TxsFroms,
    sorted ≡ₚ res <$> shuffled_results /\
    blockNumber <$> sorted = block_range 5 (length shuffled_results) /\
    snd (writeOnDiskBatch (mk [] 4 (-1) (mkMemFile [] 0)) 5 shuffled_results) = Returned None /\
    data (rwc (w_buf (fst (writeOnDiskBatch (mk [] 4 (-1) (mkMemFile [] 0)) 5 shuffled_results)))) =
      (data (rwc (mk [] 4 (-1) (mkMemFile [] 0))) ++ buf (mk [] 4 (-1) (mkMemFile [] 0))) ++
      bytes_of sorted /\
    buf (w_buf (fst (writeOnDiskBatch (mk [] 4 (-1) (mkMemFile [] 0)) 5 shuffled_results))) = [].
Proof.
  apply (writer_sorts_any_arrival_order (mk [] 4 (-1) (mkMemFile [] 0)) 5 5 shuffled_results).
  - repeat constructor.
  - cbn. apply (Permutation_cons_append [5; 6] 7).
  - lia.
  - unfold len. cbn. lia.
Defined.

(** The file after [shuffled_results]: the addresses of the blocks 5, 6 and
    7, in this order. *)
Example shuffled_results_file :
  data (rwc (w_buf (fst (writeOnDiskBatch (mk [] 4 (-1) (mkMemFile [] 0)) 5 shuffled_results)))) =
    addr_of x05 ++ addr_of x06 ++ addr_of x07.
Proof. vm_compute. reflexivity. Qed.

End ArrivalOrder.

(** ** What the file holds when the writer stops *)

Section WriterStops.
Import AddressBuffer.

Lemma writer_loop_plain_prefix (firstBlock : Z) (pre rest : list Recv) :
  forall st : WriterState MemFile,
    Forall plain pre ->
    writer_loop firstBlock (pre ++ rest) st =
      writer_loop firstBlock rest (fst (writer_loop firstBlock pre st)) /\
    (w_err st = None -> w_err (fst (writer_loop firstBlock pre st)) = None).
Proof.
  induction pre as [|ev pre IH]; intros st Hall; [split; [reflexivity|auto]|].
  apply Forall_cons in Hall as [Hev Hall'].
  pose proof (writer_step_plain firstBlock st ev Hev) as Hk.
  cbn [app writer_loop].
  destruct (writer_step firstBlock st ev) as [st' [r|]] eqn:Es; [discriminate|].
  destruct (IH st' Hall') as [H1 H2]. split; [exact H1|].
  intros Herr. apply H2. apply (writer_step_err_nil _ _ _ _ Es). exact Herr.
Qed.

Lemma writer_step_stop (firstBlock : Z) (st : WriterState MemFile) (ev : Recv) :
  ~ plain ev -> w_err st = None ->
  snd (writer_step firstBlock st ev) = Some (stop_value ev) /\
  w_buf (fst (writer_step firstBlock st ev)) = w_buf st /\
  w_buffer (fst (writer_step firstBlock st ev)) = w_buffer st.
Proof.
  intros Hnp Herr. unfold writer_step, stop_value.
  set (st1 := if w_isFirst st then _ else st).
  assert (H1 : w_err st1 = None /\ w_buf st1 = w_buf st /\ w_buffer st1 = w_buffer st).
  { unfold st1. destruct (w_isFirst st); repeat split; assumption. }
  clearbody st1. destruct H1 as (He1 & Hb1 & Hbuf1).
  destruct (err (res ev)) eqn:Ee.
  { cbn [fst snd]. rewrite He1. repeat split; assumption. }
  destruct (quit_closed ev) eqn:Eq.
  { cbn [fst snd]. repeat split; assumption. }
  destruct (done_closed ev) eqn:Ed.
  { cbn [fst snd]. repeat split; assumption. }
  exfalso. apply Hnp. repeat split; assumption.
Qed.

(** X20: when the writer stops at a result (one that carries an error, or
    one at which [quitCh] or [doneCh] is closed) after results it took in
    with none of these, the file holds, after what it held, the addresses
    of all the results taken before, each once, and nothing else: the
    result it stopped at is dropped and those after it are not received.
    It returns nil for a result with an error or [doneCh] closed, and
    [ErrStopped] for [quitCh] closed. *)
Theorem writer_keeps_what_it_took
    (a : t MemFile) (firstBlock : Z) (pre : list Recv) (ev : Recv) (post : list Recv) :
  Forall plain pre -> ~ plain ev ->
  exists taken : list TxsFroms,
    taken ≡ₚ res <$> pre /\
    data (rwc (w_buf (fst (writeOnDiskBatch a firstBlock (pre ++ ev :: post))))) =
      (data (rwc a) ++ buf a) ++ bytes_of taken /\
    buf (w_buf (fst (writeOnDiskBatch a firstBlock (pre ++ ev :: post)))) = [] /\
    snd (writeOnDiskBatch a firstBlock (pre ++ ev :: post)) = Returned (stop_value ev).
Proof.
  intros Hpre Hev.
  destruct (writer_loop_takes_all firstBlock _ pre [] _ [] Hpre (writer_init_inv firstBlock a))
    as (_ & flushed & Hinv).
  cbn [app] in Hinv.
  destruct (writer_loop_plain_prefix firstBlock pre (ev :: post) (writer_init a) Hpre)
    as [Hsplit Herr].
  specialize (Herr eq_refl).
  unfold writeOnDiskBatch. rewrite Hsplit.
  set (st := fst (writer_loop firstBlock pre (writer_init a))) in *.
  destruct (writer_step_stop firstBlock st ev Hev Herr) as (Hk & Hb & Hbuf).
  cbn [writer_loop].
  destruct (writer_step firstBlock st ev) as [st1 k]. cbn [fst snd] in Hk, Hb, Hbuf. subst k.
  destruct (writer_deferred_MemFile st1 (stop_value ev)) as (st' & -> & Hd & Hbe).
  cbn [fst snd].
  destruct Hinv as (Hsp & _ & _ & _ & _ & Hperm).
  exists (flushed ++ SliceStable (w_buffer st)).
  split; [rewrite SliceStable_perm; exact Hperm|].
  split; [|split; [exact Hbe|reflexivity]].
  rewrite Hd. unfold spill in *. rewrite Hb, Hbuf, Hsp, bytes_of_app, <- !app_assoc. reflexivity.
Qed.

Lemma writer_keeps_what_it_took_witness :
  exists taken : list TxsFroms,
    taken ≡ₚ res <$> shuffled_results /\
    data (rwc (w_buf (fst (writeOnDiskBatch (mk [] 4 (-1) (mkMemFile [] 0)) 5
                             (shuffled_results ++
                              mkRecv (mkTxsFroms 8 [] (Some (ext_error 7))) false false
                                :: []))))) =
      (data (rwc (mk [] 4 (-1) (mkMemFile [] 0))) ++ buf (mk [] 4 (-1) (mkMemFile [] 0))) ++
      bytes_of taken /\
    buf (w_buf (fst (writeOnDiskBatch (mk [] 4 (-1) (mkMemFile [] 0)) 5
                       (shuffled_results ++
                        mkRecv (mkTxsFroms 8 [] (Some (ext_error 7))) false false :: [])))) =
      [] /\
    snd (writeOnDiskBatch (mk [] 4 (-1) (mkMemFile [] 0)) 5
           (shuffled_results ++ mkRecv (mkTxsFroms 8 [] (Some (ext_error 7))) false false :: [])) =
      Returned (stop_value (mkRecv (mkTxsFroms 8 [] (Some (ext_error 7))) false false)).
Proof.
  apply (writer_keeps_what_it_took (mk [] 4 (-1) (mkMemFile [] 0)) 5 shuffled_results
           (mkRecv (mkTxsFroms 8 [] (Some (ext_error 7))) false false) []).
  - repeat constructor.
  - intros (He & _). discriminate.
Defined.

End WriterStops.

(** ** One recoverer *)

Lemma recoverFrom_outcome (cryptoContext : Context) (blockBody : Body) (signer : Signer) :
  (Forall (recoverable cryptoContext signer) (Transactions blockBody) /\
   recoverFrom cryptoContext blockBody signer =
     (Some (sender_of cryptoContext signer <$> Transactions blockBody), None)) \/
  (~ Forall (recoverable cryptoContext signer) (Transactions blockBody) /\
   exists e, recoverFrom cryptoContext blockBody signer = (None, Some e) /\ e <> ErrStopped).
Proof.
  unfold recoverFrom. set (txs := Transactions blockBody).
  destruct (first_not_recoverable cryptoContext signer txs)
    as [Hall|(pre & tx & post & Htxs & Hpre & Hbad)].
  - left. split; [exact Hall|].
    apply (recoverFrom_loop_recoverable cryptoContext signer txs [] _ Hall).
    apply repeat_length.
  - right. split.
    + intros Hall. rewrite Htxs in Hall. apply Forall_app in Hall as [_ Hall].
      inversion Hall as [|? ? [Hm Hs] _]; subst.
      destruct Hbad as [Hmis|[_ [e He]]]; [contradiction|congruence].
    + rewrite Htxs.
      destruct (recoverFrom_loop_prefix cryptoContext signer pre (tx :: post) []
                  (repeat zeroAddress (length (pre ++ tx :: post))) Hpre (repeat_length _ _))
        as (done' & rest' & _ & Heq).
      cbn [length app] in Heq. rewrite Heq. cbn [recoverFrom_loop].
      destruct Hbad as [Hmis|[Hm [e He]]].
      * apply mismatch_test in Hmis. rewrite Hmis. eexists. split; [reflexivity|discriminate].
      * destruct (tx_protected tx && negb (tx_chainID tx =? signer_ChainID signer)) eqn:E.
        { apply mismatch_test in E. contradiction. }
        destruct (SenderWithContext signer cryptoContext tx) as [from e']. simpl in He. subst e'.
        eexists. split; [reflexivity|discriminate].
Qed.

(** X7: what a recoverer sends on [out]: one result for each job of a
    front part of what it receives, in the order of the jobs and with the
    block number of the job; with the sender of every transaction and no
    error when all of them pass, and with no address and an error other than
    [ErrStopped] otherwise. [quit] was open at each of these jobs, and the
    recoverer stops short of a job only when that job is nil or [quit] is
    closed at it, sending nothing for it nor for any job after it. *)
Theorem recoverSenders_results (cryptoContext : Context) (quit : nat -> bool)
    (jobs : list (option senderRecoveryJob)) :
  forall it : nat,
  exists js : list senderRecoveryJob,
    (Some <$> js) `prefix_of` jobs /\
    Forall2 (result_for cryptoContext) (recoverSenders cryptoContext it quit jobs) js /\
    (forall i : nat, (i < length js)%nat -> quit (it + i)%nat = false) /\
    ((length js < length jobs)%nat ->
     jobs !! length js = Some None \/ quit (it + length js)%nat = true).
Proof.
  induction jobs as [|[job|] jobs IH]; intros it.
  - exists []. split; [apply prefix_nil|]. split; [constructor|].
    split; [intros i Hi; simpl in Hi; lia|simpl; lia].
  - cbn [recoverSenders blockNumber froms err].
    destruct (quit it) eqn:Eq.
    + exists []. split; [apply prefix_nil|].
      replace (is_ErrStopped _) with true
        by (destruct (recoverFrom _ _ _) as [fs [e|]]; reflexivity).
      split; [constructor|]. split; [intros i Hi; simpl in Hi; lia|].
      intros _. right. cbn [length]. rewrite Nat.add_0_r. exact Eq.
    + destruct (IH (S it)) as (js & Hpre & Hres & Hq & Hstop).
      assert (Hone : exists r, result_for cryptoContext r job /\
                (let r0 :=
                   match recoverFrom cryptoContext (job_blockBody job) (job_signer job) with
                   | (_, Some e) => mkTxsFroms (job_nextBlockNumber job) [] (Some e)
                   | (fs, None) => mkTxsFroms (job_nextBlockNumber job) (default [] fs) None
                   end in
                 r0 = r /\ is_ErrStopped (err r0) = false)).
      { destruct (recoverFrom_outcome cryptoContext (job_blockBody job) (job_signer job))
          as [[Hall ->]|[Hn (e & -> & He)]].
        - eexists. split; [|split; reflexivity]. split; [reflexivity|].
          split; [intros _; split; reflexivity|intros Hneg; contradiction].
        - eexists. split; [|split; [reflexivity|destruct e; try reflexivity; contradiction]].
          split; [reflexivity|]. split; [intros Hall; contradiction|].
          intros _. split; [|reflexivity]. exists e. split; [reflexivity|exact He]. }
      destruct Hone as (r & Hr & Hr0 & Hns). cbn zeta in Hr0, Hns. rewrite Hr0 in Hns.
      rewrite Hr0, Hns.
      exists (job :: js). split; [cbn [fmap list_fmap]; apply prefix_cons; exact Hpre|].
      split; [constructor; assumption|]. split.
      * intros [|i] Hi; [rewrite Nat.add_0_r; exact Eq|].
        replace (it + S i)%nat with (S it + i)%nat by lia. apply Hq. simpl in Hi. lia.
      * cbn [length]. intros Hlt.
        replace (it + S (length js))%nat with (S it + length js)%nat by lia.
        cbn [lookup list_lookup]. apply Hstop. lia.
  - exists []. split; [apply prefix_nil|]. split; [constructor|].
    split; [intros i Hi; simpl in Hi; lia|]. intros _. left. reflexivity.
Qed.

(** A recoverer over the job of a good body, the job of a body whose second
    transaction cannot be recovered, a nil job and one more job: it sends
    two results and stops at the nil job; with [quit] closed at the second
    job it sends the first result only. *)
Example recoverSenders_example :
  let good := mkJob example_signer example_body example_hash 1 None in
  let bad :=
    mkJob example_signer (mkBody [example_tx x0a true 1; example_tx x00 false 0])
      example_hash 2 None in
  recoverSenders example_ctx 0 (fun _ => false) [Some good; Some bad; None; Some good] =
    [mkTxsFroms 1 [addr_of x0a; addr_of x0b] None;
     mkTxsFroms 2 []
       (Some (errors_Wrap (ext_error 1) (recovering_msg (example_tx x00 false 0))))] /\
  recoverSenders example_ctx 0 (fun it => Nat.eqb it 1) [Some good; Some bad; None; Some good] =
    [mkTxsFroms 1 [addr_of x0a; addr_of x0b] None].
Proof. split; reflexivity. Qed.

(** ** The producer *)

Section Producer.
Variable ChainConfig : Type.
Variable MakeSigner : ChainConfig -> Z -> Signer.
Variable config : ChainConfig.

Lemma producer_loop_sent (m : Mutation) (quit : nat -> bool) :
  forall (fuel it : nat) (next firstBlock : Z) (sent all : list senderRecoveryJob)
         (e : option error) (n' fb' : Z),
    0 <= next < 2 ^ 64 ->
    producer_loop ChainConfig MakeSigner fuel it quit m config next firstBlock sent =
      Some (all, e, n', fb') ->
    exists jobs : list senderRecoveryJob,
      all = sent ++ jobs /\
      (forall (i : nat) (job : senderRecoveryJob),
         jobs !! i = Some job ->
         job_nextBlockNumber job = u64 (next + Z.of_nat i) /\
         getBlockBody ChainConfig MakeSigner m config (u64 (next + Z.of_nat i)) = Some job /\
         quit (it + i)%nat = false) /\
      n' = u64 (next + len jobs) /\
      match e with
      | None => quit (it + length jobs)%nat = false /\
                getBlockBody ChainConfig MakeSigner m config n' = None
      | Some e => e = ErrStopped /\ quit (it + length jobs)%nat = true
      end /\
      (firstBlock <> 0 -> fb' = firstBlock) /\
      (firstBlock = 0 -> next <> 0 -> fb' = match jobs with [] => 0 | _ :: _ => next end).
Proof.
  induction fuel as [|fuel IH]; intros it next firstBlock sent all e n' fb' Hn Hrun;
    [discriminate|].
  cbn [producer_loop] in Hrun. destruct (quit it) eqn:Eq.
  { inversion Hrun; subst. exists []. rewrite app_nil_r. unfold len. cbn [length].
    rewrite Nat.add_0_r, Z.add_0_r, u64_small by exact Hn.
    split; [reflexivity|]. split; [intros i job Hi; rewrite lookup_nil in Hi; discriminate|].
    split; [reflexivity|]. split; [split; [reflexivity|exact Eq]|].
    split; [intros _; reflexivity|intros -> _; reflexivity]. }
  destruct (getBlockBody ChainConfig MakeSigner m config next) as [job|] eqn:Ejob.
  - pose proof (getBlockBody_number _ _ _ _ _ _ Ejob) as Hnum.
    destruct (IH _ _ _ _ _ _ _ _ (u64_range _) Hrun)
      as (jobs & Hall & Hjobs & Hn' & He & Hfb1 & Hfb2).
    exists (job :: jobs). rewrite Hall, <- app_assoc. split; [reflexivity|].
    split; [|split; [|split; [|split]]].
    + intros [|i] j Hi.
      * cbn in Hi. inversion Hi; subst j. rewrite Nat.add_0_r, Z.add_0_r, u64_small by exact Hn.
        repeat split; assumption.
      * cbn in Hi. destruct (Hjobs i j Hi) as (H1 & H2 & H3).
        rewrite u64_succ_add in H1, H2.
        replace (it + S i)%nat with (S it + i)%nat by lia. repeat split; assumption.
    + rewrite Hn'. unfold len. cbn [length]. rewrite u64_add_l. f_equal. lia.
    + cbn [length]. replace (it + S (length jobs))%nat with (S it + length jobs)%nat by lia.
      exact He.
    + intros Hne. rewrite Hfb1.
      * apply Z.eqb_neq in Hne. rewrite Hne. reflexivity.
      * destruct (firstBlock =? 0) eqn:E; [|apply Z.eqb_neq in E; exact E].
        apply Z.eqb_eq in E. contradiction.
    + intros -> Hnz. cbn [Z.eqb] in Hfb1. rewrite Hnum in Hfb1. apply Hfb1. exact Hnz.
  - inversion Hrun; subst. exists []. rewrite app_nil_r. unfold len. cbn [length].
    rewrite Nat.add_0_r, Z.add_0_r, u64_small by exact Hn.
    split; [reflexivity|]. split; [intros i job Hi; rewrite lookup_nil in Hi; discriminate|].
    split; [reflexivity|]. split; [split; [exact Eq|exact Ejob]|].
    split; [intros _; reflexivity|intros -> _; reflexivity].
Qed.

(** X8: when the producer loop returns, the jobs it sent are those of the
    blocks [next], [next + 1], ... (in [uint64]), one for each and in this
    order, each as [getBlockBody] reads it, with [quitCh] open at each; the
    block number it ends with is the one after the last job; it sends no
    error exactly when it stopped at a block that is absent, and
    [ErrStopped] when it found [quitCh] closed; and [firstBlock], when it
    was not 0, is kept, and when it was 0 (and [next] is not) becomes the
    number of the first block sent. *)
Theorem producer_sends_consecutive_blocks
    (m : Mutation) (quit : nat -> bool) (fuel it : nat) (next firstBlock : Z)
    (jobs : list senderRecoveryJob) (e : option error) (n' fb' : Z) :
  0 <= next < 2 ^ 64 ->
  producer_loop ChainConfig MakeSigner fuel it quit m config next firstBlock [] =
    Some (jobs, e, n', fb') ->
  (forall (i : nat) (job : senderRecoveryJob),
     jobs !! i = Some job ->
     job_nextBlockNumber job = u64 (next + Z.of_nat i) /\
     getBlockBody ChainConfig MakeSigner m config (u64 (next + Z.of_nat i)) = Some job /\
     quit (it + i)%nat = false) /\
  n' = u64 (next + len jobs) /\
  match e with
  | None => quit (it + length jobs)%nat = false /\
            getBlockBody ChainConfig MakeSigner m config n' = None
  | Some e => e = ErrStopped /\ quit (it + length jobs)%nat = true
  end /\
  (firstBlock <> 0 -> fb' = firstBlock) /\
  (firstBlock = 0 -> next <> 0 -> fb' = match jobs with [] => 0 | _ :: _ => next end).
Proof.
  intros Hn Hrun.
  destruct (producer_loop_sent m quit fuel it next firstBlock [] jobs e n' fb' Hn Hrun)
    as (jobs' & Hall & Hrest).
  cbn [app] in Hall. subst jobs'. exact Hrest.
Qed.

End Producer.

Lemma producer_sends_consecutive_blocks_witness :
  (forall (i : nat) (job : senderRecoveryJob),
     [mkJob example_signer example_body example_hash 1 None] !! i = Some job ->
     job_nextBlockNumber job = u64 (1 + Z.of_nat i) /\
     getBlockBody unit example_MakeSigner (NewBatch one_block_db) tt (u64 (1 + Z.of_nat i)) =
       Some job /\
     (fun _ : nat => false) (0 + i)%nat = false) /\
  2 = u64 (1 + len [mkJob example_signer example_body example_hash 1 None]) /\
  ((fun _ : nat => false)
     (0 + length [mkJob example_signer example_body example_hash 1 None])%nat = false /\
   getBlockBody unit example_MakeSigner (NewBatch one_block_db) tt 2 = None) /\
  (0 <> 0 -> 1 = 0) /\
  (0 = 0 -> 1 <> 0 -> 1 = 1).
Proof.
  apply (producer_sends_consecutive_blocks unit example_MakeSigner tt (NewBatch one_block_db)
           (fun _ => false) 5 0 1 0 [mkJob example_signer example_body example_hash 1 None]
           None 2 1).
  - lia.
  - vm_compute. reflexivity.
Defined.

(** ** The read window, slot by slot *)

Lemma Next_n_app {F : Type} `{ReadWriteCloser F} (n m : nat) :
  forall a : AddressBuffer.t F,
    AddressBuffer.Next_n (n + m) a =
      (fst (AddressBuffer.Next_n m (fst (AddressBuffer.Next_n n a))),
       snd (AddressBuffer.Next_n n a) ++
       snd (AddressBuffer.Next_n m (fst (AddressBuffer.Next_n n a)))).
Proof.
  induction n as [|n IH]; intros a; cbn [Nat.add AddressBuffer.Next_n].
  - cbn [fst snd app]. destruct (AddressBuffer.Next_n m a); reflexivity.
  - destruct (AddressBuffer.Next a) as [a1 r]. rewrite IH.
    destruct (AddressBuffer.Next_n n a1) as [a2 rs]. cbn [fst snd].
    destruct (AddressBuffer.Next_n m a2) as [a3 rs']. reflexivity.
Qed.

Lemma drop_concat_addresses (k : nat) (l : list Address) :
  Forall is_address l -> drop (20 * k) (concat l) = concat (drop k l).
Proof.
  intros Hl. rewrite (concat_take_drop k l) at 1.
  destruct (le_lt_dec k (length l)) as [Hk|Hk].
  - rewrite drop_app_length'; [reflexivity|].
    rewrite length_concat_addresses by (apply Forall_take; exact Hl).
    rewrite length_take. lia.
  - rewrite (drop_ge l k) by lia. simpl. rewrite app_nil_r.
    apply drop_ge. rewrite length_concat_addresses by (apply Forall_take; exact Hl).
    rewrite length_take. lia.
Qed.

Lemma slice_concat (l : list Address) (k : nat) (x : Address) :
  Forall is_address l -> l !! k = Some x ->
  slice (20 * Z.of_nat k) (20 * (Z.of_nat k + 1)) (concat l) = x.
Proof.
  intros Hl Hk.
  assert (Hx : length x = 20%nat).
  { exact (Forall_lookup_1 _ _ _ _ Hl Hk). }
  pose proof (lookup_lt_Some _ _ _ Hk) as Hlt.
  rewrite <- (take_drop_middle l k x Hk), concat_app. cbn [concat].
  apply slice_at.
  - rewrite length_concat_addresses by (apply Forall_take; exact Hl).
    rewrite length_take. lia.
  - lia.
Qed.

Lemma concat_zero_addresses (W : nat) :
  concat (repeat zeroAddress W) = repeat x00 (20 * W).
Proof.
  induction W as [|W IH]; [reflexivity|].
  replace (20 * S W)%nat with (20 + 20 * W)%nat by lia.
  rewrite repeat_app. cbn [repeat concat]. rewrite IH. reflexivity.
Qed.

Section Windows.
Import AddressBuffer.
Variable W : nat.
Hypothesis W_pos : (0 < W)%nat.
Hypothesis W_fits : 20 * Z.of_nat W + 20 <= max_int.

Lemma window_len (a : t MemFile) (slots : list Address) :
  window_holds W a slots -> length (buf a) = (20 * W)%nat.
Proof.
  intros (Hb & Hl & Hall & _). rewrite Hb, length_concat_addresses by exact Hall. lia.
Qed.

Lemma Next_n_in_slots (slots : list Address) (j : nat) :
  forall (a : t MemFile) (i : nat),
    window_holds W a slots -> currentIdx a = Z.of_nat i -> (i + j < W)%nat ->
    Next_n j a =
      (set_currentIdx (Z.of_nat (i + j)) a,
       (fun x => (x, None)) <$> take j (drop (S i) slots)).
Proof using W_pos W_fits.
  induction j as [|j IH]; intros a i Hw Hi Hij.
  - cbn [Next_n take fmap list_fmap]. rewrite Nat.add_0_r, <- Hi. destruct a; reflexivity.
  - pose proof (window_len a slots Hw) as Hlen.
    destruct Hw as (Hb & Hl & Hall & Hidx).
    destruct (lookup_lt_is_Some_2 slots (S i)) as [x Hx]; [lia|].
    cbn [Next_n].
    rewrite Next_in_window; cycle 1.
    { lia. }
    { unfold len. lia. }
    { unfold len. lia. }
    replace (slice _ _ (buf a)) with x; cycle 1.
    { rewrite Hb, Hi. symmetry.
      replace (20 * (Z.of_nat i + 1)) with (20 * Z.of_nat (S i)) by lia.
      replace (20 * (Z.of_nat i + 2)) with (20 * (Z.of_nat (S i) + 1)) by lia.
      apply slice_concat; assumption. }
    rewrite (IH (set_currentIdx (currentIdx a + 1) a) (S i)); cycle 1.
    { cbn [window_holds]. unfold window_holds. cbn [buf currentIdx set_currentIdx].
      repeat split; try assumption; lia. }
    { cbn [currentIdx set_currentIdx]. lia. }
    { lia. }
    rewrite (drop_S slots x (S i) Hx). cbn [take fmap list_fmap].
    f_equal. unfold set_currentIdx. cbn [buf size rwc]. f_equal. lia.
Qed.

Lemma Next_refill_slots (a : t MemFile) (prev cur : list Address) :
  window_holds W a prev -> at_window_end W a ->
  take (20 * W) (drop (offset (rwc a)) (data (rwc a))) = concat cur ->
  cur <> [] -> Forall is_address cur ->
  exists a',
    Next a = (a', (default zeroAddress (head cur), None)) /\
    window_holds W a' (cur ++ drop (length cur) prev) /\
    currentIdx a' = 0 /\ size a' = size a /\
    rwc a' = mkMemFile (data (rwc a)) (offset (rwc a) + 20 * length cur).
Proof using W_pos W_fits.
  intros Hw Hend Htake Hne Hcur.
  pose proof (window_len a prev Hw) as Hlen.
  destruct Hw as (Hb & Hl & Hall & Hidx).
  destruct cur as [|x cur']; [contradiction|]. cbn [head default].
  assert (Hx : length x = 20%nat) by (inversion Hcur; assumption).
  assert (Hcl : length (concat (x :: cur')) = (20 * length (x :: cur'))%nat)
    by (apply length_concat_addresses; exact Hcur).
  assert (HcW : (length (x :: cur') <= W)%nat).
  { apply (f_equal length) in Htake. rewrite length_take, Hcl in Htake. lia. }
  rewrite Next_refills; cycle 1.
  { destruct Hend as [Hm|Hlast]; [left; exact Hm|].
    right. unfold len. rewrite Hlen. lia. }
  { lia. }
  unfold Read. cbn [buf rwc set_currentIdx rwc_Read MemFile_rwc].
  rewrite MemFile_Read_chunk; cycle 1.
  { lia. }
  { rewrite Hlen, Htake. intros E. apply (f_equal length) in E. rewrite Hcl in E.
    cbn [length] in E. lia. }
  rewrite Hlen, Htake. rewrite (take_ge (concat (x :: cur'))) by lia.
  cbn [fst snd]. unfold after_refill.
  replace (negb (Z.rem (len (concat (x :: cur'))) AddressLength =? 0)) with false; cycle 1.
  { symmetry. apply negb_false_iff, Z.eqb_eq. unfold len, AddressLength. rewrite Hcl.
    rewrite Nat2Z.inj_mul. rewrite Z.mul_comm. apply Z.rem_mul. lia. }
  replace (len (concat (x :: cur')) =? 0) with false
    by (symmetry; apply Z.eqb_neq; unfold len; rewrite Hcl; cbn [length]; lia).
  eexists. split; [|split; [|split; [|split]]].
  - f_equal. f_equal. cbn [buf set_rwc set_buf set_currentIdx concat].
    rewrite <- !app_assoc. apply (slice_at [] x); simpl; lia.
  - unfold window_holds. cbn [buf set_rwc set_buf set_currentIdx currentIdx].
    split; [|split; [|split]].
    + rewrite concat_app. f_equal. rewrite Hcl, Hb. apply drop_concat_addresses. exact Hall.
    + rewrite length_app, length_drop. lia.
    + apply Forall_app. split; [exact Hcur|apply Forall_drop; exact Hall].
    + lia.
  - reflexivity.
  - reflexivity.
  - cbn [rwc set_rwc set_buf set_currentIdx]. f_equal. rewrite Hcl. reflexivity.
Qed.

(** One pass over a window: the refill and the calls that stay in it. *)
Lemma Next_n_window (a : t MemFile) (prev cur : list Address) :
  window_holds W a prev -> at_window_end W a ->
  take (20 * W) (drop (offset (rwc a)) (data (rwc a))) = concat cur ->
  cur <> [] -> Forall is_address cur ->
  exists a',
    Next_n W a = (a', (fun x => (x, None)) <$> (cur ++ drop (length cur) prev)) /\
    window_holds W a' (cur ++ drop (length cur) prev) /\
    currentIdx a' = Z.of_nat W - 1 /\ size a' = size a /\
    rwc a' = mkMemFile (data (rwc a)) (offset (rwc a) + 20 * length cur).
Proof using W_pos W_fits.
  intros Hw Hend Htake Hne Hcur.
  destruct (Next_refill_slots a prev cur Hw Hend Htake Hne Hcur)
    as (a1 & HN & Hw1 & Hi1 & Hs1 & Hf1).
  assert (Hwl : length (cur ++ drop (length cur) prev) = W)
    by (destruct Hw1 as (_ & Hl & _); exact Hl).
  assert (Hhead : default zeroAddress (head cur)
                    :: take (W - 1) (drop 1 (cur ++ drop (length cur) prev)) =
                  cur ++ drop (length cur) prev).
  { destruct cur as [|x cur']; [contradiction|]. cbn [head default app drop].
    f_equal. apply take_ge. cbn [app length] in Hwl |- *. lia. }
  assert (HS : Next_n W a = Next_n (S (W - 1)) a) by (f_equal; lia).
  rewrite HS. cbn [Next_n]. rewrite HN.
  rewrite (Next_n_in_slots _ (W - 1) a1 0 Hw1 Hi1) by lia.
  exists (set_currentIdx (Z.of_nat (0 + (W - 1))) a1).
  cbn [currentIdx set_currentIdx size rwc buf].
  split; [|split; [|split; [|split]]].
  - f_equal.
    transitivity ((fun x : Address => (x, @None error)) <$>
                    (default zeroAddress (head cur)
                       :: take (W - 1) (drop 1 (cur ++ drop (length cur) prev))));
      [reflexivity|rewrite Hhead; reflexivity].
  - destruct Hw1 as (Hb & Hl & Hall & Hidx). unfold window_holds.
    cbn [buf currentIdx set_currentIdx]. repeat split; try assumption; lia.
  - lia.
  - exact Hs1.
  - exact Hf1.
Qed.

(** [q] full windows, one after the other. *)
Lemma Next_n_full_windows (q : nat) :
  forall (a : t MemFile) (prev full : list Address) (more : list byte),
    window_holds W a prev -> at_window_end W a ->
    drop (offset (rwc a)) (data (rwc a)) = concat full ++ more ->
    length full = (W * q)%nat -> Forall is_address full ->
    exists a',
      Next_n (W * q) a = (a', (fun x => (x, None)) <$> full) /\
      window_holds W a' (drop (W * q) (prev ++ full)) /\ at_window_end W a' /\
      size a' = size a /\ data (rwc a') = data (rwc a) /\
      drop (offset (rwc a')) (data (rwc a')) = more.
Proof using W_pos W_fits.
  induction q as [|q IH]; intros a prev full more Hw Hend Hfile Hlen Hall.
  - rewrite Nat.mul_0_r in *. destruct full; [|discriminate].
    exists a. cbn [Next_n fmap list_fmap drop]. rewrite app_nil_r.
    split; [reflexivity|]. split; [exact Hw|]. split; [exact Hend|].
    split; [reflexivity|]. split; [reflexivity|exact Hfile].
  - assert (Hprev : length prev = W) by (destruct Hw as (_ & Hl & _); exact Hl).
    set (cur := take W full). set (full' := drop W full).
    assert (Hsplit : full = cur ++ full') by (symmetry; apply take_drop).
    assert (Hcl : length cur = W) by (unfold cur; rewrite length_take; lia).
    assert (Hfl : length full' = (W * q)%nat) by (unfold full'; rewrite length_drop; lia).
    assert (Hcur : Forall is_address cur) by (apply Forall_take; exact Hall).
    assert (Hfull' : Forall is_address full') by (apply Forall_drop; exact Hall).
    assert (Hccl : length (concat cur) = (20 * W)%nat)
      by (rewrite length_concat_addresses by exact Hcur; lia).
    assert (Hfile' : drop (offset (rwc a)) (data (rwc a)) =
                     concat cur ++ (concat full' ++ more)).
    { rewrite Hfile, Hsplit, concat_app, <- app_assoc. reflexivity. }
    destruct (Next_n_window a prev cur Hw Hend) as (a1 & HN & Hw1 & Hi1 & Hs1 & Hf1).
    { rewrite Hfile'. apply take_app_length'. symmetry. exact Hccl. }
    { intros E. rewrite E in Hcl. simpl in Hcl. lia. }
    { exact Hcur. }
    rewrite Hcl, (drop_ge prev W), app_nil_r in HN, Hw1 by lia.
    destruct (IH a1 cur full' more Hw1) as (a' & HN' & Hw' & Hend' & Hs' & Hd' & Hf').
    { right. exact Hi1. }
    { rewrite Hf1. cbn [data offset]. rewrite <- drop_drop, Hfile', Hcl, <- Hccl.
      apply drop_app_length. }
    { exact Hfl. }
    { exact Hfull'. }
    exists a'. replace (W * S q)%nat with (W + W * q)%nat by lia.
    rewrite Next_n_app, HN. cbn [fst snd]. rewrite HN'. cbn [fst snd].
    split; [rewrite Hsplit, fmap_app; reflexivity|].
    split; [|split; [exact Hend'|split; [congruence|split; [|exact Hf']]]].
    + replace (drop (W + W * q) (prev ++ full)) with (drop (W * q) (cur ++ full'));
        [exact Hw'|].
      rewrite <- (drop_drop (prev ++ full) (W * q) W).
      rewrite (drop_app_length' prev full W) by (symmetry; exact Hprev).
      rewrite Hsplit. reflexivity.
    + rewrite Hd', Hf1. reflexivity.
Qed.

(** At the end of the window over a file that is read to its end, [Next]
    reports [io.EOF]. *)
Lemma Next_at_the_end (a : t MemFile) (prev : list Address) :
  window_holds W a prev -> at_window_end W a ->
  drop (offset (rwc a)) (data (rwc a)) = [] ->
  snd (Next a) = (zeroAddress, Some io_EOF).
Proof using W_pos W_fits.
  intros Hw Hend Hfile.
  pose proof (window_len a prev Hw) as Hlen.
  destruct Hw as (Hb & Hl & Hall & Hidx).
  rewrite Next_refills; cycle 1.
  { destruct Hend as [Hm|Hlast]; [left; exact Hm|].
    right. unfold len. rewrite Hlen. lia. }
  { lia. }
  unfold Read. cbn [buf rwc set_currentIdx rwc_Read MemFile_rwc].
  unfold MemFile_Read. rewrite Hlen, Hfile.
  destruct (20 * W)%nat eqn:E; [lia|]. reflexivity.
Qed.

(** Once [Next] has reported [io.EOF] it is back before the first slot,
    with the window and the file as they were: every later call reports
    [io.EOF] as well. *)
Lemma Next_n_at_the_end (k : nat) :
  forall (a : t MemFile) (prev : list Address),
    window_holds W a prev -> at_window_end W a ->
    drop (offset (rwc a)) (data (rwc a)) = [] ->
    snd (Next_n k a) = repeat (zeroAddress, Some io_EOF) k.
Proof using W_pos W_fits.
  induction k as [|k IH]; intros a prev Hw Hend Hfile; [reflexivity|].
  pose proof (window_len a prev Hw) as Hlen.
  assert (HN : Next a =
               (set_currentIdx (-1) a, (zeroAddress, Some io_EOF))).
  { destruct Hw as (Hb & Hl & Hall & Hidx).
    rewrite Next_refills; cycle 1.
    { destruct Hend as [Hm|Hlast]; [left; exact Hm|].
      right. unfold len. rewrite Hlen. lia. }
    { lia. }
    unfold Read. cbn [buf rwc set_currentIdx rwc_Read MemFile_rwc].
    unfold MemFile_Read. rewrite Hlen, Hfile.
    destruct (20 * W)%nat eqn:E; [lia|].
    cbn [take length app drop fst snd after_refill].
    unfold set_rwc, set_buf, set_currentIdx. cbn [buf size currentIdx rwc].
    destruct a; reflexivity. }
  cbn [Next_n]. rewrite HN.
  specialize (IH (set_currentIdx (-1) a) prev).
  destruct (Next_n k (set_currentIdx (-1) a)) as [a' rs]. cbn [snd repeat] in *.
  f_equal. apply IH.
  - destruct Hw as (Hb & Hl & Hall & Hidx). unfold window_holds.
    cbn [buf currentIdx set_currentIdx]. repeat split; try assumption; lia.
  - left. reflexivity.
  - exact Hfile.
Qed.

(** At the end of the window over a file of which less than a window is
    left, not a whole number of records: [Next] reports the length. *)
Lemma Next_at_a_partial_record (a : t MemFile) (prev : list Address) (more : list byte) :
  window_holds W a prev -> at_window_end W a ->
  drop (offset (rwc a)) (data (rwc a)) = more ->
  (length more < 20 * W)%nat -> (length more mod 20 <> 0)%nat ->
  snd (Next a) = (zeroAddress, Some (errors_New "got invalid address length")).
Proof using W_pos W_fits.
  intros Hw Hend Hfile Hlt Hmod.
  pose proof (window_len a prev Hw) as Hlen.
  destruct Hw as (Hb & Hl & Hall & Hidx).
  assert (Hne : more <> []) by (intros ->; apply Hmod; reflexivity).
  rewrite Next_refills; cycle 1.
  { destruct Hend as [Hm|Hlast]; [left; exact Hm|].
    right. unfold len. rewrite Hlen. lia. }
  { lia. }
  unfold Read. cbn [buf rwc set_currentIdx rwc_Read MemFile_rwc].
  rewrite MemFile_Read_chunk; cycle 1.
  { lia. }
  { rewrite Hlen, Hfile, take_ge by lia. exact Hne. }
  rewrite Hlen, Hfile, !(take_ge more) by lia.
  cbn [fst snd]. unfold after_refill.
  replace (negb (Z.rem (len more) AddressLength =? 0)) with true; [reflexivity|].
  symmetry. apply negb_true_iff, Z.eqb_neq. unfold len, AddressLength.
  rewrite Z.rem_mod_nonneg by lia. intros E. apply Hmod.
  apply Nat2Z.inj. rewrite Nat2Z.inj_mod. exact E.
Qed.

End Windows.

Section WindowTheorems.
Import AddressBuffer.

Lemma fresh_reader_window (f : MemFile) (W : nat) (r : t MemFile) :
  20 * Z.of_nat W + 20 <= max_int ->
  NewAddressBuffer f (Z.of_nat W) false = Some r ->
  window_holds W r (repeat zeroAddress W) /\ at_window_end W r /\ rwc r = f.
Proof.
  intros Hfit Hr. unfold NewAddressBuffer, AddressLength, max_int in *.
  rewrite int64_small in Hr by (unfold max_int; lia).
  replace (Z.of_nat W * 20 <? 0) with false in Hr by (symmetry; apply Z.ltb_ge; lia).
  inversion Hr; subst r; clear Hr.
  unfold window_holds, at_window_end. cbn [buf currentIdx rwc].
  split; [|split; [left; reflexivity|reflexivity]].
  split; [|split; [apply repeat_length|split; [|lia]]].
  - rewrite concat_zero_addresses. f_equal. lia.
  - clear. induction W as [|W IH]; cbn [repeat]; constructor; [reflexivity|exact IH].
Qed.

Lemma Next_n_1 (a : t MemFile) : snd (Next_n 1 a) = [snd (Next a)].
Proof. cbn [Next_n]. destruct (Next a) as [a' r]. reflexivity. Qed.

(** X9: a read-mode buffer with a window of [W] records over a file of
    [W * q + c] whole records, [0 < c <= W]: the first calls of [Next]
    return the records in order; once the last record is returned, the
    calls up to the end of the window, [W - c] of them, return with no error
    what the window holds at their index, which is the record [W] places
    before (the zero address when there is none); the call after them, the
    [W * (q + 1) + 1]-th, is the first to report [io.EOF], and every call
    after it reports [io.EOF] too. *)
Theorem Next_reads_window_by_window (recs : list Address) (W q c k : nat) (r : t MemFile) :
  Forall is_address recs -> (0 < W)%nat -> 20 * Z.of_nat W + 20 <= max_int ->
  NewAddressBuffer (mkMemFile (concat recs) 0) (Z.of_nat W) false = Some r ->
  length recs = (W * q + c)%nat -> (0 < c <= W)%nat ->
  snd (Next_n (W * (q + 1) + k) r) =
    ((fun x => (x, None)) <$>
       (recs ++ take (W - c) (drop (length recs) (repeat zeroAddress W ++ recs)))) ++
    repeat (zeroAddress, Some io_EOF) k.
Proof.
  intros Hall HW Hfit Hr Hlen Hc.
  destruct (fresh_reader_window _ W r Hfit Hr) as (Hw & Hend & Hf).
  set (full := take (W * q) recs). set (cur := drop (W * q) recs).
  assert (Hsplit : recs = full ++ cur) by (symmetry; apply take_drop).
  assert (Hfl : length full = (W * q)%nat) by (unfold full; rewrite length_take; lia).
  assert (Hcl : length cur = c) by (unfold cur; rewrite length_drop; lia).
  assert (Hfull : Forall is_address full) by (apply Forall_take; exact Hall).
  assert (Hcur : Forall is_address cur) by (apply Forall_drop; exact Hall).
  destruct (Next_n_full_windows W HW Hfit q r (repeat zeroAddress W) full (concat cur) Hw Hend)
    as (a1 & HN1 & Hw1 & Hend1 & _ & Hd1 & Hf1).
  { rewrite Hf. cbn [offset data drop]. rewrite Hsplit, concat_app. reflexivity. }
  { exact Hfl. }
  { exact Hfull. }
  set (prev1 := drop (W * q) (repeat zeroAddress W ++ full)) in *.
  destruct (Next_n_window W HW Hfit a1 prev1 cur Hw1 Hend1) as (a2 & HN2 & Hw2 & Hi2 & _ & Hf2).
  { rewrite Hf1. apply take_ge. rewrite length_concat_addresses by exact Hcur. lia. }
  { intros E. rewrite E in Hcl. simpl in Hcl. lia. }
  { exact Hcur. }
  assert (HE : snd (Next_n k a2) = repeat (zeroAddress, Some io_EOF) k).
  { apply (Next_n_at_the_end W HW Hfit k a2 _ Hw2); [right; exact Hi2|].
    rewrite Hf2. cbn [data offset]. rewrite <- drop_drop, Hf1.
    apply drop_ge. rewrite length_concat_addresses by exact Hcur. lia. }
  replace (W * (q + 1) + k)%nat with (W * q + (W + k))%nat by lia.
  rewrite Next_n_app, HN1. cbn [fst snd].
  rewrite Next_n_app, HN2. cbn [fst snd]. rewrite HE.
  rewrite app_assoc. f_equal. rewrite <- fmap_app. f_equal.
  rewrite Hsplit at 1. rewrite <- app_assoc. f_equal. f_equal.
  rewrite Hcl. unfold prev1. rewrite drop_drop.
  replace (W * q + c)%nat with (length recs) by lia.
  assert (Hz : drop (length recs) (repeat zeroAddress W ++ recs) =
               drop (length recs) (repeat zeroAddress W ++ full) ++ cur).
  { rewrite Hsplit at 2. rewrite app_assoc. apply drop_app_le.
    rewrite length_app, repeat_length. lia. }
  rewrite Hz. rewrite take_app_length'; [reflexivity|].
  rewrite length_drop, length_app, repeat_length. lia.
Qed.

(** X10: a file that does not end on a record boundary, [W * q + c] whole
    records ([c < W]) and then 1 to 19 bytes more: [Next] returns the
    records of the [q] full windows and then reports "got invalid address
    length"; the [c] whole records that share the last refill with the
    partial one are not returned. *)
Theorem Next_reports_a_partial_record (recs : list Address) (partial : list byte)
    (W q c : nat) (r : t MemFile) :
  Forall is_address recs -> (0 < W)%nat -> 20 * Z.of_nat W + 20 <= max_int ->
  (0 < length partial < 20)%nat ->
  NewAddressBuffer (mkMemFile (concat recs ++ partial) 0) (Z.of_nat W) false = Some r ->
  length recs = (W * q + c)%nat -> (c < W)%nat ->
  snd (Next_n (W * q + 1) r) =
    ((fun x => (x, None)) <$> take (W * q) recs) ++
    [(zeroAddress, Some (errors_New "got invalid address length"))].
Proof.
  intros Hall HW Hfit Hp Hr Hlen Hc.
  destruct (fresh_reader_window _ W r Hfit Hr) as (Hw & Hend & Hf).
  set (full := take (W * q) recs). set (cur := drop (W * q) recs).
  assert (Hsplit : recs = full ++ cur) by (symmetry; apply take_drop).
  assert (Hfl : length full = (W * q)%nat) by (unfold full; rewrite length_take; lia).
  assert (Hcl : length cur = c) by (unfold cur; rewrite length_drop; lia).
  assert (Hfull : Forall is_address full) by (apply Forall_take; exact Hall).
  assert (Hcur : Forall is_address cur) by (apply Forall_drop; exact Hall).
  destruct (Next_n_full_windows W HW Hfit q r (repeat zeroAddress W) full
              (concat cur ++ partial) Hw Hend)
    as (a1 & HN1 & Hw1 & Hend1 & _ & Hd1 & Hf1).
  { rewrite Hf. cbn [offset data drop]. rewrite Hsplit, concat_app, <- app_assoc. reflexivity. }
  { exact Hfl. }
  { exact Hfull. }
  assert (Hml : length (concat cur ++ partial) = (20 * c + length partial)%nat).
  { rewrite length_app, length_concat_addresses by exact Hcur. lia. }
  assert (HE : snd (Next a1) = (zeroAddress, Some (errors_New "got invalid address length"))).
  { apply (Next_at_a_partial_record W HW Hfit a1 _ _ Hw1 Hend1 Hf1).
    - rewrite Hml. lia.
    - rewrite Hml. rewrite Nat.add_comm, Nat.mul_comm, Nat.Div0.mod_add.
      rewrite Nat.mod_small by lia. lia. }
  rewrite Next_n_app, HN1. cbn [fst snd]. rewrite Next_n_1, HE. reflexivity.
Qed.


Lemma Next_reads_window_by_window_witness :
  snd (Next_n (4 * (0 + 1) + 2) (mk (repeat x00 80) 4 (-1) three_records)) =
    ((fun x => (x, None)) <$>
       ([addr_of x01; addr_of x02; addr_of x03] ++
        take (4 - 3)
          (drop (length [addr_of x01; addr_of x02; addr_of x03])
             (repeat zeroAddress 4 ++ [addr_of x01; addr_of x02; addr_of x03])))) ++
    repeat (zeroAddress, Some io_EOF) 2.
Proof.
  apply (Next_reads_window_by_window [addr_of x01; addr_of x02; addr_of x03] 4 0 3 2).
  - repeat constructor.
  - lia.
  - unfold max_int. lia.
  - reflexivity.
  - reflexivity.
  - lia.
Defined.

(** A window of four records over a file of three: the fourth call returns
    the zero address with no error, the fifth and the sixth report
    [io.EOF]. *)
Example Next_returns_the_zero_address :
  snd (Next_n 6 (mk (repeat x00 80) 4 (-1) three_records)) =
    [(addr_of x01, None); (addr_of x02, None); (addr_of x03, None);
     (zeroAddress, None); (zeroAddress, Some io_EOF); (zeroAddress, Some io_EOF)].
Proof. vm_compute. reflexivity. Qed.

Lemma Next_reports_a_partial_record_witness :
  snd (Next_n (2 * 1 + 1)
         (mk (repeat x00 40) 2 (-1) (mkMemFile (data three_records ++ [x07; x07]) 0))) =
    ((fun x => (x, None)) <$> take (2 * 1) [addr_of x01; addr_of x02; addr_of x03]) ++
    [(zeroAddress, Some (errors_New "got invalid address length"))].
Proof.
  apply (Next_reports_a_partial_record [addr_of x01; addr_of x02; addr_of x03] [x07; x07] 2 1 1).
  - repeat constructor.
  - lia.
  - unfold max_int. lia.
  - simpl. lia.
  - reflexivity.
  - reflexivity.
  - lia.
Defined.

End WindowTheorems.

(** ** The apply pass over a spill file *)

Section ApplySenders.
Variable ChainConfig : Type.
Variable MakeSigner : ChainConfig -> Z -> Signer.
Variable config : ChainConfig.

Lemma getBlockBody_WriteBody_same (m : Mutation) (n : Z) (job : senderRecoveryJob) (b : Body) :
  getBlockBody ChainConfig MakeSigner m config n = Some job ->
  getBlockBody ChainConfig MakeSigner (WriteBody m (job_hash job) n b) config n =
    Some (mkJob (job_signer job) b (job_hash job) n None).
Proof.
  unfold getBlockBody, WriteBody, ReadCanonicalHash, ReadBody.
  cbn [Put Mutation_Putter fst m_db m_puts pending_body].
  set (hash := match db_fault (m_db m) with
               | Some _ => zeroHash
               | None => default zeroHash (canonical (m_db m) !! n)
               end).
  destruct (IsEmpty hash); [discriminate|].
  destruct (match pending_body (m_puts m) n hash with
            | Some b0 => Some b0
            | None => match db_fault (m_db m) with
                      | Some _ => None
                      | None => bodies (m_db m) !! (n, hash)
                      end
            end) as [body|]; [|discriminate].
  intros E. inversion E; subst job; clear E. cbn [job_hash job_signer].
  rewrite decide_True by reflexivity. reflexivity.
Qed.

Section OverAFile.
Variable W : nat.
Hypothesis W_pos : (0 < W)%nat.
Hypothesis W_fits : 20 * Z.of_nat W + 20 <= max_int.

Lemma apply_loop_sets_senders (s : StageState) (blocks : list (list Transaction)) :
  forall (addrs : list (list Address)) (fuel : nat) (st : ApplyState) (rest : list Address),
    (length blocks < fuel)%nat ->
    0 <= a_nextBlockNumber st -> a_nextBlockNumber st + len blocks < 2 ^ 64 ->
    reads W (a_buf st) (concat addrs ++ rest) ->
    Forall2 (fun (txs : list Transaction) (ads : list Address) => length ads = length txs)
      blocks addrs ->
    db_fault (m_db (a_mutation st)) = None ->
    (forall (i : nat) (txs : list Transaction),
       blocks !! i = Some txs ->
       exists job,
         getBlockBody ChainConfig MakeSigner (a_mutation st) config
           (a_nextBlockNumber st + Z.of_nat i) = Some job /\
         Transactions (job_blockBody job) = txs) ->
    getBlockBody ChainConfig MakeSigner (a_mutation st) config
      (a_nextBlockNumber st + len blocks) = None ->
    exists st' : ApplyState,
      writeBatchFromDisk_loop ChainConfig MakeSigner fuel s config st = Some (st', None) /\
      a_nextBlockNumber st' = a_nextBlockNumber st + len blocks /\
      reads W (a_buf st') rest /\
      db_fault (m_db (a_mutation st')) = None /\
      (forall j : Z,
         ~ (a_nextBlockNumber st <= j < a_nextBlockNumber st + len blocks) ->
         getBlockBody ChainConfig MakeSigner (a_mutation st') config j =
         getBlockBody ChainConfig MakeSigner (a_mutation st) config j) /\
      (forall (i : nat) (txs : list Transaction) (ads : list Address),
         blocks !! i = Some txs -> addrs !! i = Some ads ->
         exists job,
           getBlockBody ChainConfig MakeSigner (a_mutation st) config
             (a_nextBlockNumber st + Z.of_nat i) = Some job /\
           getBlockBody ChainConfig MakeSigner (a_mutation st') config
             (a_nextBlockNumber st + Z.of_nat i) =
             Some (mkJob (job_signer job) (mkBody (zip_with SetFrom ads txs)) (job_hash job)
                     (a_nextBlockNumber st + Z.of_nat i) None)).
Proof using W_pos W_fits.
  induction blocks as [|txs blocks IH];
    intros addrs fuel st rest Hf H0 Hmax Hr Hlen Hdb Hpres Habs;
    (destruct fuel as [|fuel]; [simpl in Hf; lia|]); cbn [writeBatchFromDisk_loop].
  - inversion Hlen; subst addrs. unfold len in *. cbn [length concat app] in *.
    rewrite Z.add_0_r in *. rewrite Habs.
    exists st. split; [reflexivity|]. split; [reflexivity|]. split; [exact Hr|].
    split; [exact Hdb|]. split; [reflexivity|].
    intros i txs ads Hi. rewrite lookup_nil in Hi. discriminate.
  - inversion Hlen as [|? ads ? addrs' Hl Hlen']; subst addrs. clear Hlen.
    set (next := a_nextBlockNumber st) in *.
    assert (HlenZ : len (txs :: blocks) = len blocks + 1) by (unfold len; cbn [length]; lia).
    assert (Hlb : 0 <= len blocks) by (unfold len; lia).
    destruct (Hpres 0%nat txs eq_refl) as (job & Ejob & Htxs).
    rewrite Z.add_0_r in Ejob. rewrite Ejob, Htxs.
    cbn [concat] in Hr. rewrite <- app_assoc in Hr.
    destruct (setFroms_reads W W_pos W_fits txs ads _ (a_buf st) Hr Hl) as (buf' & -> & Hr').
    pose proof (getBlockBody_number _ _ _ _ _ _ Ejob) as Hnum. rewrite Hnum.
    set (body := mkBody (zip_with SetFrom ads txs)).
    assert (Hu : u64 (next + 1) = next + 1) by (apply u64_small; lia).
    rewrite Hu.
    destruct (iteration_keeps_other_blocks ChainConfig MakeSigner config s (a_mutation st)
                (job_hash job) next (next + 1) body Hdb)
      as [[Hdb1 Hsame1] (m3 & Hc & Hupd & Hdb3 & Hsame3)].
    pose proof (getBlockBody_WriteBody_same (a_mutation st) next job body Ejob) as Hnew1.
    assert (Hgoal : forall m' : Mutation,
              db_fault (m_db m') = None ->
              (forall j, j <> next ->
                 getBlockBody ChainConfig MakeSigner m' config j =
                 getBlockBody ChainConfig MakeSigner (a_mutation st) config j) ->
              getBlockBody ChainConfig MakeSigner m' config next =
                Some (mkJob (job_signer job) body (job_hash job) next None) ->
              exists st' : ApplyState,
                writeBatchFromDisk_loop ChainConfig MakeSigner fuel s config
                  (mkApplyState buf' m' (next + 1)) = Some (st', None) /\
                a_nextBlockNumber st' = next + len (txs :: blocks) /\
                reads W (a_buf st') rest /\
                db_fault (m_db (a_mutation st')) = None /\
                (forall j : Z,
                   ~ (next <= j < next + len (txs :: blocks)) ->
                   getBlockBody ChainConfig MakeSigner (a_mutation st') config j =
                   getBlockBody ChainConfig MakeSigner (a_mutation st) config j) /\
                (forall (i : nat) (txs0 : list Transaction) (ads0 : list Address),
                   (txs :: blocks) !! i = Some txs0 -> (ads :: addrs') !! i = Some ads0 ->
                   exists job0,
                     getBlockBody ChainConfig MakeSigner (a_mutation st) config
                       (next + Z.of_nat i) = Some job0 /\
                     getBlockBody ChainConfig MakeSigner (a_mutation st') config
                       (next + Z.of_nat i) =
                       Some (mkJob (job_signer job0) (mkBody (zip_with SetFrom ads0 txs0))
                               (job_hash job0) (next + Z.of_nat i) None))).
    { intros m' Hdb' Hsame' Hnew'.
      destruct (IH addrs' fuel (mkApplyState buf' m' (next + 1)) rest)
        as (st' & Hrun & Hnext & Hrd & Hdbf & Hframe & Hset);
        cbn [a_buf a_mutation a_nextBlockNumber].
      - simpl in Hf. lia.
      - lia.
      - lia.
      - exact Hr'.
      - exact Hlen'.
      - exact Hdb'.
      - intros i txs0 Hi. rewrite Hsame' by lia.
        destruct (Hpres (S i) txs0 Hi) as (job0 & E0 & T0). exists job0.
        split; [|exact T0]. rewrite <- E0. f_equal. lia.
      - rewrite Hsame' by lia. rewrite <- Habs. f_equal. lia.
      - cbn [a_buf a_mutation a_nextBlockNumber] in *.
        exists st'. split; [exact Hrun|]. split; [lia|]. split; [exact Hrd|].
        split; [exact Hdbf|]. split.
        + intros j Hj. rewrite Hframe by lia. apply Hsame'. lia.
        + intros [|i] txs0 ads0 Hi Ha.
          * cbn in Hi, Ha. inversion Hi; inversion Ha; subst txs0 ads0.
            exists job. rewrite Z.add_0_r. split; [exact Ejob|].
            rewrite Hframe by lia. exact Hnew'.
          * cbn in Hi, Ha. destruct (Hset i txs0 ads0 Hi Ha) as (job0 & E0 & E1).
            exists job0. replace (next + Z.of_nat (S i)) with (next + 1 + Z.of_nat i) by lia.
            split; [|exact E1]. rewrite <- Hsame' by lia. exact E0. }
    destruct (IdealBatchSize (WriteBody (a_mutation st) (job_hash job) next body) <=?
              BatchSize (WriteBody (a_mutation st) (job_hash job) next body)).
    + pose proof (proj2 (getBlockBody_Update ChainConfig MakeSigner config s
                          (WriteBody (a_mutation st) (job_hash job) next body) (next + 1) next))
        as Hu2.
      destruct (Update s (WriteBody (a_mutation st) (job_hash job) next body) (next + 1))
        as [m2 e2]. cbn [fst snd] in Hc, Hupd, Hu2. subst e2. rewrite Hc.
      apply Hgoal; [exact Hdb3|exact Hsame3|].
      rewrite (getBlockBody_Commit ChainConfig MakeSigner config m2 m3 next Hc), Hu2.
      exact Hnew1.
    + apply Hgoal; [exact Hdb1|exact Hsame1|exact Hnew1].
Qed.

End OverAFile.

(** X11: the apply pass over a spill file that holds, block after block
    from [last + 1] on, one record for every transaction of the blocks
    present, and a database that does not fail: it returns nil at the first
    absent block; every block on the way then reads back with its
    transactions carrying, in order, the records of the file that fall to
    them; every other block reads as before; and the records the pass did
    not need are the next that [Next] returns. *)
Theorem apply_pass_sets_senders (s : StageState) (blocks : list (list Transaction))
    (addrs : list (list Address)) (extra : list Address) (fuel : nat) (rsize : Z)
    (buf : AddressBuffer.t MemFile) (mutation : Mutation) (last : Z) :
  (length blocks < fuel)%nat -> 0 <= last -> last + 1 + len blocks < 2 ^ 64 ->
  0 < rsize -> 20 * rsize + 20 <= max_int ->
  Forall is_address (concat addrs ++ extra) ->
  Forall2 (fun (txs : list Transaction) (ads : list Address) => length ads = length txs)
    blocks addrs ->
  AddressBuffer.NewAddressBuffer (mkMemFile (concat (concat addrs ++ extra)) 0) rsize false =
    Some buf ->
  db_fault (m_db mutation) = None ->
  (forall (i : nat) (txs : list Transaction),
     blocks !! i = Some txs ->
     exists job,
       getBlockBody ChainConfig MakeSigner mutation config (last + 1 + Z.of_nat i) = Some job /\
       Transactions (job_blockBody job) = txs) ->
  getBlockBody ChainConfig MakeSigner mutation config (last + 1 + len blocks) = None ->
  exists st' : ApplyState,
    writeBatchFromDisk ChainConfig MakeSigner fuel buf s config mutation last = Some (st', None) /\
    a_nextBlockNumber st' = last + 1 + len blocks /\
    (forall (i : nat) (txs : list Transaction) (ads : list Address),
       blocks !! i = Some txs -> addrs !! i = Some ads ->
       exists job',
         getBlockBody ChainConfig MakeSigner (a_mutation st') config (last + 1 + Z.of_nat i) =
           Some job' /\
         Transactions (job_blockBody job') = zip_with SetFrom ads txs) /\
    (forall j : Z,
       ~ (last < j <= last + len blocks) ->
       getBlockBody ChainConfig MakeSigner (a_mutation st') config j =
       getBlockBody ChainConfig MakeSigner mutation config j) /\
    snd (AddressBuffer.Next_n (length extra) (a_buf st')) = (fun x => (x, None)) <$> extra.
Proof.
  intros Hf H0 Hmax Hpos Hfit Hall Hlen Hbuf Hdb Hpres Habs.
  assert (HW : (0 < Z.to_nat rsize)%nat) by lia.
  assert (HWf : 20 * Z.of_nat (Z.to_nat rsize) + 20 <= max_int) by (unfold max_int in *; lia).
  assert (Hlb : 0 <= len blocks) by (unfold len; lia).
  unfold writeBatchFromDisk. rewrite (u64_small (last + 1)) by lia.
  destruct (apply_loop_sets_senders (Z.to_nat rsize) HW HWf s blocks addrs fuel
              (mkApplyState buf mutation (last + 1)) extra)
    as (st' & Hrun & Hnext & Hrd & _ & Hframe & Hset);
    cbn [a_buf a_mutation a_nextBlockNumber]; try assumption; try lia.
  { apply fresh_reader_reads; assumption. }
  cbn [a_buf a_mutation a_nextBlockNumber] in *.
  exists st'. split; [exact Hrun|]. split; [exact Hnext|].
  split; [|split].
  - intros i txs ads Hi Ha. destruct (Hset i txs ads Hi Ha) as (job & _ & E).
    eexists. split; [exact E|reflexivity].
  - intros j Hj. apply Hframe. lia.
  - apply (Next_n_reads (Z.to_nat rsize) HW HWf). exact Hrd.
Qed.

End ApplySenders.

Lemma apply_pass_sets_senders_witness :
  exists st' : ApplyState,
    writeBatchFromDisk unit example_MakeSigner 5
      (AddressBuffer.mk (repeat x00 80) 4 (-1) three_records)
      (mkStageState Senders 0) tt (NewBatch one_block_db) 0 = Some (st', None) /\
    a_nextBlockNumber st' = 0 + 1 + len [Transactions example_body] /\
    (forall (i : nat) (txs : list Transaction) (ads : list Address),
       [Transactions example_body] !! i = Some txs ->
       [[addr_of x01; addr_of x02]] !! i = Some ads ->
       exists job',
         getBlockBody unit example_MakeSigner (a_mutation st') tt (0 + 1 + Z.of_nat i) =
           Some job' /\
         Transactions (job_blockBody job') = zip_with SetFrom ads txs) /\
    (forall j : Z,
       ~ (0 < j <= 0 + len [Transactions example_body]) ->
       getBlockBody unit example_MakeSigner (a_mutation st') tt j =
       getBlockBody unit example_MakeSigner (NewBatch one_block_db) tt j) /\
    snd (AddressBuffer.Next_n (length [addr_of x03]) (a_buf st')) =
      (fun x => (x, None)) <$> [addr_of x03].
Proof.
  apply (apply_pass_sets_senders unit example_MakeSigner tt (mkStageState Senders 0)
           [Transactions example_body] [[addr_of x01; addr_of x02]] [addr_of x03] 5 4
           (AddressBuffer.mk (repeat x00 80) 4 (-1) three_records) (NewBatch one_block_db) 0).
  - simpl. lia.
  - lia.
  - unfold len. simpl. lia.
  - lia.
  - unfold max_int. lia.
  - repeat constructor.
  - repeat constructor.
  - reflexivity.
  - reflexivity.
  - intros [|i] txs Hi.
    + cbn in Hi. inversion Hi; subst txs. eexists. split; [vm_compute; reflexivity|reflexivity].
    + destruct i; discriminate.
  - vm_compute. reflexivity.
Defined.

(** ** The apply pass, twice *)

Lemma zip_with_SetFrom_twice (ads : list Address) :
  forall txs : list Transaction,
    zip_with SetFrom ads (zip_with SetFrom ads txs) = zip_with SetFrom ads txs.
Proof.
  induction ads as [|x ads IH]; intros [|tx txs]; cbn [zip_with]; try reflexivity.
  rewrite IH. reflexivity.
Qed.

Section ApplyTwice.
Variable ChainConfig : Type.
Variable MakeSigner : ChainConfig -> Z -> Signer.
Variable config : ChainConfig.

(** X21: the apply pass done twice is the apply pass done once. Under the
    conditions of X11, a second pass over the same spill file, read again
    from its start, from the same block and on the batch the first pass
    left, returns nil as well, and every block reads after it as it read
    after the first. *)
Theorem apply_pass_is_idempotent (s : StageState) (blocks : list (list Transaction))
    (addrs : list (list Address)) (extra : list Address) (fuel : nat) (rsize : Z)
    (buf : AddressBuffer.t MemFile) (mutation : Mutation) (last : Z) :
  (length blocks < fuel)%nat -> 0 <= last -> last + 1 + len blocks < 2 ^ 64 ->
  0 < rsize -> 20 * rsize + 20 <= max_int ->
  Forall is_address (concat addrs ++ extra) ->
  Forall2 (fun (txs : list Transaction) (ads : list Address) => length ads = length txs)
    blocks addrs ->
  AddressBuffer.NewAddressBuffer (mkMemFile (concat (concat addrs ++ extra)) 0) rsize false =
    Some buf ->
  db_fault (m_db mutation) = None ->
  (forall (i : nat) (txs : list Transaction),
     blocks !! i = Some txs ->
     exists job,
       getBlockBody ChainConfig MakeSigner mutation config (last + 1 + Z.of_nat i) = Some job /\
       Transactions (job_blockBody job) = txs) ->
  getBlockBody ChainConfig MakeSigner mutation config (last + 1 + len blocks) = None ->
  exists st1 st2 : ApplyState,
    writeBatchFromDisk ChainConfig MakeSigner fuel buf s config mutation last =
      Some (st1, None) /\
    writeBatchFromDisk ChainConfig MakeSigner fuel buf s config (a_mutation st1) last =
      Some (st2, None) /\
    forall j : Z,
      getBlockBody ChainConfig MakeSigner (a_mutation st2) config j =
      getBlockBody ChainConfig MakeSigner (a_mutation st1) config j.
Proof.
  intros Hf H0 Hmax Hpos Hfit Hall Hlen Hbuf Hdb Hpres Habs.
  assert (HW : (0 < Z.to_nat rsize)%nat) by lia.
  assert (HWf : 20 * Z.of_nat (Z.to_nat rsize) + 20 <= max_int) by (unfold max_int in *; lia).
  assert (Hlb : 0 <= len blocks) by (unfold len; lia).
  pose proof (fresh_reader_reads rsize _ buf Hpos Hfit Hall Hbuf) as Hreads.
  unfold writeBatchFromDisk. rewrite (u64_small (last + 1)) by lia.
  destruct (apply_loop_sets_senders ChainConfig MakeSigner config (Z.to_nat rsize) HW HWf s
              blocks addrs fuel (mkApplyState buf mutation (last + 1)) extra)
    as (st1 & Hrun1 & _ & _ & Hdb1 & Hframe1 & Hset1);
    cbn [a_buf a_mutation a_nextBlockNumber]; try assumption; try lia.
  cbn [a_buf a_mutation a_nextBlockNumber] in *.
  set (blocks2 := zip_with (fun (txs : list Transaction) (ads : list Address) =>
                              zip_with SetFrom ads txs) blocks addrs).
  assert (Hlen12 : length blocks = length addrs) by (eapply Forall2_length; exact Hlen).
  assert (Hl2 : length blocks2 = length blocks).
  { unfold blocks2. rewrite length_zip_with. lia. }
  assert (Hb2 : forall (i : nat) (txs2 : list Transaction),
            blocks2 !! i = Some txs2 ->
            exists txs ads, blocks !! i = Some txs /\ addrs !! i = Some ads /\
                            txs2 = zip_with SetFrom ads txs).
  { intros i txs2 Hi. unfold blocks2 in Hi. apply lookup_zip_with_Some in Hi.
    destruct Hi as (txs & ads & -> & Hb & Ha). exists txs, ads. repeat split; assumption. }
  destruct (apply_loop_sets_senders ChainConfig MakeSigner config (Z.to_nat rsize) HW HWf s
              blocks2 addrs fuel (mkApplyState buf (a_mutation st1) (last + 1)) extra)
    as (st2 & Hrun2 & _ & _ & _ & Hframe2 & Hset2);
    cbn [a_buf a_mutation a_nextBlockNumber]; try assumption; try lia.
  - unfold len. rewrite Hl2. unfold len in Hmax. lia.
  - apply Forall2_same_length_lookup_2; [lia|].
    intros i txs2 ads' Hi Ha. destruct (Hb2 i txs2 Hi) as (txs & ads & Hb & Ha' & ->).
    rewrite Ha in Ha'. inversion Ha'; subst ads'.
    rewrite length_zip_with.
    pose proof (Forall2_lookup_lr _ _ _ _ _ _ Hlen Hb Ha) as Hl. cbn in Hl. lia.
  - intros i txs2 Hi. destruct (Hb2 i txs2 Hi) as (txs & ads & Hb & Ha & ->).
    destruct (Hset1 i txs ads Hb Ha) as (job & _ & E). eexists. split; [exact E|reflexivity].
  - unfold len. rewrite Hl2. rewrite Hframe1 by (unfold len; lia). exact Habs.
  - cbn [a_buf a_mutation a_nextBlockNumber] in *.
    exists st1, st2. split; [exact Hrun1|]. split; [exact Hrun2|].
    intros j.
    destruct (decide (last + 1 <= j < last + 1 + len blocks)) as [Hin|Hout].
    + set (i := Z.to_nat (j - (last + 1))).
      assert (Hj : j = last + 1 + Z.of_nat i) by (unfold i; lia).
      assert (Hi : (i < length blocks)%nat) by (unfold i, len in *; lia).
      destruct (lookup_lt_is_Some_2 blocks i Hi) as [txs Hb].
      destruct (lookup_lt_is_Some_2 addrs i ltac:(lia)) as [ads Ha].
      destruct (Hset1 i txs ads Hb Ha) as (job & _ & E1).
      destruct (Hset2 i (zip_with SetFrom ads txs) ads) as (job1 & E1' & E2).
      { unfold blocks2. rewrite lookup_zip_with, Hb. cbn. rewrite Ha. reflexivity. }
      { exact Ha. }
      rewrite Hj, E2. rewrite E1 in E1'. inversion E1'; subst job1.
      cbn [job_signer job_hash]. rewrite zip_with_SetFrom_twice. symmetry. exact E1.
    + apply Hframe2. unfold len. rewrite Hl2. unfold len in Hout. lia.
Qed.

End ApplyTwice.

Lemma apply_pass_is_idempotent_witness :
  exists st1 st2 : ApplyState,
    writeBatchFromDisk unit example_MakeSigner 5
      (AddressBuffer.mk (repeat x00 80) 4 (-1) three_records)
      (mkStageState Senders 0) tt (NewBatch one_block_db) 0 = Some (st1, None) /\
    writeBatchFromDisk unit example_MakeSigner 5
      (AddressBuffer.mk (repeat x00 80) 4 (-1) three_records)
      (mkStageState Senders 0) tt (a_mutation st1) 0 = Some (st2, None) /\
    forall j : Z,
      getBlockBody unit example_MakeSigner (a_mutation st2) tt j =
      getBlockBody unit example_MakeSigner (a_mutation st1) tt j.
Proof.
  apply (apply_pass_is_idempotent unit example_MakeSigner tt (mkStageState Senders 0)
           [Transactions example_body] [[addr_of x01; addr_of x02]] [addr_of x03] 5 4
           (AddressBuffer.mk (repeat x00 80) 4 (-1) three_records) (NewBatch one_block_db) 0).
  - simpl. lia.
  - lia.
  - unfold len. simpl. lia.
  - lia.
  - unfold max_int. lia.
  - repeat constructor.
  - repeat constructor.
  - reflexivity.
  - reflexivity.
  - intros [|i] txs Hi.
    + cbn in Hi. inversion Hi; subst txs. eexists. split; [vm_compute; reflexivity|reflexivity].
    + destruct i; discriminate.
  - vm_compute. reflexivity.
Defined.

(** ** Flush points *)

Section FlushPoints.
Import AddressBuffer.

Lemma run_calls_spill (calls : list buffer_call) :
  forall a : t MemFile,
    data (rwc (run_calls calls a)) ++ buf (run_calls calls a) =
      (data (rwc a) ++ buf a) ++ concat (added calls) /\
    offset (rwc (run_calls calls a)) = offset (rwc a).
Proof.
  induction calls as [|[b|] calls IH]; intros a; cbn [run_calls added concat].
  - rewrite app_nil_r. split; reflexivity.
  - destruct (IH (Add b a)) as [-> ->]. cbn [Add buf rwc set_buf].
    rewrite <- !app_assoc. split; reflexivity.
  - destruct (MemFile_Write_ok a) as (a' & n & HW & Hb & _ & Hd).
    rewrite HW. cbn [fst]. destruct (IH a') as [-> ->].
    rewrite Hb, Hd, app_nil_r. split; [reflexivity|].
    unfold Write in HW. destruct (0 <? len (buf a)); inversion HW; reflexivity.
Qed.

(** X16: where the flushes fall does not matter. After any sequence of
    [Add] and [Write] calls on a write-mode buffer over a new file and one
    [Write] more, the file holds what was added, in the order of the
    additions, and the accumulator is empty; when what was added are
    addresses, as many calls of [Next] on a read-mode buffer over the file
    opened again return them, in order and with no error. *)
Theorem flush_points_do_not_matter
    (calls : list buffer_call) (wsize rsize : Z) (w r : t MemFile) :
  Forall is_address (added calls) ->
  NewAddressBuffer (mkMemFile [] 0) wsize true = Some w ->
  NewAddressBuffer (reopen (rwc (fst (Write (run_calls calls w))))) rsize false = Some r ->
  0 < rsize -> 20 * rsize + 20 <= max_int ->
  data (rwc (fst (Write (run_calls calls w)))) = concat (added calls) /\
  buf (fst (Write (run_calls calls w))) = [] /\
  snd (Next_n (length (added calls)) r) = (fun x => (x, None)) <$> added calls.
Proof.
  intros Hall Hw Hr Hpos Hfit.
  unfold NewAddressBuffer in Hw.
  destruct (int64 (wsize * AddressLength) <? 0); [discriminate|].
  inversion Hw; subst w; clear Hw.
  destruct (run_calls_spill calls (mk [] wsize (-1) (mkMemFile [] 0))) as [Hsp _].
  cbn [data rwc buf app] in Hsp.
  destruct (MemFile_Write_ok (run_calls calls (mk [] wsize (-1) (mkMemFile [] 0))))
    as (a' & n & HW & Hb & _ & Hd).
  rewrite HW in Hr |- *. cbn [fst] in Hr |- *. rewrite Hsp in Hd.
  split; [exact Hd|]. split; [exact Hb|].
  unfold reopen in Hr. rewrite Hd in Hr.
  apply (Next_n_reads (Z.to_nat rsize)); [lia|unfold max_int in *; lia|].
  apply fresh_reader_reads; assumption.
Qed.

Lemma flush_points_do_not_matter_witness :
  data (rwc (fst (Write (run_calls example_calls (mk [] 4 (-1) (mkMemFile [] 0)))))) =
    concat (added example_calls) /\
  buf (fst (Write (run_calls example_calls (mk [] 4 (-1) (mkMemFile [] 0))))) = [] /\
  snd (Next_n (length (added example_calls)) (mk (repeat x00 40) 2 (-1) three_records)) =
    (fun x => (x, None)) <$> added example_calls.
Proof.
  apply (flush_points_do_not_matter example_calls 4 2 (mk [] 4 (-1) (mkMemFile [] 0))).
  - repeat constructor.
  - reflexivity.
  - reflexivity.
  - lia.
  - unfold max_int. lia.
Defined.

End FlushPoints.

(** ** The contexts of the recoverers, run after run *)

(** X17: the stage reuses the cryptographic contexts. The start of the
    recoverers leaves the package variable [numOfGoroutines] as it is (the
    32 is a local of the same name), keeps the contexts there are and
    appends what is missing to 32, and hands out 32 of them; started once
    more it makes no context and hands out the same ones. *)
Theorem recoverers_reuse_the_contexts (g : Globals) :
  let run1 := start_recoverers false g in
  let run2 := start_recoverers false (fst run1) in
  numOfGoroutines (fst run1) = numOfGoroutines g /\
  cryptoContexts g `prefix_of` cryptoContexts (fst run1) /\
  len (cryptoContexts (fst run1)) = Z.max 32 (len (cryptoContexts g)) /\
  len (snd run1) = 32 /\
  fst run2 = fst run1 /\ snd run2 = snd run1.
Proof.
  cbn zeta.
  assert (Hrun : forall g0 : Globals,
            start_recoverers false g0 =
              ((if len (cryptoContexts g0) <? 32
                then append_new_contexts (Z.to_nat (32 - len (cryptoContexts g0))) g0
                else g0),
               take (Z.to_nat 32)
                 (cryptoContexts
                    (if len (cryptoContexts g0) <? 32
                     then append_new_contexts (Z.to_nat (32 - len (cryptoContexts g0))) g0
                     else g0)))) by reflexivity.
  rewrite (Hrun g). cbn [fst snd].
  destruct (len (cryptoContexts g) <? 32) eqn:E.
  - apply Z.ltb_lt in E.
    destruct (append_new_contexts_spec (Z.to_nat (32 - len (cryptoContexts g))) g)
      as (Hn & Hc & Hm).
    set (g1 := append_new_contexts (Z.to_nat (32 - len (cryptoContexts g))) g) in *.
    assert (Hl : len (cryptoContexts g1) = 32).
    { unfold len in *. rewrite Hc, length_app, length_seq. lia. }
    split; [exact Hn|]. split; [rewrite Hc; apply prefix_app_r; reflexivity|].
    split; [lia|].
    assert (Ht : take (Z.to_nat 32) (cryptoContexts g1) = cryptoContexts g1).
    { apply take_ge. unfold len in Hl. lia. }
    split; [rewrite Ht; exact Hl|].
    rewrite (Hrun g1). cbn [fst snd].
    replace (len (cryptoContexts g1) <? 32) with false by (symmetry; apply Z.ltb_ge; lia).
    split; reflexivity.
  - apply Z.ltb_ge in E.
    split; [reflexivity|]. split; [reflexivity|]. split; [lia|].
    split; [unfold len in *; rewrite length_take; lia|].
    rewrite (Hrun g). cbn [fst snd].
    replace (len (cryptoContexts g) <? 32) with false by (symmetry; apply Z.ltb_ge; lia).
    split; reflexivity.
Qed.

(** ** The accumulator of the writer *)

Section Accumulator.
Context {F : Type} `{ReadWriteCloser F}.
Import AddressBuffer.








End Accumulator.


(** ** The stage *)

Lemma batch_value : batch = 20480000.
Proof. reflexivity. Qed.

(** [make] does not panic for the window of the second phase. *)
Lemma NewAddressBuffer_batch {F : Type} `{ReadWriteCloser F} (f : F) :
  exists buf, AddressBuffer.NewAddressBuffer f batch false = Some buf.
Proof.
  unfold AddressBuffer.NewAddressBuffer.
  destruct (int64 (batch * AddressLength) <? 0) eqn:E; [|eexists; reflexivity].
  vm_compute in E. discriminate.
Qed.

(** A read-mode buffer as [NewAddressBuffer] makes it, over an empty file:
    the first call of [Next] reports [io.EOF]. *)
Lemma Next_on_an_empty_file (rsize : Z) (buf : AddressBuffer.t MemFile) :
  0 < rsize -> 20 * rsize + 20 <= max_int ->
  AddressBuffer.NewAddressBuffer (mkMemFile [] 0) rsize false = Some buf ->
  snd (AddressBuffer.Next buf) = (zeroAddress, Some io_EOF).
Proof.
  intros Hpos Hfit Hbuf.
  assert (HW : (0 < Z.to_nat rsize)%nat) by lia.
  assert (HWf : 20 * Z.of_nat (Z.to_nat rsize) + 20 <= max_int) by (unfold max_int in *; lia).
  rewrite <- (Z2Nat.id rsize) in Hbuf by lia.
  destruct (fresh_reader_window _ _ _ HWf Hbuf) as (Hw & Hend & Hf).
  apply (Next_at_the_end (Z.to_nat rsize) HW HWf buf _ Hw Hend).
  rewrite Hf. reflexivity.
Qed.

Section StageFacts.
Variable ChainConfig : Type.
Variable MakeSigner : ChainConfig -> Z -> Signer.
Variable config : ChainConfig.

Lemma Commit_empty (db : Store) : m_db (fst (Commit (NewBatch db))) = db.
Proof.
  unfold Commit, NewBatch. cbn [m_db m_puts].
  destruct (db_fault db); reflexivity.
Qed.

(** X12: [spawnRecoverSendersStage] does not return nil. When the blocks
    after the progress of the stage end at an absent block, the call ends,
    and it ends in one of two ways: it returns an error other than [io.EOF]
    without having called [s.Done()], or it calls [s.Done()] and panics
    with "DONE!!!". With [quitCh] closed at the start it returns
    [ErrStopped] and the database is as it was; when the spill file at the
    fixed path cannot be opened it returns the error of the open, and the
    database is as it was. *)
Theorem stage_never_returns_nil {F : Type} `{ReadWriteCloser F}
    (k fuel : nat) (OpenFile : string -> F + error) (s : StageState) (stateDB : Store)
    (datadir : string) (quit_closed : bool) :
  (k < fuel)%nat -> Z.of_nat k < 2 ^ 64 ->
  getBlockBody ChainConfig MakeSigner (NewBatch stateDB) config
    (u64 (u64 (BlockNumber s + 1) + Z.of_nat k)) = None ->
  exists run : StageRun,
    spawnRecoverSendersStage ChainConfig MakeSigner fuel OpenFile s stateDB config datadir
      quit_closed = Some run /\
    run_outcome run <> StageReturned None /\
    (run_outcome run = StagePanicked "DONE!!!" /\ run_done run = true \/
     exists e, run_outcome run = StageReturned (Some e) /\ e <> io_EOF /\ run_done run = false) /\
    (quit_closed = true -> run = mkStageRun stateDB false (StageReturned (Some ErrStopped))) /\
    (quit_closed = false ->
     forall e, OpenFile "/mnt/sdb/turbo-geth/froms_13_0_17.out"%string = inr e -> e <> io_EOF ->
       run = mkStageRun stateDB false (StageReturned (Some e))).
Proof.
  intros Hf Hk Habs. unfold spawnRecoverSendersStage.
  destruct quit_closed.
  { eexists. split; [reflexivity|]. cbn [run_outcome run_done].
    split; [discriminate|]. split; [|split; [reflexivity|discriminate]].
    right. exists ErrStopped. repeat split; discriminate. }
  unfold recoverSendersFromDisk.
  destruct (OpenFile "/mnt/sdb/turbo-geth/froms_13_0_17.out"%string) as [f|e0] eqn:Eopen.
  - destruct (NewAddressBuffer_batch f) as (buf & ->).
    unfold writeBatchFromDisk.
    destruct (writeBatchFromDisk_loop_returns ChainConfig MakeSigner config s k fuel
                (mkApplyState buf (NewBatch stateDB) (u64 (BlockNumber s + 1)))
                Hf Hk (u64_range _) Habs) as (st' & r & ->).
    destruct (rwc_Close (AddressBuffer.rwc (a_buf st'))) as [f' ce].
    assert (Hcases : forall e : error,
              exists run : StageRun,
                (if negb (is_EOF e)
                 then Some (mkStageRun (m_db (fst (Commit (a_mutation st')))) false
                              (StageReturned (Some e)))
                 else Some (mkStageRun (m_db (fst (Commit (a_mutation st')))) true
                              (StagePanicked "DONE!!!"))) = Some run /\
                run_outcome run <> StageReturned None /\
                (run_outcome run = StagePanicked "DONE!!!" /\ run_done run = true \/
                 exists e, run_outcome run = StageReturned (Some e) /\ e <> io_EOF /\
                           run_done run = false)).
    { intros e. destruct (is_EOF e) eqn:Ee; cbn [negb].
      - eexists. split; [reflexivity|]. cbn [run_outcome run_done].
        split; [discriminate|]. left. split; reflexivity.
      - eexists. split; [reflexivity|]. cbn [run_outcome run_done].
        split; [discriminate|]. right. exists e. repeat split.
        intros ->. discriminate. }
    destruct r as [e|].
    + destruct (Hcases e) as (run & -> & H1 & H2). exists run.
      split; [reflexivity|]. split; [exact H1|]. split; [exact H2|].
      split; [discriminate|]. intros _ e' He'. discriminate.
    + eexists. split; [reflexivity|]. cbn [run_outcome run_done].
      split; [discriminate|]. split; [left; split; reflexivity|].
      split; [discriminate|]. intros _ e' He'. discriminate.
  - rewrite Commit_empty.
    destruct (is_EOF e0) eqn:Ee; cbn [negb].
    + eexists. split; [reflexivity|]. cbn [run_outcome run_done].
      split; [discriminate|]. split; [left; split; reflexivity|].
      split; [discriminate|]. intros _ e' He' Hne. inversion He'; subst e'.
      destruct e0; try discriminate. contradiction.
    + eexists. split; [reflexivity|]. cbn [run_outcome run_done].
      split; [discriminate|]. split.
      * right. exists e0. repeat split. intros ->. discriminate.
      * split; [discriminate|]. intros _ e' He' _. inversion He'; subst e'. reflexivity.
Qed.

Lemma batch_fits : 0 < batch /\ 20 * batch + 20 <= max_int.
Proof. rewrite batch_value. unfold max_int. lia. Qed.

(** The window of the second phase over a file of whole records. *)
Lemma batch_reader_reads (rest : list Address) (buf : AddressBuffer.t MemFile) :
  Forall is_address rest ->
  AddressBuffer.NewAddressBuffer (mkMemFile (concat rest) 0) batch false = Some buf ->
  exists W : nat, (0 < W)%nat /\ 20 * Z.of_nat W + 20 <= max_int /\ reads W buf rest.
Proof.
  intros Hall Hbuf. exists (Z.to_nat batch).
  split; [|split].
  - rewrite batch_value. lia.
  - rewrite batch_value. unfold max_int. lia.
  - exact (fresh_reader_reads batch rest buf (proj1 batch_fits) (proj2 batch_fits) Hall Hbuf).
Qed.

(** X14: an empty spill file counts as a finished one. When the spill file
    at the fixed path is empty and the block after the progress of the
    stage is present with at least one transaction, the first [Next]
    reports [io.EOF], the apply pass returns it, and the stage takes it for
    success: it calls [s.Done()] and panics with "DONE!!!", leaving the
    database as it was, with no sender set. *)
Theorem stage_accepts_an_empty_spill_file
    (fuel : nat) (OpenFile : string -> MemFile + error) (s : StageState) (stateDB : Store)
    (datadir : string) (job : senderRecoveryJob) :
  OpenFile "/mnt/sdb/turbo-geth/froms_13_0_17.out"%string = inl (mkMemFile [] 0) ->
  getBlockBody ChainConfig MakeSigner (NewBatch stateDB) config (u64 (BlockNumber s + 1)) =
    Some job ->
  Transactions (job_blockBody job) <> [] ->
  spawnRecoverSendersStage ChainConfig MakeSigner (S fuel) OpenFile s stateDB config datadir
    false = Some (mkStageRun stateDB true (StagePanicked "DONE!!!")).
Proof.
  intros Hopen Hjob Htxs.
  unfold spawnRecoverSendersStage, recoverSendersFromDisk. rewrite Hopen.
  destruct (NewAddressBuffer_batch (mkMemFile [] 0)) as (buf & Hbuf). rewrite Hbuf.
  pose proof (Next_on_an_empty_file batch buf (proj1 batch_fits) (proj2 batch_fits) Hbuf) as HE.
  clear Hbuf.
  unfold writeBatchFromDisk. cbn [writeBatchFromDisk_loop a_mutation a_nextBlockNumber a_buf].
  rewrite Hjob.
  destruct (Transactions (job_blockBody job)) as [|tx txs]; [contradiction|].
  cbn [setFroms]. destruct (AddressBuffer.Next buf) as [buf' [addr e]].
  cbn [snd] in HE. inversion HE; subst addr e.
  cbn [a_buf a_mutation rwc_Close MemFile_rwc is_EOF negb]. rewrite Commit_empty. reflexivity.
Qed.

(** While the batch is short of its ideal size the loop of the apply pass
    only puts bodies: it neither saves progress nor commits. *)
Lemma apply_loop_below_the_ideal_size {F : Type} `{ReadWriteCloser F} (s : StageState) :
  forall (fuel : nat) (st st' : ApplyState) (r : option error),
    BatchSize (a_mutation st) + Z.of_nat fuel < IdealBatchSize (a_mutation st) ->
    writeBatchFromDisk_loop ChainConfig MakeSigner fuel s config st = Some (st', r) ->
    m_db (a_mutation st') = m_db (a_mutation st) /\
    exists puts' : list entry,
      m_puts (a_mutation st') = puts' ++ m_puts (a_mutation st) /\
      Forall is_body_entry puts'.
Proof.
  induction fuel as [|fuel IH]; intros st st' r Hroom Hrun; [discriminate|].
  cbn [writeBatchFromDisk_loop] in Hrun.
  destruct (getBlockBody ChainConfig MakeSigner (a_mutation st) config (a_nextBlockNumber st))
    as [job|].
  2:{ inversion Hrun; subst. split; [reflexivity|]. exists []. split; [reflexivity|constructor]. }
  destruct (setFroms (a_buf st) (Transactions (job_blockBody job))) as [buf [txs|e]].
  2:{ inversion Hrun; subst. cbn [a_mutation].
      split; [reflexivity|]. exists []. split; [reflexivity|constructor]. }
  set (m1 := WriteBody (a_mutation st) (job_hash job) (job_nextBlockNumber job) (mkBody txs)) in *.
  assert (Hm1 : m_db m1 = m_db (a_mutation st) /\
                m_puts m1 =
                  BodyEntry (job_nextBlockNumber job) (job_hash job) (mkBody txs)
                    :: m_puts (a_mutation st)) by (split; reflexivity).
  destruct Hm1 as [Hdb1 Hputs1].
  assert (Hsize : BatchSize m1 = BatchSize (a_mutation st) + 1).
  { unfold BatchSize, len. rewrite Hputs1. cbn [length]. lia. }
  assert (Hideal : IdealBatchSize m1 = IdealBatchSize (a_mutation st)).
  { unfold IdealBatchSize. rewrite Hdb1. reflexivity. }
  replace (IdealBatchSize m1 <=? BatchSize m1) with false in Hrun
    by (symmetry; apply Z.leb_gt; lia).
  apply IH in Hrun; [|cbn [a_mutation]; lia].
  destruct Hrun as (Hdb & puts' & Hputs & Hall).
  cbn [a_mutation] in Hdb, Hputs. split; [congruence|].
  exists (puts' ++ [BodyEntry (job_nextBlockNumber job) (job_hash job) (mkBody txs)]).
  split.
  - rewrite Hputs, Hputs1, <- app_assoc. reflexivity.
  - apply Forall_app. split; [exact Hall|]. constructor; [exact I|constructor].
Qed.

Lemma committed_bodies_keep_the_cursor (puts : list entry) (db : Store) :
  Forall is_body_entry puts ->
  stageProgress (foldr apply_entry db puts) = stageProgress db /\
  stageUnwind (foldr apply_entry db puts) = stageUnwind db.
Proof.
  induction 1 as [|e puts He _ IH]; [split; reflexivity|].
  cbn [foldr]. destruct e; try contradiction. cbn [apply_entry stageProgress stageUnwind].
  exact IH.
Qed.

(** The run of the stage over a complete spill file: the apply pass
    returns nil, the deferred commit succeeds, and the stage panics. *)
Lemma stage_over_a_complete_file
    (fuel : nat) (OpenFile : string -> MemFile + error) (s : StageState) (stateDB : Store)
    (datadir : string) (blocks : list (list Transaction)) (addrs : list (list Address))
    (extra : list Address) :
  (length blocks < fuel)%nat -> 0 <= BlockNumber s -> BlockNumber s + 1 + len blocks < 2 ^ 64 ->
  OpenFile "/mnt/sdb/turbo-geth/froms_13_0_17.out"%string =
    inl (mkMemFile (concat (concat addrs ++ extra)) 0) ->
  Forall is_address (concat addrs ++ extra) ->
  Forall2 (fun (txs : list Transaction) (ads : list Address) => length ads = length txs)
    blocks addrs ->
  db_fault stateDB = None ->
  (forall (i : nat) (txs : list Transaction),
     blocks !! i = Some txs ->
     exists job,
       getBlockBody ChainConfig MakeSigner (NewBatch stateDB) config
         (BlockNumber s + 1 + Z.of_nat i) = Some job /\
       Transactions (job_blockBody job) = txs) ->
  getBlockBody ChainConfig MakeSigner (NewBatch stateDB) config
    (BlockNumber s + 1 + len blocks) = None ->
  exists (buf : AddressBuffer.t MemFile) (st' : ApplyState),
    writeBatchFromDisk_loop ChainConfig MakeSigner fuel s config
      (mkApplyState buf (NewBatch stateDB) (BlockNumber s + 1)) = Some (st', None) /\
    db_fault (m_db (a_mutation st')) = None /\
    spawnRecoverSendersStage ChainConfig MakeSigner fuel OpenFile s stateDB config datadir false =
      Some (mkStageRun (foldr apply_entry (m_db (a_mutation st')) (m_puts (a_mutation st')))
              true (StagePanicked "DONE!!!")) /\
    (forall (i : nat) (txs : list Transaction) (ads : list Address),
       blocks !! i = Some txs -> addrs !! i = Some ads ->
       exists job',
         getBlockBody ChainConfig MakeSigner (a_mutation st') config
           (BlockNumber s + 1 + Z.of_nat i) = Some job' /\
         Transactions (job_blockBody job') = zip_with SetFrom ads txs) /\
    (forall j : Z,
       ~ (BlockNumber s < j <= BlockNumber s + len blocks) ->
       getBlockBody ChainConfig MakeSigner (a_mutation st') config j =
       getBlockBody ChainConfig MakeSigner (NewBatch stateDB) config j).
Proof.
  intros Hf H0 Hmax Hopen Hall Hlen Hdb Hpres Habs.
  assert (Hlb : 0 <= len blocks) by (unfold len; lia).
  unfold spawnRecoverSendersStage, recoverSendersFromDisk. rewrite Hopen.
  destruct (NewAddressBuffer_batch (mkMemFile (concat (concat addrs ++ extra)) 0))
    as (buf & Hbuf).
  rewrite Hbuf.
  destruct (batch_reader_reads _ buf Hall Hbuf) as (W & HW & HWf & Hr). clear Hbuf.
  unfold writeBatchFromDisk. rewrite (u64_small (BlockNumber s + 1)) by lia.
  destruct (apply_loop_sets_senders ChainConfig MakeSigner config W HW HWf s
              blocks addrs fuel (mkApplyState buf (NewBatch stateDB) (BlockNumber s + 1)) extra)
    as (st' & Hrun & Hnext & Hrd & Hdbf & Hframe & Hset);
    cbn [a_buf a_mutation a_nextBlockNumber]; try assumption; try lia.
  cbn [a_buf a_mutation a_nextBlockNumber] in *.
  exists buf, st'. split; [exact Hrun|]. split; [exact Hdbf|].
  rewrite Hrun. cbn [rwc_Close MemFile_rwc].
  unfold Commit. rewrite Hdbf. cbn [fst m_db].
  split; [reflexivity|]. split.
  - intros i txs ads Hi Ha. destruct (Hset i txs ads Hi Ha) as (job & _ & E).
    eexists. split; [exact E|reflexivity].
  - intros j Hj. apply Hframe. lia.
Qed.

(** X13: the stage over a database that does not fail and a spill file, at
    the fixed path, that holds one record for every transaction of the
    blocks after the progress of the stage up to the first absent one: the
    call ends in the panic "DONE!!!" after [s.Done()], and the database it
    leaves (the deferred commit has run) holds each of these blocks with its
    transactions carrying, in order, the records of the file that fall to
    them, and every other block as before. *)
Theorem stage_applies_the_spill_file
    (fuel : nat) (OpenFile : string -> MemFile + error) (s : StageState) (stateDB : Store)
    (datadir : string) (blocks : list (list Transaction)) (addrs : list (list Address))
    (extra : list Address) :
  (length blocks < fuel)%nat -> 0 <= BlockNumber s -> BlockNumber s + 1 + len blocks < 2 ^ 64 ->
  OpenFile "/mnt/sdb/turbo-geth/froms_13_0_17.out"%string =
    inl (mkMemFile (concat (concat addrs ++ extra)) 0) ->
  Forall is_address (concat addrs ++ extra) ->
  Forall2 (fun (txs : list Transaction) (ads : list Address) => length ads = length txs)
    blocks addrs ->
  db_fault stateDB = None ->
  (forall (i : nat) (txs : list Transaction),
     blocks !! i = Some txs ->
     exists job,
       getBlockBody ChainConfig MakeSigner (NewBatch stateDB) config
         (BlockNumber s + 1 + Z.of_nat i) = Some job /\
       Transactions (job_blockBody job) = txs) ->
  getBlockBody ChainConfig MakeSigner (NewBatch stateDB) config
    (BlockNumber s + 1 + len blocks) = None ->
  exists run : StageRun,
    spawnRecoverSendersStage ChainConfig MakeSigner fuel OpenFile s stateDB config datadir false =
      Some run /\
    run_outcome run = StagePanicked "DONE!!!" /\ run_done run = true /\
    db_fault (run_db run) = None /\
    (forall (i : nat) (txs : list Transaction) (ads : list Address),
       blocks !! i = Some txs -> addrs !! i = Some ads ->
       exists job',
         getBlockBody ChainConfig MakeSigner (NewBatch (run_db run)) config
           (BlockNumber s + 1 + Z.of_nat i) = Some job' /\
         Transactions (job_blockBody job') = zip_with SetFrom ads txs) /\
    (forall j : Z,
       ~ (BlockNumber s < j <= BlockNumber s + len blocks) ->
       getBlockBody ChainConfig MakeSigner (NewBatch (run_db run)) config j =
       getBlockBody ChainConfig MakeSigner (NewBatch stateDB) config j).
Proof.
  intros Hf H0 Hmax Hopen Hall Hlen Hdb Hpres Habs.
  destruct (stage_over_a_complete_file fuel OpenFile s stateDB datadir blocks addrs extra
              Hf H0 Hmax Hopen Hall Hlen Hdb Hpres Habs)
    as (buf & st' & _ & Hdbf & Hstage & Hset & Hframe).
  assert (Ec : Commit (a_mutation st') =
               (mkMutation (foldr apply_entry (m_db (a_mutation st')) (m_puts (a_mutation st'))) [],
                None)).
  { unfold Commit. rewrite Hdbf. reflexivity. }
  eexists. split; [exact Hstage|]. cbn [run_outcome run_done run_db].
  split; [reflexivity|]. split; [reflexivity|]. split; [|split].
  - destruct (committed_reads (m_puts (a_mutation st')) (m_db (a_mutation st')) 0 [])
      as (_ & _ & Hfa).
    etrans; [exact Hfa|exact Hdbf].
  - intros i txs ads Hi Ha.
    rewrite (getBlockBody_Commit ChainConfig MakeSigner config _ _ _ Ec).
    apply (Hset i txs ads Hi Ha).
  - intros j Hj.
    rewrite (getBlockBody_Commit ChainConfig MakeSigner config _ _ _ Ec). apply Hframe. exact Hj.
Qed.

(** X15: the apply pass saves the progress of the stage only when the
    batch reaches its ideal size, and the stage, which commits the batch at
    its end, saves none. Over a complete spill file and a database whose
    ideal batch size is beyond the number of iterations, the stage ends in
    the panic "DONE!!!" with the bodies committed (X13) and the progress
    of the stage as it was. *)
Theorem stage_does_not_save_the_tail
    (fuel : nat) (OpenFile : string -> MemFile + error) (s : StageState) (stateDB : Store)
    (datadir : string) (blocks : list (list Transaction)) (addrs : list (list Address))
    (extra : list Address) :
  (length blocks < fuel)%nat -> 0 <= BlockNumber s -> BlockNumber s + 1 + len blocks < 2 ^ 64 ->
  OpenFile "/mnt/sdb/turbo-geth/froms_13_0_17.out"%string =
    inl (mkMemFile (concat (concat addrs ++ extra)) 0) ->
  Forall is_address (concat addrs ++ extra) ->
  Forall2 (fun (txs : list Transaction) (ads : list Address) => length ads = length txs)
    blocks addrs ->
  db_fault stateDB = None ->
  (forall (i : nat) (txs : list Transaction),
     blocks !! i = Some txs ->
     exists job,
       getBlockBody ChainConfig MakeSigner (NewBatch stateDB) config
         (BlockNumber s + 1 + Z.of_nat i) = Some job /\
       Transactions (job_blockBody job) = txs) ->
  getBlockBody ChainConfig MakeSigner (NewBatch stateDB) config
    (BlockNumber s + 1 + len blocks) = None ->
  Z.of_nat fuel < idealBatchSize stateDB ->
  exists run : StageRun,
    spawnRecoverSendersStage ChainConfig MakeSigner fuel OpenFile s stateDB config datadir false =
      Some run /\
    run_outcome run = StagePanicked "DONE!!!" /\ run_done run = true /\
    stageProgress (run_db run) = stageProgress stateDB /\
    GetStageProgress (run_db run) (Stage s) = GetStageProgress stateDB (Stage s).
Proof.
  intros Hf H0 Hmax Hopen Hall Hlen Hdb Hpres Habs Hroom.
  destruct (stage_over_a_complete_file fuel OpenFile s stateDB datadir blocks addrs extra
              Hf H0 Hmax Hopen Hall Hlen Hdb Hpres Habs)
    as (buf & st' & Hrun & Hdbf & Hstage & _).
  assert (Hbelow : BatchSize (NewBatch stateDB) + Z.of_nat fuel <
                   IdealBatchSize (NewBatch stateDB))
    by (unfold BatchSize, IdealBatchSize, len; cbn [NewBatch m_puts m_db length]; lia).
  destruct (apply_loop_below_the_ideal_size s fuel
              (mkApplyState buf (NewBatch stateDB) (BlockNumber s + 1)) st' None Hbelow Hrun)
    as (Hsame & puts' & Hputs & Hbodies).
  cbn [a_mutation NewBatch m_db m_puts] in Hsame, Hputs. rewrite app_nil_r in Hputs.
  eexists. split; [exact Hstage|]. cbn [run_outcome run_done run_db].
  split; [reflexivity|]. split; [reflexivity|].
  rewrite Hsame, Hputs.
  destruct (committed_bodies_keep_the_cursor puts' stateDB Hbodies) as [Hp _].
  split; [exact Hp|].
  unfold GetStageProgress. rewrite Hp.
  destruct (committed_reads puts' stateDB 0 []) as (_ & _ & ->). reflexivity.
Qed.

End StageFacts.

Lemma stage_never_returns_nil_witness :
  exists run : StageRun,
    spawnRecoverSendersStage unit example_MakeSigner 5 example_OpenFile (mkStageState Senders 0)
      one_block_db tt "datadir" false = Some run /\
    run_outcome run <> StageReturned None /\
    (run_outcome run = StagePanicked "DONE!!!" /\ run_done run = true \/
     exists e, run_outcome run = StageReturned (Some e) /\ e <> io_EOF /\ run_done run = false) /\
    (false = true -> run = mkStageRun one_block_db false (StageReturned (Some ErrStopped))) /\
    (false = false ->
     forall e, example_OpenFile "/mnt/sdb/turbo-geth/froms_13_0_17.out"%string = inr e ->
       e <> io_EOF -> run = mkStageRun one_block_db false (StageReturned (Some e))).
Proof.
  apply (stage_never_returns_nil unit example_MakeSigner tt 1 5 example_OpenFile
           (mkStageState Senders 0) one_block_db "datadir" false).
  - lia.
  - lia.
  - vm_compute. reflexivity.
Defined.

Lemma stage_applies_the_spill_file_witness :
  exists run : StageRun,
    spawnRecoverSendersStage unit example_MakeSigner 5 example_OpenFile (mkStageState Senders 0)
      one_block_db tt "datadir" false = Some run /\
    run_outcome run = StagePanicked "DONE!!!" /\ run_done run = true /\
    db_fault (run_db run) = None /\
    (forall (i : nat) (txs : list Transaction) (ads : list Address),
       [Transactions example_body] !! i = Some txs ->
       [[addr_of x01; addr_of x02]] !! i = Some ads ->
       exists job',
         getBlockBody unit example_MakeSigner (NewBatch (run_db run)) tt
           (BlockNumber (mkStageState Senders 0) + 1 + Z.of_nat i) = Some job' /\
         Transactions (job_blockBody job') = zip_with SetFrom ads txs) /\
    (forall j : Z,
       ~ (BlockNumber (mkStageState Senders 0) < j <=
          BlockNumber (mkStageState Senders 0) + len [Transactions example_body]) ->
       getBlockBody unit example_MakeSigner (NewBatch (run_db run)) tt j =
       getBlockBody unit example_MakeSigner (NewBatch one_block_db) tt j).
Proof.
  apply (stage_applies_the_spill_file unit example_MakeSigner tt 5 example_OpenFile
           (mkStageState Senders 0) one_block_db "datadir"
           [Transactions example_body] [[addr_of x01; addr_of x02]] [addr_of x03]).
  - simpl. lia.
  - simpl. lia.
  - unfold len. simpl. lia.
  - reflexivity.
  - repeat constructor.
  - repeat constructor.
  - reflexivity.
  - intros [|i] txs Hi.
    + cbn in Hi. inversion Hi; subst txs. eexists. split; [vm_compute; reflexivity|reflexivity].
    + destruct i; discriminate.
  - vm_compute. reflexivity.
Defined.

Lemma stage_accepts_an_empty_spill_file_witness :
  spawnRecoverSendersStage unit example_MakeSigner 1 empty_OpenFile (mkStageState Senders 0)
    one_block_db tt "datadir" false =
    Some (mkStageRun one_block_db true (StagePanicked "DONE!!!")).
Proof.
  apply (stage_accepts_an_empty_spill_file unit example_MakeSigner tt 0 empty_OpenFile
           (mkStageState Senders 0) one_block_db "datadir"
           (mkJob example_signer example_body example_hash 1 None)).
  - reflexivity.
  - vm_compute. reflexivity.
  - discriminate.
Defined.

Lemma stage_does_not_save_the_tail_witness :
  exists run : StageRun,
    spawnRecoverSendersStage unit example_MakeSigner 5 example_OpenFile (mkStageState Senders 0)
      roomy_db tt "datadir" false = Some run /\
    run_outcome run = StagePanicked "DONE!!!" /\ run_done run = true /\
    stageProgress (run_db run) = stageProgress roomy_db /\
    GetStageProgress (run_db run) (Stage (mkStageState Senders 0)) =
      GetStageProgress roomy_db (Stage (mkStageState Senders 0)).
Proof.
  apply (stage_does_not_save_the_tail unit example_MakeSigner tt 5 example_OpenFile
           (mkStageState Senders 0) roomy_db "datadir"
           [Transactions example_body] [[addr_of x01; addr_of x02]] [addr_of x03]).
  - simpl. lia.
  - simpl. lia.
  - unfold len. simpl. lia.
  - reflexivity.
  - repeat constructor.
  - repeat constructor.
  - reflexivity.
  - intros [|i] txs Hi.
    + cbn in Hi. inversion Hi; subst txs. eexists. split; [vm_compute; reflexivity|reflexivity].
    + destruct i; discriminate.
  - vm_compute. reflexivity.
  - simpl. lia.
Defined.

(** ** From the spill file to the bodies *)

Lemma block_range_lookup (first : Z) (n i : nat) (x : Z) :
  block_range first n !! i = Some x <-> x = first + Z.of_nat i /\ (i < n)%nat.
Proof.
  unfold block_range. rewrite list_lookup_fmap. split.
  - destruct (seq 0 n !! i) as [j|] eqn:E; [|discriminate]. cbn.
    apply lookup_seq in E as [-> Hi]. intros Hx; inversion Hx. split; [reflexivity|exact Hi].
  - intros [-> Hi]. rewrite lookup_seq_lt by exact Hi. reflexivity.
Qed.

Lemma whole_addresses_concat (jobs : list TxsFroms) :
  whole_addresses jobs -> Forall is_address (concat (froms <$> jobs)).
Proof.
  induction 1 as [|j jobs Hj _ IH]; [constructor|].
  cbn [fmap list_fmap concat]. apply Forall_app. split; assumption.
Qed.

Lemma bytes_of_concat (jobs : list TxsFroms) :
  bytes_of jobs = concat (concat (froms <$> jobs)).
Proof.
  unfold bytes_of. f_equal. induction jobs as [|j jobs IH]; [reflexivity|].
  cbn [flat_map fmap list_fmap concat]. rewrite IH. reflexivity.
Qed.

Section Pipeline.
Variable ChainConfig : Type.
Variable MakeSigner : ChainConfig -> Z -> Signer.
Variable config : ChainConfig.
Import AddressBuffer.

(** X19: what the writer spills is what the apply pass expects. The results
    of the blocks [first], [first + 1], ..., one for each, arrive in any
    order with no error and no channel closed, each with one address of 20
    bytes for every transaction of its block; [writeOnDiskBatch] spills
    them to a new file, and [writeBatchFromDisk] reads the file, opened
    again, from the block [first] on, over a database that does not fail.
    Then the writer returns nil, the apply pass returns nil, and every
    block reads back with its transactions carrying, in order, the
    addresses of the result of that block. *)
Theorem spill_then_apply
    (s : StageState) (mutation : Mutation) (first : Z) (evs : list Recv)
    (jobs : list senderRecoveryJob) (wsize rsize : Z) (w r : t MemFile) (fuel : nat) :
  Forall plain evs ->
  blockNumber <$> (res <$> evs) ≡ₚ block_range first (length evs) ->
  whole_addresses (res <$> evs) ->
  1 <= first -> first + len evs < 2 ^ 64 ->
  length jobs = length evs ->
  (forall (i : nat) (job : senderRecoveryJob),
     jobs !! i = Some job ->
     getBlockBody ChainConfig MakeSigner mutation config (first + Z.of_nat i) = Some job) ->
  getBlockBody ChainConfig MakeSigner mutation config (first + len evs) = None ->
  (forall (ev : Recv) (i : nat) (job : senderRecoveryJob),
     ev ∈ evs -> blockNumber (res ev) = first + Z.of_nat i -> jobs !! i = Some job ->
     length (froms (res ev)) = length (Transactions (job_blockBody job))) ->
  db_fault (m_db mutation) = None ->
  NewAddressBuffer (mkMemFile [] 0) wsize true = Some w ->
  NewAddressBuffer (reopen (rwc (w_buf (fst (writeOnDiskBatch w first evs))))) rsize false =
    Some r ->
  0 < rsize -> 20 * rsize + 20 <= max_int ->
  (length evs < fuel)%nat ->
  exists st' : ApplyState,
    snd (writeOnDiskBatch w first evs) = Returned None /\
    writeBatchFromDisk ChainConfig MakeSigner fuel r s config mutation (first - 1) =
      Some (st', None) /\
    forall (ev : Recv) (i : nat) (job : senderRecoveryJob),
      ev ∈ evs -> blockNumber (res ev) = first + Z.of_nat i -> jobs !! i = Some job ->
      exists job',
        getBlockBody ChainConfig MakeSigner (a_mutation st') config (first + Z.of_nat i) =
          Some job' /\
        Transactions (job_blockBody job') =
          zip_with SetFrom (froms (res ev)) (Transactions (job_blockBody job)).
Proof.
  intros Hplain Hrange Hwhole H1 Hmax Hjl Hjobs Habs Hlens Hdb Hw Hr Hpos Hfit Hfuel.
  destruct (writer_loop_sorted w first first evs Hplain Hrange ltac:(lia) ltac:(lia))
    as (sorted & Hperm & Hbn & Hret & Hfile).
  unfold NewAddressBuffer in Hw.
  destruct (int64 (wsize * AddressLength) <? 0); [discriminate|].
  inversion Hw; subst w; clear Hw.
  unfold writeOnDiskBatch in Hr |- *.
  destruct (writer_loop first evs (writer_init (mk [] wsize (-1) (mkMemFile [] 0))))
    as [stw rw]. cbn [fst snd] in Hret, Hfile. subst rw.
  destruct (writer_deferred_MemFile stw None) as (stw' & Hdef & Hd & _).
  rewrite Hdef in Hr |- *. cbn [fst snd] in Hr |- *.
  rewrite Hfile in Hd. cbn [data rwc buf app] in Hd.
  unfold reopen in Hr. rewrite Hd, bytes_of_concat in Hr.
  pose (addrs := froms <$> sorted).
  pose (blocks := (fun j : senderRecoveryJob => Transactions (job_blockBody j)) <$> jobs).
  assert (Hsl : length sorted = length evs).
  { apply Permutation_length in Hperm. rewrite length_fmap in Hperm. exact Hperm. }
  assert (Hsw : whole_addresses sorted).
  { unfold whole_addresses in *. rewrite Hperm. exact Hwhole. }
  assert (Hsorted_at : forall (i : nat) (rr : TxsFroms),
            sorted !! i = Some rr -> blockNumber rr = first + Z.of_nat i).
  { intros i rr Hi.
    assert (Hb : (blockNumber <$> sorted) !! i = Some (blockNumber rr))
      by (rewrite list_lookup_fmap, Hi; reflexivity).
    rewrite Hbn in Hb. apply block_range_lookup in Hb. apply Hb. }
  assert (Hfrom_ev : forall rr : TxsFroms, rr ∈ sorted -> exists ev, ev ∈ evs /\ res ev = rr).
  { intros rr Hin. rewrite Hperm in Hin. apply list_elem_of_fmap in Hin as (ev & -> & Hev).
    exists ev. split; [exact Hev|reflexivity]. }
  assert (Hev_at : forall (ev : Recv) (i : nat),
            ev ∈ evs -> blockNumber (res ev) = first + Z.of_nat i ->
            sorted !! i = Some (res ev)).
  { intros ev i Hev Hi.
    assert (Hin : res ev ∈ sorted).
    { rewrite Hperm. apply list_elem_of_fmap. exists ev. split; [reflexivity|exact Hev]. }
    apply list_elem_of_lookup in Hin as [j Hj].
    pose proof (Hsorted_at j _ Hj) as Hbj.
    assert (j = i) by lia. subst j. exact Hj. }
  assert (Hl2 : Forall2 (fun (txs : list Transaction) (ads : list Address) =>
                           length ads = length txs) blocks addrs).
  { apply Forall2_same_length_lookup_2.
    - unfold blocks, addrs. rewrite !length_fmap. lia.
    - intros i txs ads Hb Ha. unfold blocks in Hb. unfold addrs in Ha.
      rewrite list_lookup_fmap in Hb. rewrite list_lookup_fmap in Ha.
      destruct (jobs !! i) as [job|] eqn:Ej; [|discriminate].
      destruct (sorted !! i) as [rr|] eqn:Es; [|discriminate].
      cbn in Hb, Ha. inversion Hb; inversion Ha; subst txs ads.
      destruct (Hfrom_ev rr (list_elem_of_lookup_2 _ _ _ Es)) as (ev & Hev & <-).
      apply (Hlens ev i job Hev (Hsorted_at i _ Es) Ej). }
  assert (HW : (0 < Z.to_nat rsize)%nat) by lia.
  assert (HWf : 20 * Z.of_nat (Z.to_nat rsize) + 20 <= max_int) by (unfold max_int in *; lia).
  assert (Hbl : len blocks = len evs) by (unfold len, blocks; rewrite length_fmap; lia).
  unfold writeBatchFromDisk. replace (first - 1 + 1) with first by lia.
  rewrite (u64_small first) by (unfold len in Hmax; lia).
  destruct (apply_loop_sets_senders ChainConfig MakeSigner config (Z.to_nat rsize) HW HWf s
              blocks addrs fuel (mkApplyState r mutation first) [])
    as (st' & Hrun & _ & _ & _ & _ & Hset);
    cbn [a_buf a_mutation a_nextBlockNumber].
  - unfold blocks. rewrite length_fmap. lia.
  - lia.
  - lia.
  - rewrite app_nil_r. apply fresh_reader_reads; try assumption.
    apply whole_addresses_concat. exact Hsw.
  - exact Hl2.
  - exact Hdb.
  - intros i txs Hi. unfold blocks in Hi. rewrite list_lookup_fmap in Hi.
    destruct (jobs !! i) as [job|] eqn:Ej; [|discriminate]. cbn in Hi. inversion Hi; subst txs.
    exists job. split; [apply Hjobs; exact Ej|reflexivity].
  - rewrite Hbl. exact Habs.
  - cbn [a_buf a_mutation a_nextBlockNumber] in *.
    exists st'. split; [reflexivity|]. split; [exact Hrun|].
    intros ev i job Hev Hi Ej.
    destruct (Hset i (Transactions (job_blockBody job)) (froms (res ev))) as (job0 & E0 & E1).
    + unfold blocks. rewrite list_lookup_fmap, Ej. reflexivity.
    + unfold addrs. rewrite list_lookup_fmap, (Hev_at ev i Hev Hi). reflexivity.
    + eexists. split; [exact E1|reflexivity].
Qed.

End Pipeline.

Lemma spill_then_apply_witness :
  exists st' : ApplyState,
    snd (writeOnDiskBatch (AddressBuffer.mk [] 4 (-1) (mkMemFile [] 0)) 5 shuffled_results) =
      Returned None /\
    writeBatchFromDisk unit example_MakeSigner 5
      (AddressBuffer.mk (repeat x00 40) 2 (-1)
         (mkMemFile (addr_of x05 ++ addr_of x06 ++ addr_of x07) 0))
      (mkStageState Senders 4) tt (NewBatch three_block_db) (5 - 1) = Some (st', None) /\
    forall (ev : Recv) (i : nat) (job : senderRecoveryJob),
      ev ∈ shuffled_results -> blockNumber (res ev) = 5 + Z.of_nat i ->
      three_jobs !! i = Some job ->
      exists job',
        getBlockBody unit example_MakeSigner (a_mutation st') tt (5 + Z.of_nat i) = Some job' /\
        Transactions (job_blockBody job') =
          zip_with SetFrom (froms (res ev)) (Transactions (job_blockBody job)).
Proof.
  apply (spill_then_apply unit example_MakeSigner tt (mkStageState Senders 4)
           (NewBatch three_block_db) 5 shuffled_results three_jobs 4 2
           (AddressBuffer.mk [] 4 (-1) (mkMemFile [] 0))).
  - repeat constructor.
  - cbn. apply (Permutation_cons_append [5; 6] 7).
  - repeat constructor.
  - lia.
  - unfold len. simpl. lia.
  - reflexivity.
  - intros [|[|[|i]]] job Hi; cbn in Hi; inversion Hi; subst job; vm_compute; reflexivity.
  - vm_compute. reflexivity.
  - intros ev i job Hev _ Hj.
    apply list_elem_of_lookup in Hev as [k Hk].
    destruct k as [|[|[|k]]]; cbn in Hk; inversion Hk; subst ev;
      destruct i as [|[|[|i]]]; cbn in Hj; inversion Hj; subst job; reflexivity.
  - reflexivity.
  - reflexivity.
  - vm_compute. reflexivity.
  - lia.
  - unfold max_int. lia.
  - simpl. lia.
Defined.
